(** * UASP: version hasher, query engine, state tracker and command executor

    A shallow embedding of the core of the [uasp] package
    ([core/version.py], [core/query.py], [core/loader.py],
    [runtime/state_manager.py], [runtime/executor.py]) together with the
    properties its specification states about them.

    Conventions.
    - A Python [str] is a Rocq [string]; a character is read as the code
      point of the same number (0..255), so the embedding covers documents
      whose text lies in the Latin-1 range.
    - A document is a tree of mappings (string keys, insertion order kept),
      sequences and scalars: the type [Value].
    - Python exceptions are values of type [exn]; a function that can raise
      returns a [pyres].
    - The interpreter's formatting of floating point numbers
      ([float.__repr__]) is an interface, [FloatRepr]. *)

From Stdlib Require Import ZArith NArith List String Ascii Bool Lia.
From Stdlib Require Import Permutation Sorted DecimalString OrderedTypeEx PrimFloat.
From stdpp Require Import gmap strings.
Import ListNotations.
Local Open Scope string_scope.

(* ===================================================================== *)
(** * Python strings *)
(* ===================================================================== *)

Module PyStr.

Definition code (c : ascii) : N := N_of_ascii c.

Definition dquote : ascii := ascii_of_N 34.
Definition squote : ascii := ascii_of_N 39.
Definition backslash : ascii := ascii_of_N 92.

Definition in_range (lo hi : N) (c : ascii) : bool :=
  (N.leb lo (code c) && N.leb (code c) hi)%bool.

(** [str.isspace] on one character, also the class [\s] of [re] and the
    characters removed by [str.strip()]. *)
Definition isspace (c : ascii) : bool :=
  (in_range 9 13 c || in_range 28 32 c
   || N.eqb (code c) 133 || N.eqb (code c) 160)%bool.

(** The characters [int()] skips around a numeral. *)
Definition int_space (c : ascii) : bool :=
  (in_range 9 13 c || N.eqb (code c) 32
   || N.eqb (code c) 133 || N.eqb (code c) 160)%bool.

Definition is_digit (c : ascii) : bool := in_range 48 57 c.

Definition lower_char (c : ascii) : ascii :=
  if (in_range 65 90 c
      || (in_range 192 222 c && negb (N.eqb (code c) 215)))%bool
  then ascii_of_N (code c + 32) else c.

(** [s.lower()] *)
Fixpoint lower (s : string) : string :=
  match s with
  | EmptyString => EmptyString
  | String c s' => String (lower_char c) (lower s')
  end.

Fixpoint drop_while (p : ascii -> bool) (s : string) : string :=
  match s with
  | EmptyString => EmptyString
  | String c s' => if p c then drop_while p s' else s
  end.

Fixpoint rev_onto (s acc : string) : string :=
  match s with
  | EmptyString => acc
  | String c s' => rev_onto s' (String c acc)
  end.

Definition rev (s : string) : string := rev_onto s EmptyString.

Definition drop_while_end (p : ascii -> bool) (s : string) : string :=
  rev (drop_while p (rev s)).

(** [s.strip()] *)
Definition strip (s : string) : string :=
  drop_while_end isspace (drop_while isspace s).

(** [s.lstrip(chars)] with a one-character [chars]. *)
Definition lstrip_char (ch : ascii) (s : string) : string :=
  drop_while (Ascii.eqb ch) s.

(** [sep.join(parts)] *)
Fixpoint join (sep : string) (parts : list string) : string :=
  match parts with
  | [] => EmptyString
  | [p] => p
  | p :: rest => p +:+ sep +:+ join sep rest
  end.

(** [s.split(sep)] with a one-character separator: never an empty list. *)
Fixpoint split (sep : ascii) (s : string) : list string :=
  match s with
  | EmptyString => [EmptyString]
  | String c s' =>
      if Ascii.eqb c sep then EmptyString :: split sep s'
      else match split sep s' with
           | h :: t => String c h :: t
           | [] => [String c EmptyString]
           end
  end.

Fixpoint replace_from (old new : string) (skip : nat) (s : string) : string :=
  match s with
  | EmptyString => EmptyString
  | String c s' =>
      match skip with
      | S k => replace_from old new k s'
      | O =>
          if String.prefix old s
          then new +:+ replace_from old new (Nat.pred (String.length old)) s'
          else String c (replace_from old new 0 s')
      end
  end.

Fixpoint intersperse (new s : string) : string :=
  match s with
  | EmptyString => new
  | String c s' => new +:+ String c (intersperse new s')
  end.

(** [s.replace(old, new)]: every occurrence, left to right, without
    overlap; an empty [old] matches between any two characters. *)
Definition replace (old new s : string) : string :=
  match old with
  | EmptyString => intersperse new s
  | _ => replace_from old new 0 s
  end.

Fixpoint contains_char (c : ascii) (s : string) : bool :=
  match s with
  | EmptyString => false
  | String d s' => (Ascii.eqb c d || contains_char c s')%bool
  end.

Fixpoint forallb_str (p : ascii -> bool) (s : string) : bool :=
  match s with
  | EmptyString => true
  | String c s' => (p c && forallb_str p s')%bool
  end.

(** [sys.get_int_max_str_digits()], the interpreter's default: the most
    digits a numeral may have when it is read by [int] or written by
    [str]. *)
Definition int_max_str_digits : nat := 4300.

(** The decimal numeral of an integer. *)
Definition digits (z : Z) : string := NilZero.string_of_int (Z.to_int z).

(** An integer whose numeral has no more digits than the limit. *)
Definition fits (z : Z) : bool :=
  (Z.abs z <? 10 ^ Z.of_nat int_max_str_digits)%Z.

(** [str(n)] for an [int]: [None] stands for the [ValueError] of an
    integer beyond the limit. *)
Definition of_Z (z : Z) : option string :=
  if fits z then Some (digits z) else None.

Definition hex_digit (n : N) : ascii :=
  match String.get (N.to_nat n) "0123456789abcdef" with
  | Some c => c
  | None => "0"%char
  end.

(** [c in "0123456789abcdef"] *)
Definition is_lower_hex (c : ascii) : bool :=
  contains_char c "0123456789abcdef".

(** Two lowercase hexadecimal digits of a character code. *)
Definition hex2 (c : ascii) : string :=
  String (hex_digit (N.div (code c) 16))
    (String (hex_digit (N.modulo (code c) 16)) EmptyString).

(** ** [int(s)] for a string, base ten *)

(** Digits with single underscores between them; the accumulator holds the
    value so far and the number of digits read. [prev_digit] is false
    after an underscore. *)
Fixpoint int_digits (s : string) (prev_digit : bool) (acc : Z) (n : nat)
  : option (Z * nat) :=
  match s with
  | EmptyString => if prev_digit then Some (acc, n) else None
  | String c s' =>
      if is_digit c
      then int_digits s' true (acc * 10 + Z.of_N (code c - 48))%Z (S n)
      else if (Ascii.eqb c "_"%char && prev_digit)%bool
           then int_digits s' false acc n
           else None
  end.

Definition int_unsigned (s : string) : option Z :=
  match s with
  | String c _ =>
      if is_digit c then
        match int_digits s false 0%Z 0 with
        | Some (v, n) => if Nat.leb n int_max_str_digits then Some v else None
        | None => None
        end
      else None
  | EmptyString => None
  end.

(** [int(s)]: [None] stands for [ValueError]. *)
Definition to_int (s : string) : option Z :=
  let body := drop_while_end int_space (drop_while int_space s) in
  match body with
  | String c rest =>
      if Ascii.eqb c "-"%char then option_map Z.opp (int_unsigned rest)
      else if Ascii.eqb c "+"%char then int_unsigned rest
      else int_unsigned body
  | EmptyString => None
  end.

End PyStr.

(* ===================================================================== *)
(** * Documents, exceptions and the interpreter's conversions *)
(* ===================================================================== *)

(** A document value, as [yaml.safe_load] or a dict literal gives it. *)
#[local] Unset Elimination Schemes.
Inductive Value : Type :=
| VNone
| VBool (b : bool)
| VInt (z : Z)
| VFloat (f : float)
| VStr (s : string)
| VList (xs : list Value)
| VDict (kvs : list (string * Value)).
#[local] Set Elimination Schemes.

(** A mapping: its items in insertion order. *)
Abbreviation Dict := (list (string * Value)).

Inductive exn : Type :=
| KeyError (key : string)
| TypeError (msg : string)
| AttributeError (msg : string)
| ValueError (msg : string)
| InvalidStateError (entity : string) (missing : list string)
| PathNotFoundError (path : string) (skill : string)
| ValidationFailedError (errors : list string)
| ModelValidationError (msg : string)
| Unmodelled (what : string).

Inductive pyres (A : Type) : Type :=
| Ret (a : A)
| Raise (e : exn).
Arguments Ret {A} a.
Arguments Raise {A} e.

#[global] Instance pyres_ret : MRet pyres := fun A a => Ret a.
#[global] Instance pyres_bind : MBind pyres := fun A B f c =>
  match c with
  | Ret a => f a
  | Raise e => Raise e
  end.

(** [float.__repr__], supplied by the interpreter. *)
Class FloatRepr := float_repr : float -> string.

(** A formatter to run the examples with; none of them holds a float. *)
Definition sample_repr : FloatRepr := fun _ => "0.0".

Module Py.
Import PyStr.

Definition type_name (v : Value) : string :=
  match v with
  | VNone => "NoneType"
  | VBool _ => "bool"
  | VInt _ => "int"
  | VFloat _ => "float"
  | VStr _ => "str"
  | VList _ => "list"
  | VDict _ => "dict"
  end.

(** ** Mappings *)

(** The operations on the items of a mapping, whatever the values are. *)

(** [d.get(k)], [None] when the key is absent. *)
Fixpoint dict_get {A : Type} (k : string) (d : list (string * A)) : option A :=
  match d with
  | [] => None
  | (k', v) :: d' => if String.eqb k k' then Some v else dict_get k d'
  end.

(** [k in d] *)
Definition dict_mem {A : Type} (k : string) (d : list (string * A)) : bool :=
  match dict_get k d with Some _ => true | None => false end.

(** [d[k] = v]: an existing key keeps its place, a new key goes last. *)
Fixpoint dict_set {A : Type} (k : string) (v : A) (d : list (string * A))
  : list (string * A) :=
  match d with
  | [] => [(k, v)]
  | (k', v') :: d' =>
      if String.eqb k k' then (k', v) :: d' else (k', v') :: dict_set k v d'
  end.

(** [{k: v for k, v in d.items() if k != key}] *)
Definition dict_without {A : Type} (key : string) (d : list (string * A))
  : list (string * A) :=
  List.filter (fun kv => negb (String.eqb (fst kv) key)) d.

Definition keys {A : Type} (d : list (string * A)) : list string :=
  List.map fst d.

(** [v == s] for a string [s]. *)
Definition eq_str (v : Value) (s : string) : bool :=
  match v with
  | VStr t => String.eqb t s
  | _ => false
  end.

(** Truth value of an object ([if v:], [not v], [a or b]). *)
Definition truthy (v : Value) : bool :=
  match v with
  | VNone => false
  | VBool b => b
  | VInt z => negb (Z.eqb z 0)
  | VFloat f => negb (PrimFloat.eqb f PrimFloat.zero)
  | VStr s => negb (String.eqb s EmptyString)
  | VList xs => match xs with [] => false | _ => true end
  | VDict kvs => match kvs with [] => false | _ => true end
  end.

(** [a or b] *)
Definition py_or (a b : Value) : Value := if truthy a then a else b.

(** [v.get(k)] on an arbitrary object. *)
Definition get_attr_get (v : Value) : pyres Dict :=
  match v with
  | VDict d => Ret d
  | _ => Raise (AttributeError
                  ("'" +:+ type_name v +:+ "' object has no attribute 'get'"))
  end.

(** [v[k]] for a string [k]. *)
Definition getitem (v : Value) (k : string) : pyres Value :=
  match v with
  | VDict d =>
      match dict_get k d with
      | Some x => Ret x
      | None => Raise (KeyError k)
      end
  | VStr _ => Raise (TypeError "string indices must be integers, not 'str'")
  | VList _ =>
      Raise (TypeError "list indices must be integers or slices, not str")
  | _ => Raise (TypeError
                  ("'" +:+ type_name v +:+ "' object is not subscriptable"))
  end.

(** [for x in v]: the elements of a list, the keys of a mapping, the
    characters of a string. *)
Definition iter (v : Value) : pyres (list Value) :=
  match v with
  | VList xs => Ret xs
  | VDict d => Ret (List.map (fun kv => VStr (fst kv)) d)
  | VStr s =>
      Ret (List.map (fun c => VStr (String c EmptyString))
             (list_ascii_of_string s))
  | _ => Raise (TypeError
                  ("'" +:+ type_name v +:+ "' object is not iterable"))
  end.

(** ** [repr] and [str] *)

Definition printable (c : ascii) : bool :=
  negb (in_range 0 31 c || in_range 127 160 c || N.eqb (code c) 173)%bool.

Definition repr_char (quote c : ascii) : string :=
  if (Ascii.eqb c quote || Ascii.eqb c backslash)%bool
  then String backslash (String c EmptyString)
  else if N.eqb (code c) 9 then String backslash "t"
  else if N.eqb (code c) 10 then String backslash "n"
  else if N.eqb (code c) 13 then String backslash "r"
  else if printable c then String c EmptyString
  else String backslash ("x" +:+ hex2 c).

(** [repr(s)]: single quotes unless the text has one and no double quote. *)
Definition repr_str (s : string) : string :=
  let quote :=
    if (contains_char squote s && negb (contains_char dquote s))%bool
    then dquote else squote in
  String quote
    (String.concat EmptyString
       (List.map (repr_char quote) (list_ascii_of_string s))
     +:+ String quote EmptyString).

(** The [ValueError] of [str], [repr], an f-string and [json.dumps] on an
    integer beyond the limit. *)
Definition int_limit : exn :=
  ValueError
    "Exceeds the limit (4300 digits) for integer string conversion; use sys.set_int_max_str_digits() to increase the limit".

(** Every integer in [v], at any depth, can be written: what [repr],
    [str] and [json.dumps] need in order to return. *)
Fixpoint prints (v : Value) : bool :=
  match v with
  | VInt z => match of_Z z with Some _ => true | None => false end
  | VList xs => List.forallb prints xs
  | VDict kvs => List.forallb (fun kv => prints (snd kv)) kvs
  | _ => true
  end.

Section Conversions.
Context {FR : FloatRepr}.

(** The text [repr(v)] returns when it returns. *)
Fixpoint repr_text (v : Value) : string :=
  match v with
  | VNone => "None"
  | VBool true => "True"
  | VBool false => "False"
  | VInt z => digits z
  | VFloat f => float_repr f
  | VStr s => repr_str s
  | VList xs => "[" +:+ join ", " (List.map repr_text xs) +:+ "]"
  | VDict kvs =>
      "{" +:+ join ", "
               (List.map (fun kv => repr_str (fst kv) +:+ ": "
                                      +:+ repr_text (snd kv))
                  kvs) +:+ "}"
  end.

(** [repr(v)]: the one way it fails on a document is an integer beyond
    the limit, whichever comes first. *)
Definition repr (v : Value) : pyres string :=
  if prints v then Ret (repr_text v) else Raise int_limit.

(** The text [str(v)] returns when it returns. *)
Definition text (v : Value) : string :=
  match v with
  | VStr s => s
  | _ => repr_text v
  end.

(** [str(v)], also what an f-string substitutes. *)
Definition str (v : Value) : pyres string :=
  match v with
  | VStr s => Ret s
  | _ => repr v
  end.

End Conversions.

End Py.

(* ===================================================================== *)
(** * [json.dumps(v, sort_keys=True, separators=(",", ":"))] *)
(* ===================================================================== *)

Module Json.
Import PyStr.

(** The encoder's escapes with [ensure_ascii] (the default): every
    character outside the printable ASCII range leaves as an escape. *)
Definition escape_char (c : ascii) : string :=
  if Ascii.eqb c dquote then String backslash (String dquote EmptyString)
  else if Ascii.eqb c backslash
  then String backslash (String backslash EmptyString)
  else if N.eqb (code c) 10 then String backslash "n"
  else if N.eqb (code c) 13 then String backslash "r"
  else if N.eqb (code c) 9 then String backslash "t"
  else if N.eqb (code c) 12 then String backslash "f"
  else if N.eqb (code c) 8 then String backslash "b"
  else if in_range 32 126 c then String c EmptyString
  else String backslash ("u00" +:+ hex2 c).

Definition encode_str (s : string) : string :=
  String dquote
    (String.concat EmptyString (List.map escape_char (list_ascii_of_string s))
     +:+ String dquote EmptyString).

(** Insertion of an item before the first item whose key is not smaller:
    the order of [sorted] on the keys. *)
Fixpoint insert_item {A : Type} (x : string * A) (l : list (string * A))
  : list (string * A) :=
  match l with
  | [] => [x]
  | y :: l' =>
      if String.leb (fst x) (fst y) then x :: l else y :: insert_item x l'
  end.

Definition sort_items {A : Type} (l : list (string * A)) : list (string * A) :=
  List.fold_right insert_item [] l.

Section Dumps.
Context {FR : FloatRepr}.

Definition encode_float (f : float) : string :=
  if PrimFloat.is_nan f then "NaN"
  else if PrimFloat.is_infinity f
       then (if PrimFloat.ltb f PrimFloat.zero then "-Infinity" else "Infinity")
       else float_repr f.

(** The text [json.dumps] returns when it returns. The items of a mapping
    leave in the order of their keys. The order depends on the keys alone,
    so each value is encoded where it stands and the encoded items are
    then put in order. *)
Fixpoint encode (v : Value) : string :=
  match v with
  | VNone => "null"
  | VBool true => "true"
  | VBool false => "false"
  | VInt z => digits z
  | VFloat f => encode_float f
  | VStr s => encode_str s
  | VList xs => "[" +:+ join "," (List.map encode xs) +:+ "]"
  | VDict kvs =>
      "{" +:+ join ","
                (List.map (fun kv => encode_str (fst kv) +:+ ":" +:+ snd kv)
                   (sort_items
                      (List.map (fun kv => (fst kv, encode (snd kv))) kvs)))
          +:+ "}"
  end.

(** [json.dumps(v, sort_keys=True, separators=(",", ":"))]: an integer
    beyond the limit, anywhere in [v], is a [ValueError]. *)
Definition dumps (v : Value) : pyres string :=
  if Py.prints v then Ret (encode v) else Raise Py.int_limit.

End Dumps.

End Json.

(* ===================================================================== *)
(** * [hashlib.sha256(data).hexdigest()] *)
(* ===================================================================== *)

Module Sha256.
Local Open Scope N_scope.

Definition mask32 : N := 4294967295.
Definition w32 (x : N) : N := N.land x mask32.
Definition add32 (x y : N) : N := w32 (x + y).
Definition rotr (n x : N) : N :=
  N.lor (N.shiftr x n) (w32 (N.shiftl x (32 - n))).
Definition shr (n x : N) : N := N.shiftr x n.
Definition not32 (x : N) : N := N.lxor x mask32.

Definition Ch (x y z : N) : N := N.lxor (N.land x y) (N.land (not32 x) z).
Definition Maj (x y z : N) : N :=
  N.lxor (N.lxor (N.land x y) (N.land x z)) (N.land y z).
Definition bsig0 (x : N) : N := N.lxor (N.lxor (rotr 2 x) (rotr 13 x)) (rotr 22 x).
Definition bsig1 (x : N) : N := N.lxor (N.lxor (rotr 6 x) (rotr 11 x)) (rotr 25 x).
Definition ssig0 (x : N) : N := N.lxor (N.lxor (rotr 7 x) (rotr 18 x)) (shr 3 x).
Definition ssig1 (x : N) : N := N.lxor (N.lxor (rotr 17 x) (rotr 19 x)) (shr 10 x).

(** The round constants (the fractional parts of the cube roots of the
    first 64 primes), in decimal. *)
Definition K : list N :=
  [
    1116352408; 1899447441; 3049323471; 3921009573;
    961987163; 1508970993; 2453635748; 2870763221;
    3624381080; 310598401; 607225278; 1426881987;
    1925078388; 2162078206; 2614888103; 3248222580;
    3835390401; 4022224774; 264347078; 604807628;
    770255983; 1249150122; 1555081692; 1996064986;
    2554220882; 2821834349; 2952996808; 3210313671;
    3336571891; 3584528711; 113926993; 338241895;
    666307205; 773529912; 1294757372; 1396182291;
    1695183700; 1986661051; 2177026350; 2456956037;
    2730485921; 2820302411; 3259730800; 3345764771;
    3516065817; 3600352804; 4094571909; 275423344;
    430227734; 506948616; 659060556; 883997877;
    958139571; 1322822218; 1537002063; 1747873779;
    1955562222; 2024104815; 2227730452; 2361852424;
    2428436474; 2756734187; 3204031479; 3329325298 ].

(** The eight working registers. *)
Record Regs : Type := mkRegs
  { ra : N; rb : N; rc : N; rd : N; re : N; rf : N; rg : N; rh : N }.

Definition H0 : Regs :=
  mkRegs 1779033703 3144134277 1013904242 2773480762
         1359893119 2600822924 528734635 1541459225.

Definition round (r : Regs) (kw : N * N) : Regs :=
  let t1 := add32 (add32 (add32 (add32 (rh r) (bsig1 (re r)))
                            (Ch (re r) (rf r) (rg r))) (fst kw)) (snd kw) in
  let t2 := add32 (bsig0 (ra r)) (Maj (ra r) (rb r) (rc r)) in
  mkRegs (add32 t1 t2) (ra r) (rb r) (rc r) (add32 (rd r) t1)
         (re r) (rf r) (rg r).

(** Big-endian words of a block of bytes. *)
Fixpoint words (bytes : list N) : list N :=
  match bytes with
  | b0 :: b1 :: b2 :: b3 :: rest =>
      (N.shiftl b0 24 + N.shiftl b1 16 + N.shiftl b2 8 + b3) :: words rest
  | _ => []
  end.

(** The message schedule, newest word first; [n] words are added. *)
Fixpoint schedule (n : nat) (w : list N) : list N :=
  match n with
  | O => w
  | S n' =>
      let x := add32 (add32 (add32 (ssig1 (nth 1 w 0)) (nth 6 w 0))
                        (ssig0 (nth 14 w 0))) (nth 15 w 0) in
      schedule n' (x :: w)
  end.

Definition compress (r : Regs) (block : list N) : Regs :=
  let w := List.rev (schedule 48 (List.rev (words block))) in
  let r' := List.fold_left round (List.combine K w) r in
  mkRegs (add32 (ra r) (ra r')) (add32 (rb r) (rb r')) (add32 (rc r) (rc r'))
         (add32 (rd r) (rd r')) (add32 (re r) (re r')) (add32 (rf r) (rf r'))
         (add32 (rg r) (rg r')) (add32 (rh r) (rh r')).

Definition be64 (n : N) : list N :=
  List.map (fun i => N.land (N.shiftr n (8 * i)) 255) [7; 6; 5; 4; 3; 2; 1; 0].

Definition pad (msg : list N) : list N :=
  let len := N.of_nat (List.length msg) in
  (msg ++ [128] ++ List.repeat 0 (N.to_nat ((119 - len mod 64) mod 64))
       ++ be64 (8 * len))%list.

(** One byte at a time: the registers, the bytes of the block being
    filled (last first) and their number. *)
Definition absorb (st : Regs * list N * nat) (b : N) : Regs * list N * nat :=
  let '(r, buf, n) := st in
  if Nat.eqb n 63 then (compress r (List.rev (b :: buf)), [], O)
  else (r, b :: buf, S n).

Definition digest (msg : list N) : Regs :=
  fst (fst (List.fold_left absorb (pad msg) (H0, [], O))).

Definition hex8 (w : N) : string :=
  string_of_list_ascii
    (List.map (fun i => PyStr.hex_digit (N.land (N.shiftr w (4 * i)) 15))
       [7; 6; 5; 4; 3; 2; 1; 0]).

Definition hexdigest (msg : list N) : string :=
  let r := digest msg in
  hex8 (ra r) +:+ hex8 (rb r) +:+ hex8 (rc r) +:+ hex8 (rd r)
  +:+ hex8 (re r) +:+ hex8 (rf r) +:+ hex8 (rg r) +:+ hex8 (rh r).

(** [s.encode("utf-8")] for code points below 256. *)
Definition utf8 (s : string) : list N :=
  List.concat
    (List.map (fun c => let n := PyStr.code c in
                        if n <? 128 then [n]
                        else [N.lor 192 (N.shiftr n 6); N.lor 128 (N.land n 63)])
       (list_ascii_of_string s)).

End Sha256.

(* ===================================================================== *)
(** * Version hasher ([core/version.py]) *)
(* ===================================================================== *)

Module Version.
Import Py.

Section Hasher.
Context {FR : FloatRepr}.

(** [_deep_copy_value]: a mapping comprehension over the items of a
    mapping gives the same keys in the same order. *)
Fixpoint _deep_copy_value (value : Value) : Value :=
  match value with
  | VDict kvs =>
      VDict (List.map (fun kv => (fst kv, _deep_copy_value (snd kv))) kvs)
  | VList xs => VList (List.map _deep_copy_value xs)
  | _ => value
  end.

(** [value.items()] of the metadata entry. *)
Definition items_of (value : Value) : pyres Dict :=
  match value with
  | VDict d => Ret d
  | _ => Raise (AttributeError
                  ("'" +:+ type_name value
                       +:+ "' object has no attribute 'items'"))
  end.

(** One turn of the loop of [_deep_copy_without_version]. *)
Definition copy_entry (key : string) (value : Value) : pyres Value :=
  if String.eqb key "meta"
  then m ← items_of value; Ret (VDict (dict_without "version" m))
  else Ret (_deep_copy_value value).

Fixpoint copy_items (items : Dict) : pyres Dict :=
  match items with
  | [] => Ret []
  | (key, value) :: rest =>
      value' ← copy_entry key value;
      rest' ← copy_items rest;
      Ret ((key, value') :: rest')
  end.

Definition _deep_copy_without_version (skill_dict : Dict) : pyres Dict :=
  copy_items skill_dict.

(** [full_hash[:8]] *)
Definition first8 (s : string) : string := String.substring 0 8 s.

Definition calculate_version (skill_dict : Dict) : pyres string :=
  skill_copy ← _deep_copy_without_version skill_dict;
  normalized ← Json.dumps (VDict skill_copy);
  let full_hash := Sha256.hexdigest (Sha256.utf8 normalized) in
  Ret (first8 full_hash).

(** [skill_dict.get("meta", {}).get(key, default)] *)
Definition meta_get (skill_dict : Dict) (key : string) (default : Value)
  : pyres Value :=
  m ← get_attr_get (match dict_get "meta" skill_dict with
                    | Some v => v
                    | None => VDict []
                    end);
  Ret (match dict_get key m with Some v => v | None => default end).

Definition verify_version (skill_dict : Dict)
  : pyres (bool * Value * string) :=
  stored ← meta_get skill_dict "version" (VStr EmptyString);
  calculated ← calculate_version skill_dict;
  Ret (eq_str stored calculated, stored, calculated).

(** [target[key] = v] for a string key. *)
Definition setitem (target : Value) (key : string) (v : Value) : pyres Value :=
  match target with
  | VDict d => Ret (VDict (dict_set key v d))
  | VList _ =>
      Raise (TypeError "list indices must be integers or slices, not str")
  | _ => Raise (TypeError
                  ("'" +:+ type_name target
                       +:+ "' object does not support item assignment"))
  end.

(** [d["meta"]["version"] = v] *)
Definition set_meta_version (d : Dict) (v : Value) : pyres Dict :=
  meta ← getitem (VDict d) "meta";
  meta' ← setitem meta "version" v;
  Ret (dict_set "meta" meta' d).

(** The document with the fingerprint taken out of its metadata. *)
Definition without_meta_version (d : Dict) : Dict :=
  match dict_get "meta" d with
  | Some (VDict m) => dict_set "meta" (VDict (dict_without "version" m)) d
  | _ => d
  end.

(** The metadata block, when the document has one, is a mapping. *)
Definition meta_ok (d : Dict) : bool :=
  match dict_get "meta" d with
  | Some (VDict _) | None => true
  | Some _ => false
  end.

(** The right-hand side is evaluated before the target. *)
Definition update_version (skill_dict : Dict) : pyres Dict :=
  let result := List.map (fun kv => (fst kv, _deep_copy_value (snd kv)))
                  skill_dict in
  calculated ← calculate_version skill_dict;
  set_meta_version result (VStr calculated).

End Hasher.

End Version.

(* ===================================================================== *)
(** * [fnmatch.fnmatch] (POSIX: [os.path.normcase] changes nothing) *)
(* ===================================================================== *)

Module Fnmatch.
Import PyStr.

(** The pieces [fnmatch.translate] emits. A set keeps its chunks: the
    characters of a chunk stand for themselves, and between two chunks
    lies the range from the last character of the first to the first
    character of the second. *)
Inductive token : Type :=
| TStar
| TAny
| TNever
| TSet (negated : bool) (chunks : list (list ascii))
| TLit (c : ascii).

(** The index of the bracket that closes a set: a leading [!] and a
    [\]] right after it are part of the set. *)
Fixpoint find_close (j : nat) (s : list ascii) : option nat :=
  match s with
  | [] => None
  | c :: s' => if Ascii.eqb c "]"%char then Some j else find_close (S j) s'
  end.

Definition close_index (s : list ascii) : option nat :=
  let j0 := match s with
            | c :: _ => if Ascii.eqb c "!"%char then 1 else 0
            | [] => 0
            end in
  let j1 := match List.nth_error s j0 with
            | Some c => if Ascii.eqb c "]"%char then S j0 else j0
            | None => j0
            end in
  find_close j1 (List.skipn j1 s).

(** The chunks of the text of a set: a hyphen splits unless it stands
    among the first [skip] characters; after a split the next two
    characters are not looked at. [cur] is the chunk being read, last
    character first. A hyphen that ends the text joins the last chunk. *)
Fixpoint chunks_of (skip : nat) (cur : list ascii) (s : list ascii)
  : list (list ascii) :=
  match s with
  | [] => [List.rev cur]
  | c :: s' =>
      match skip with
      | S k => chunks_of k (c :: cur) s'
      | O =>
          if Ascii.eqb c "-"%char
          then match s' with
               | [] => [List.rev (c :: cur)]
               | _ => List.rev cur :: chunks_of 2 [] s'
               end
          else chunks_of 0 (c :: cur) s'
      end
  end.

Definition last_code (chunk : list ascii) : N := code (List.last chunk "000"%char).
Definition first_code (chunk : list ascii) : N := code (List.hd "000"%char chunk).

(** Empty ranges leave, from the last pair of chunks to the first. *)
Fixpoint prune (chunks : list (list ascii)) : list (list ascii) :=
  match chunks with
  | [] => []
  | c :: rest =>
      match prune rest with
      | [] => [c]
      | d :: rest' =>
          if N.ltb (first_code d) (last_code c)
          then (List.removelast c ++ List.tl d)%list :: rest'
          else c :: d :: rest'
      end
  end.

Definition set_token (stuff : list ascii) : token :=
  let skip := match stuff with
              | c :: _ => if Ascii.eqb c "!"%char then 2 else 1
              | [] => 1
              end in
  match prune (chunks_of skip [] stuff) with
  | [] | [[]] => TNever
  | (c :: first) :: rest =>
      if Ascii.eqb c "!"%char
      then match first, rest with
           | [], [] => TAny
           | _, _ => TSet true (first :: rest)
           end
      else TSet false ((c :: first) :: rest)
  | chunks => TSet false chunks
  end.

(** [translate]: [skip] characters belong to a set already emitted;
    [prev_star] holds when the last piece is a star. *)
Fixpoint tokens (skip : nat) (prev_star : bool) (pat : list ascii)
  : list token :=
  match pat with
  | [] => []
  | c :: pat' =>
      match skip with
      | S k => tokens k prev_star pat'
      | O =>
          if Ascii.eqb c "*"%char
          then (if prev_star then tokens 0 true pat'
                else TStar :: tokens 0 true pat')
          else if Ascii.eqb c "?"%char then TAny :: tokens 0 false pat'
          else if Ascii.eqb c "["%char
          then match close_index pat' with
               | None => TLit c :: tokens 0 false pat'
               | Some j =>
                   set_token (List.firstn j pat') :: tokens (S j) false pat'
               end
          else TLit c :: tokens 0 false pat'
      end
  end.

Fixpoint in_ranges (chunks : list (list ascii)) (x : ascii) : bool :=
  match chunks with
  | c :: ((d :: _) as rest) =>
      ((N.leb (last_code c) (code x) && N.leb (code x) (first_code d))
       || in_ranges rest x)%bool
  | _ => false
  end.

Definition in_set (chunks : list (list ascii)) (x : ascii) : bool :=
  (List.existsb (List.existsb (Ascii.eqb x)) chunks || in_ranges chunks x)%bool.

(** The compiled pattern against a whole name. *)
Fixpoint matches (ts : list token) : list ascii -> bool :=
  match ts with
  | [] => fun s => match s with [] => true | _ => false end
  | TStar :: ts' =>
      fix star (s : list ascii) : bool :=
        (matches ts' s || match s with [] => false | _ :: s' => star s' end)%bool
  | TAny :: ts' =>
      fun s => match s with [] => false | _ :: s' => matches ts' s' end
  | TNever :: _ => fun _ => false
  | TSet negated chunks :: ts' =>
      fun s => match s with
               | [] => false
               | x :: s' => (xorb negated (in_set chunks x) && matches ts' s')%bool
               end
  | TLit c :: ts' =>
      fun s => match s with
               | [] => false
               | x :: s' => (Ascii.eqb c x && matches ts' s')%bool
               end
  end.

(** [fnmatch.fnmatch(name, pat)] *)
Definition fnmatch (name pat : string) : bool :=
  matches (tokens 0 false (list_ascii_of_string pat)) (list_ascii_of_string name).

End Fnmatch.

(* ===================================================================== *)
(** * Query engine ([core/query.py]) *)
(* ===================================================================== *)

Module Query.
Import Py.

Record QueryResult : Type := mkQueryResult
  { skill : Value;
    path : string;
    found : bool;
    value : Value;            (* [None] unless found *)
    filters : list (string * string) }.

(** [filters or {}] for the optional mapping of filters. *)
Definition filters_or_empty (filters : option (list (string * string)))
  : list (string * string) :=
  match filters with
  | Some f => f
  | None => []
  end.

(** [if filters] *)
Definition filters_given (filters : option (list (string * string))) : bool :=
  match filters with
  | Some (_ :: _) => true
  | _ => false
  end.

(** [isinstance(x, dict) and (x.get("name") == segment or
    x.get("id") == segment)] *)
Definition named (segment : string) (x : Value) : bool :=
  match x with
  | VDict d =>
      (match dict_get "name" d with Some v => eq_str v segment | None => false end
       || match dict_get "id" d with Some v => eq_str v segment | None => false end)%bool
  | _ => false
  end.

(** One turn of the traversal loop: [None] is the early return of a
    result that is not found. *)
Definition step (current : Value) (segment : string) : option Value :=
  match current with
  | VDict d => dict_get segment d
  | VList xs =>
      let matches := List.filter (named segment) xs in
      match matches with
      | [m] => Some m
      | _ :: _ :: _ => Some (VList matches)
      | [] =>
          match PyStr.to_int segment with
          | Some idx =>
              if ((0 <=? idx)%Z && (idx <? Z.of_nat (List.length xs))%Z)%bool
              then List.nth_error xs (Z.to_nat idx)
              else None
          | None => None
          end
      end
  | _ => None
  end.

Fixpoint traverse (current : Value) (segments : list string) : option Value :=
  match segments with
  | [] => Some current
  | segment :: rest =>
      match step current segment with
      | Some next => traverse next rest
      | None => None
      end
  end.

(** [path.split(".") if path else []] *)
Definition segments_of (path : string) : list string :=
  match path with
  | EmptyString => []
  | _ => PyStr.split "."%char path
  end.

Section Engine.
Context {FR : FloatRepr}.

Definition _matches_pattern (value : Value) (pattern : string) : pyres bool :=
  text ← match value with
         | VStr s => Ret s
         | VNone => Ret EmptyString
         | _ => str value
         end;
  Ret (Fnmatch.fnmatch (PyStr.lower text) (PyStr.lower pattern)).

(** [isinstance(item, dict) and
    _matches_pattern(item.get(key, ""), pattern)] *)
Definition keeps (key pattern : string) (item : Value) : pyres bool :=
  match item with
  | VDict d =>
      _matches_pattern
        (match dict_get key d with Some v => v | None => VStr EmptyString end)
        pattern
  | _ => Ret false
  end.

(** One comprehension: the elements [keep] answers for, in their order;
    it ends at the first element [keep] raises on. *)
Fixpoint keep_all (keep : Value -> pyres bool) (items : list Value)
  : pyres (list Value) :=
  match items with
  | [] => Ret []
  | item :: rest =>
      b ← keep item;
      kept ← keep_all keep rest;
      Ret (if b : bool then item :: kept else kept)
  end.

Fixpoint _apply_filters (items : list Value)
  (filters : list (string * string)) : pyres (list Value) :=
  match filters with
  | [] => Ret items
  | kp :: rest =>
      result ← keep_all (keeps (fst kp) (snd kp)) items;
      _apply_filters result rest
  end.

Definition query (skill_dict : Dict) (path : string)
  (filters : option (list (string * string))) (skill_name : string)
  : pyres QueryResult :=
  name ← (if String.eqb skill_name EmptyString
           then Version.meta_get skill_dict "name" (VStr "unknown")
           else Ret (VStr skill_name));
  match traverse (VDict skill_dict) (segments_of path) with
  | None => Ret (mkQueryResult name path false VNone (filters_or_empty filters))
  | Some current =>
      current' ← match current with
                 | VList items =>
                     if filters_given filters
                     then kept ← _apply_filters items (filters_or_empty filters);
                          Ret (VList kept)
                     else Ret current
                 | _ => Ret current
                 end;
      Ret (mkQueryResult name path true current' (filters_or_empty filters))
  end.

Definition query_or_raise (skill_dict : Dict) (path : string)
  (filters : option (list (string * string))) (skill_name : string)
  : pyres Value :=
  result ← query skill_dict path filters skill_name;
  if found result then Ret (value result)
  else Raise (PathNotFoundError path
                (if String.eqb skill_name EmptyString then "unknown"
                 else skill_name)).

End Engine.

(** ** The matching rule in the words of the specification

    Glob-style wildcards: [*] for an arbitrary substring, [?] for a single
    character, and no other qualifiers. *)
Fixpoint glob (pat : list ascii) : list ascii -> bool :=
  match pat with
  | [] => fun s => match s with [] => true | _ => false end
  | c :: pat' =>
      if Ascii.eqb c "*"%char
      then fix star (s : list ascii) : bool :=
             (glob pat' s || match s with [] => false | _ :: s' => star s' end)%bool
      else fun s =>
             match s with
             | [] => false
             | x :: s' =>
                 ((Ascii.eqb c "?"%char || Ascii.eqb c x) && glob pat' s')%bool
             end
  end.

Definition glob_match (name pat : string) : bool :=
  glob (list_ascii_of_string pat) (list_ascii_of_string name).

Section Words.
Context {FR : FloatRepr}.

(** The text a filter looks at: the value at the key, stringified, the
    empty string when the key is missing. *)
Definition filter_text (key : string) (d : Dict) : string :=
  match dict_get key d with
  | Some v => text v
  | None => EmptyString
  end.

(** Keeping an element as the specification words it. *)
Definition spec_keeps (key pattern : string) (item : Value) : bool :=
  match item with
  | VDict d => glob_match (PyStr.lower (filter_text key d)) (PyStr.lower pattern)
  | _ => false
  end.

(** Every filter in the given order, as the specification words it. *)
Definition spec_apply_filters (items : list Value)
  (filters : list (string * string)) : list Value :=
  List.fold_left
    (fun result kp => List.filter (spec_keeps (fst kp) (snd kp)) result)
    filters items.

End Words.

End Query.

(* ===================================================================== *)
(** * State tracker ([runtime/state_manager.py]) *)
(* ===================================================================== *)

Module State.
Import Py.

Record StateEntity : Type := mkStateEntity
  { name : string;
    value : Value;
    valid : bool }.

(** [StateManager.entities]; the skill the manager was built from is an
    argument of the methods that read it. *)
Abbreviation Entities := (gmap string StateEntity).

(** The name of an entity as a key of [entities]. The embedding keys the
    entities by text; a name of another hashable type is outside it. *)
Definition as_name (v : Value) : pyres string :=
  match v with
  | VStr s => Ret s
  | VList _ | VDict _ =>
      Raise (TypeError ("unhashable type: '" +:+ type_name v +:+ "'"))
  | _ => Raise (Unmodelled "entity name that is not a string")
  end.

(** [skill.get(section, {}).get(key, default)] *)
Definition section_get (skill : Dict) (section key : string) (default : Value)
  : pyres Value :=
  d ← get_attr_get (match dict_get section skill with
                    | Some v => v
                    | None => VDict []
                    end);
  Ret (match dict_get key d with Some v => v | None => default end).

Fixpoint initialize_from (defs : list Value) (entities : Entities)
  : pyres Entities :=
  match defs with
  | [] => Ret entities
  | entity_def :: rest =>
      n ← getitem entity_def "name";
      s ← as_name n;
      initialize_from rest (<[s := mkStateEntity s VNone false]> entities)
  end.

(** [StateManager(skill_dict)] *)
Definition _initialize_entities (skill : Dict) : pyres Entities :=
  defs ← section_get skill "state" "entities" (VList []);
  xs ← iter defs;
  initialize_from xs ∅.

Definition create (entity_name : string) (v : Value) (entities : Entities)
  : Entities :=
  match entities !! entity_name with
  | Some e => <[entity_name := mkStateEntity (name e) v true]> entities
  | None => <[entity_name := mkStateEntity entity_name v true]> entities
  end.

Definition invalidate (entity_name : string) (entities : Entities)
  : Entities :=
  match entities !! entity_name with
  | Some e => <[entity_name := mkStateEntity (name e) (value e) false]> entities
  | None => entities
  end.

Definition is_valid (entities : Entities) (entity_name : string) : bool :=
  match entities !! entity_name with
  | Some e => valid e
  | None => false
  end.

Definition get_value (entities : Entities) (entity_name : string) : Value :=
  match entities !! entity_name with
  | Some e => if valid e then value e else VNone
  | None => VNone
  end.

(** [self.skill.get("commands", {}).get(command_name, {})] *)
Definition command_of (skill : Dict) (command_name : string) : pyres Value :=
  section_get skill "commands" command_name (VDict []).

(** [cmd.get(key, [])] as the sequence a [for] runs over. *)
Definition listed (cmd : Value) (key : string) : pyres (list Value) :=
  d ← get_attr_get cmd;
  iter (match dict_get key d with Some v => v | None => VList [] end).

Fixpoint missing_of (entities : Entities) (requires : list Value)
  : pyres (list string) :=
  match requires with
  | [] => Ret []
  | req :: rest =>
      s ← as_name req;
      rest' ← missing_of entities rest;
      Ret (if is_valid entities s then rest' else s :: rest')
  end.

Definition check_requires (skill : Dict) (entities : Entities)
  (command_name : string) : pyres (list string) :=
  cmd ← command_of skill command_name;
  requires ← listed cmd "requires";
  missing_of entities requires.

(** A loop over names that changes the entities: the entities as they are
    when the loop ends or raises. *)
Fixpoint for_each (f : string -> Entities -> Entities) (names : list Value)
  (entities : Entities) : pyres unit * Entities :=
  match names with
  | [] => (Ret tt, entities)
  | n :: rest =>
      match as_name n with
      | Ret s => for_each f rest (f s entities)
      | Raise e => (Raise e, entities)
      end
  end.

Definition apply_effects (skill : Dict) (command_name : string)
  (result : Value) (entities : Entities) : pyres unit * Entities :=
  match command_of skill command_name with
  | Raise e => (Raise e, entities)
  | Ret cmd =>
      match listed cmd "creates" with
      | Raise e => (Raise e, entities)
      | Ret creates =>
          match for_each (fun s => create s result) creates entities with
          | (Raise e, entities') => (Raise e, entities')
          | (Ret _, entities') =>
              match listed cmd "invalidates" with
              | Raise e => (Raise e, entities')
              | Ret invalidates => for_each invalidate invalidates entities'
              end
          end
      end
  end.

End State.

(* ===================================================================== *)
(** * Command executor ([runtime/executor.py]) *)
(* ===================================================================== *)

(** ** [shlex.quote] and the two clean-up patterns of [re.sub] *)

Module Shell.
Import PyStr.

(** [\w@%+=:,./-] under [re.ASCII] *)
Definition safe_char (c : ascii) : bool :=
  (in_range 48 57 c || in_range 65 90 c || in_range 97 122 c
   || contains_char c "_@%+=:,./-")%bool.

Definition quote (s : string) : string :=
  match s with
  | EmptyString => "''"
  | _ =>
      if forallb_str safe_char s then s
      else String squote
             (replace (String squote EmptyString)
                (String squote
                   (String dquote (String squote (String dquote (String squote EmptyString)))))
                s
              +:+ String squote EmptyString)
  end.

(** The pieces of the patterns used: one character, a greedy run of a
    class, a greedy run of at least one. *)
Inductive atom : Type :=
| Chr (c : ascii)
| Star (p : ascii -> bool)
| Plus (p : ascii -> bool).

(** The text left after the match the engine finds first at the head of
    [s] (a run takes all it can and gives back one character at a time). *)
Fixpoint match_at (atoms : list atom) : list ascii -> option (list ascii) :=
  match atoms with
  | [] => fun s => Some s
  | Chr c :: atoms' =>
      fun s => match s with
               | x :: s' => if Ascii.eqb c x then match_at atoms' s' else None
               | [] => None
               end
  | Star p :: atoms' =>
      fix run (s : list ascii) : option (list ascii) :=
        match s with
        | x :: s' =>
            if p x then match run s' with
                        | Some rest => Some rest
                        | None => match_at atoms' s
                        end
            else match_at atoms' s
        | [] => match_at atoms' s
        end
  | Plus p :: atoms' =>
      let run :=
        fix run (s : list ascii) : option (list ascii) :=
          match s with
          | x :: s' =>
              if p x then match run s' with
                          | Some rest => Some rest
                          | None => match_at atoms' s
                          end
              else match_at atoms' s
          | [] => match_at atoms' s
          end in
      fun s => match s with
               | x :: s' => if p x then run s' else None
               | [] => None
               end
  end.

(** [re.sub(pattern, "", s)] for a pattern that matches no empty text:
    [skip] characters belong to a match already removed. *)
Fixpoint remove_from (atoms : list atom) (skip : nat) (s : list ascii)
  : list ascii :=
  match s with
  | [] => []
  | c :: s' =>
      match skip with
      | S k => remove_from atoms k s'
      | O =>
          match match_at atoms s with
          | Some rest =>
              remove_from atoms (List.length s' - List.length rest) s'
          | None => c :: remove_from atoms 0 s'
          end
      end
  end.

Definition remove_all (atoms : list atom) (s : string) : string :=
  string_of_list_ascii (remove_from atoms 0 (list_ascii_of_string s)).

Definition is_not (c x : ascii) : bool := negb (Ascii.eqb c x).

(** [\s*\[[^\]]*<[^>]+>[^\]]*\]] *)
Definition optional_block : list atom :=
  [Star isspace; Chr "["%char; Star (is_not "]"%char); Chr "<"%char;
   Plus (is_not ">"%char); Chr ">"%char; Star (is_not "]"%char); Chr "]"%char].

(** [\s*<[^>]+>] *)
Definition placeholder_token : list atom :=
  [Star isspace; Chr "<"%char; Plus (is_not ">"%char); Chr ">"%char].

End Shell.

Module Executor.
Import Py.

Record ExecutionResult : Type := mkExecutionResult
  { success : bool;
    stdout : string;
    stderr : string;
    returncode : Z;
    command : string }.

(** What [subprocess.run(cmd, shell=True, capture_output=True, text=True,
    timeout=timeout)] can come back with. *)
Inductive Outcome : Type :=
| Completed (returncode : Z) (out err : string)
| TimeoutExpired (out : option string)
| Failed (message : string).

(** The external process collaborator: the outcome of a call, given the
    calls made before it. *)
Class Subprocess := subprocess_run :
  list (string * Value) -> string -> Value -> Outcome.

(** The executor's surroundings: the entities of its state manager and
    the calls made to the external process collaborator, latest last. *)
Record World : Type := mkWorld
  { entities : gmap string State.StateEntity;
    calls : list (string * Value) }.

(** [str(e)] for an exception the executor catches. The length of a list
    is an index of the machine, far within the limit of the conversion. *)
Definition exn_str (e : exn) : string :=
  match e with
  | KeyError k => repr_str k
  | TypeError m | AttributeError m | ValueError m | ModelValidationError m
  | Unmodelled m => m
  | InvalidStateError entity _ =>
      "Required state '" +:+ entity +:+ "' is invalid or missing"
  | PathNotFoundError p s =>
      "Path '" +:+ p +:+ "' not found in skill '" +:+ s +:+ "'"
  | ValidationFailedError errors =>
      "Skill definition failed schema validation with "
        +:+ PyStr.digits (Z.of_nat (List.length errors)) +:+ " error(s)"
  end.

Section Build.
Context {FR : FloatRepr}.

(** [name.lstrip("-")] *)
Definition lstrip_dashes (flag_name : Value) : pyres string :=
  match flag_name with
  | VStr s => Ret (PyStr.lstrip_char "-"%char s)
  | _ => Raise (AttributeError
                  ("'" +:+ type_name flag_name
                       +:+ "' object has no attribute 'lstrip'"))
  end.

(** [f"{syntax} {flag_name} {shlex.quote(str(value))}"] *)
Definition with_value (syntax flag_name value : Value) : pyres Value :=
  s ← str syntax;
  n ← str flag_name;
  v ← str value;
  Ret (VStr (s +:+ " " +:+ n +:+ " " +:+ Shell.quote v)).

(** [f"{syntax} {name}"] *)
Definition with_flag (syntax name : Value) : pyres Value :=
  s ← str syntax;
  n ← str name;
  Ret (VStr (s +:+ " " +:+ n)).

(** [shlex.quote(str(v)) for v in vs], consumed in order. *)
Fixpoint quoted (vs : list Value) : pyres (list string) :=
  match vs with
  | [] => Ret []
  | v :: rest =>
      t ← str v;
      ts ← quoted rest;
      Ret (Shell.quote t :: ts)
  end.

(** One turn of the loop over the global flags. *)
Definition global_flag (args : Dict) (syntax flag : Value) : pyres Value :=
  flag_name ← getitem flag "name";
  arg_key ← lstrip_dashes flag_name;
  match dict_get arg_key args with
  | Some value =>
      ty ← getitem flag "type";
      if eq_str ty "bool"
      then if truthy value then with_flag syntax flag_name else Ret syntax
      else with_value syntax flag_name value
  | None => Ret syntax
  end.

(** [flag.get(key)] *)
Definition flag_get (flag : Value) (key : string) : pyres Value :=
  d ← get_attr_get flag;
  Ret (match dict_get key d with Some v => v | None => VNone end).

(** One turn of the loop over the flags of the command. *)
Definition command_flag (args : Dict) (syntax flag : Value) : pyres Value :=
  long ← flag_get flag "long";
  flag_name ← (if truthy long then Ret long else getitem flag "name");
  arg_key ← lstrip_dashes flag_name;
  match dict_get arg_key args with
  | Some value =>
      ty ← getitem flag "type";
      if eq_str ty "bool"
      then if truthy value
           then short ← flag_get flag "short";
                with_flag syntax (py_or short flag_name)
           else Ret syntax
      else with_value syntax flag_name value
  | None => Ret syntax
  end.

(** [syntax.replace(placeholder, value)] *)
Definition replace_in (syntax : Value) (placeholder value : string)
  : pyres Value :=
  match syntax with
  | VStr s => Ret (VStr (PyStr.replace placeholder value s))
  | _ => Raise (AttributeError
                  ("'" +:+ type_name syntax
                       +:+ "' object has no attribute 'replace'"))
  end.

(** [arg_name in args], and [args[arg_name]] when it is. *)
Definition arg_lookup (args : Dict) (arg_name : Value) : pyres (option Value) :=
  match arg_name with
  | VStr s => Ret (dict_get s args)
  | VList _ | VDict _ =>
      Raise (TypeError ("unhashable type: '" +:+ type_name arg_name +:+ "'"))
  | _ => Ret None
  end.

(** One turn of the loop over the positional arguments. A value given is
    written before [syntax.replace] is looked up, the default after it. *)
Definition positional (args : Dict) (syntax arg : Value) : pyres Value :=
  arg_name ← getitem arg "name";
  name ← str arg_name;
  let placeholder := "<" +:+ name +:+ ">" in
  supplied ← arg_lookup args arg_name;
  match supplied with
  | Some value =>
      written ← match value with
                | VList vs => ts ← quoted vs; Ret (PyStr.join " " ts)
                | _ => t ← str value; Ret (Shell.quote t)
                end;
      replace_in syntax placeholder written
  | None =>
      default ← flag_get arg "default";
      match default with
      | VNone => Ret syntax
      | _ =>
          match syntax with
          | VStr _ => t ← str default;
                      replace_in syntax placeholder (Shell.quote t)
          | _ => replace_in syntax placeholder EmptyString
          end
      end
  end.

(** A [for] loop that rebinds [syntax]. *)
Fixpoint loop (body : Value -> Value -> pyres Value) (syntax : Value)
  (xs : list Value) : pyres Value :=
  match xs with
  | [] => Ret syntax
  | x :: rest => syntax' ← body syntax x; loop body syntax' rest
  end.

(** [re.sub(pattern, "", syntax)] *)
Definition cleaned (atoms : list Shell.atom) (syntax : Value) : pyres Value :=
  match syntax with
  | VStr s => Ret (VStr (Shell.remove_all atoms s))
  | _ => Raise (TypeError
                  ("expected string or bytes-like object, got '"
                     +:+ type_name syntax +:+ "'"))
  end.

Definition _build_command (skill : Dict) (cmd_def : Value) (args : Dict)
  : pyres string :=
  syntax ← getitem cmd_def "syntax";
  global_flags ← iter (match dict_get "global_flags" skill with
                       | Some v => v
                       | None => VList []
                       end);
  syntax ← loop (global_flag args) syntax global_flags;
  flags ← State.listed cmd_def "flags";
  syntax ← loop (command_flag args) syntax flags;
  positionals ← State.listed cmd_def "args";
  syntax ← loop (positional args) syntax positionals;
  syntax ← cleaned Shell.optional_block syntax;
  syntax ← cleaned Shell.placeholder_token syntax;
  match syntax with
  | VStr s => Ret (PyStr.strip s)
  | _ => Raise (AttributeError
                  ("'" +:+ type_name syntax
                       +:+ "' object has no attribute 'strip'"))
  end.

End Build.

Section Execute.
Context {FR : FloatRepr} {SP : Subprocess}.

(** The part of [execute] inside [try]: the call, and the effects of a
    call that returns zero. An exception of the interpreter raised while
    the effects are applied ends in the last handler. *)
Definition run (skill : Dict) (command_path cmd_str : string)
  (timeout : Value) (w : World) : pyres ExecutionResult * World :=
  let w1 := mkWorld (entities w) (calls w ++ [(cmd_str, timeout)]) in
  match subprocess_run (calls w) cmd_str timeout with
  | Completed rc out err =>
      let exec_result := mkExecutionResult (Z.eqb rc 0) out err rc cmd_str in
      if Z.eqb rc 0
      then match State.apply_effects skill command_path (VStr out) (entities w1) with
           | (Ret _, ents) => (Ret exec_result, mkWorld ents (calls w1))
           | (Raise (Unmodelled m), ents) =>
               (Raise (Unmodelled m), mkWorld ents (calls w1))
           | (Raise e, ents) =>
               (Ret (mkExecutionResult false EmptyString (exn_str e) (-1) cmd_str),
                mkWorld ents (calls w1))
           end
      else (Ret exec_result, w1)
  | TimeoutExpired out =>
      match str timeout with
      | Ret seconds =>
          (Ret (mkExecutionResult false
                  (match out with Some o => o | None => EmptyString end)
                  ("Command timed out after " +:+ seconds +:+ "s")
                  (-1) cmd_str), w1)
      | Raise e => (Raise e, w1)
      end
  | Failed message =>
      (Ret (mkExecutionResult false EmptyString message (-1) cmd_str), w1)
  end.

(** [CommandExecutor.execute]; [args=None] is [None]. *)
Definition execute (skill : Dict) (command_path : string)
  (args : option Dict) (dry_run : bool) (timeout : Value) (w : World)
  : pyres ExecutionResult * World :=
  let args := match args with Some a => a | None => [] end in
  match State.section_get skill "commands" command_path VNone with
  | Raise e => (Raise e, w)
  | Ret cmd_def =>
      if negb (truthy cmd_def)
      then (Ret (mkExecutionResult false EmptyString
                   ("Unknown command: " +:+ command_path) 1 EmptyString), w)
      else
        match State.check_requires skill (entities w) command_path with
        | Raise e => (Raise e, w)
        | Ret (first :: rest) =>
            (Raise (InvalidStateError first (first :: rest)), w)
        | Ret [] =>
            match _build_command skill cmd_def args with
            | Raise e => (Raise e, w)
            | Ret cmd_str =>
                if dry_run
                then (Ret (mkExecutionResult true
                             ("[DRY RUN] Would execute: " +:+ cmd_str)
                             EmptyString 0 cmd_str), w)
                else run skill command_path cmd_str timeout w
            end
        end
  end.

End Execute.

End Executor.

(* ===================================================================== *)
(** * Document loader ([core/loader.py]) *)
(* ===================================================================== *)

Module Loader.
Import Py.

(** The collaborators of [load_dict]: the schema validator (the messages
    of the errors it finds, none when the document conforms) and the
    constructor of the typed model, [Skill.from_dict]. *)
Class Collaborators (Skill : Type) :=
  { schema_errors : Dict -> list string;
    from_dict : Dict -> pyres Skill }.

(** [SkillLoader()] without an argument: [strict_version=False]. *)
Definition default_strict_version : bool := false.

Section Load.
Context {FR : FloatRepr} {Skill : Type} {C : Collaborators Skill}.

(** [SkillLoader(strict_version).load_dict(skill_dict, source)]: the
    outcome and the warnings written to the log. *)
Definition load_dict (strict_version : bool) (skill_dict : Dict)
  (source : string) : pyres Skill * list string :=
  match schema_errors skill_dict with
  | error :: errors => (Raise (ValidationFailedError (error :: errors)), [])
  | [] =>
      match Version.verify_version skill_dict with
      | Raise e => (Raise e, [])
      | Ret (is_valid, stored, calculated) =>
          if is_valid then (from_dict skill_dict, [])
          else
            match str stored with
            | Raise e => (Raise e, [])
            | Ret written =>
                let msg := "Version mismatch in " +:+ source +:+ ": stored="
                             +:+ written +:+ ", calculated=" +:+ calculated in
                if strict_version then (Raise (ValueError msg), [])
                else (from_dict skill_dict, [msg])
            end
      end
  end.

End Load.

End Loader.

(* ===================================================================== *)
(** * The rest of the query engine, the state manager and the executor *)
(* ===================================================================== *)

(** ** Query strings and the listing of paths ([core/query.py]) *)

Module Paths.
Import Py.

(** [s.split(sep, 1)] for a text that holds [sep]: what stands before the
    first [sep] and what stands after it; [None] when [sep not in s]. *)
Fixpoint split_once (sep : ascii) (s : string) : option (string * string) :=
  match s with
  | EmptyString => None
  | String c s' =>
      if Ascii.eqb c sep then Some (EmptyString, s')
      else match split_once sep s' with
           | Some (before, after) => Some (String c before, after)
           | None => None
           end
  end.

(** The loop over [filter_str.split("&")]: a pair without [=] is passed
    over, a key met again keeps its place and takes the new value. *)
Fixpoint parse_filters (pairs : list string) (filters : list (string * string))
  : list (string * string) :=
  match pairs with
  | [] => filters
  | item :: rest =>
      parse_filters rest
        match split_once "="%char item with
        | Some (key, value) => dict_set key value filters
        | None => filters
        end
  end.

(** [QueryEngine.parse_query_string] *)
Definition parse_query_string (query : string)
  : pyres (string * string * list (string * string)) :=
  match split_once ":"%char query with
  | None =>
      Raise (ValueError
               ("Invalid query format, expected 'skill:path': " +:+ query))
  | Some (skill_name, path_and_filters) =>
      match split_once "?"%char path_and_filters with
      | Some (path, filter_str) =>
          Ret (skill_name, path,
               parse_filters (PyStr.split "&"%char filter_str) [])
      | None => Ret (skill_name, path_and_filters, [])
      end
  end.

(** [f"{prefix}.{key}" if prefix else key] *)
Definition current_path (prefix key : string) : string :=
  match prefix with
  | EmptyString => key
  | _ => prefix +:+ "." +:+ key
  end.

(** [QueryEngine.list_paths]: every key, the paths below a mapping, and
    below a sequence those of its first element when that is a mapping. *)
Fixpoint list_paths (skill_dict : Value) (prefix : string) : list string :=
  match skill_dict with
  | VDict items =>
      (fix each (items : Dict) : list string :=
         match items with
         | [] => []
         | (key, value) :: rest =>
             (current_path prefix key
                :: match value with
                   | VDict _ => list_paths value (current_path prefix key)
                   | VList (first :: _) =>
                       match first with
                       | VDict _ =>
                           list_paths first (current_path prefix key +:+ "[0]")
                       | _ => []
                       end
                   | _ => []
                   end
                ++ each rest)%list
         end) items
  | _ => []
  end.

End Paths.

(** ** The rest of the state manager ([runtime/state_manager.py]) *)

Module Manager.
Import Py State.

(** [StateManager.reset] *)
Definition reset (entities : Entities) : Entities :=
  (fun e => mkStateEntity (name e) VNone false) <$> entities.

(** One entry of [StateManager.get_status]: [valid] and [has_value]. *)
Definition status_of (e : StateEntity) : bool * bool :=
  (valid e, match value e with VNone => false | _ => true end).

(** [StateManager.get_status] *)
Definition get_status (entities : Entities) : gmap string (bool * bool) :=
  status_of <$> entities.

(** The loop of [get_entity_definition]. *)
Fixpoint find_definition (defs : list Value) (entity_name : string)
  : pyres (option Value) :=
  match defs with
  | [] => Ret None
  | entity_def :: rest =>
      n ← getitem entity_def "name";
      if eq_str n entity_name then Ret (Some entity_def)
      else find_definition rest entity_name
  end.

(** [StateManager.get_entity_definition] *)
Definition get_entity_definition (skill : Dict) (entity_name : string)
  : pyres (option Value) :=
  defs ← section_get skill "state" "entities" (VList []);
  xs ← iter defs;
  find_definition xs entity_name.

(** [StateManager.check_invalidation_conditions]: the context is not
    read. *)
Definition check_invalidation_conditions (skill : Dict) (entity_name : string)
  (context : Dict) : pyres bool :=
  entity_def ← get_entity_definition skill entity_name;
  match entity_def with
  | Some _ => Ret false
  | None => Ret false
  end.

End Manager.

(** ** Building a command without running it ([runtime/executor.py]) *)

Module Command.
Import Py.

Section Build.
Context {FR : FloatRepr}.

(** [CommandExecutor.build_command]; [args=None] is [None]. *)
Definition build_command (skill : Dict) (command_path : string)
  (args : option Dict) : pyres string :=
  let args := match args with Some a => a | None => [] end in
  cmd_def ← State.section_get skill "commands" command_path VNone;
  if negb (truthy cmd_def)
  then Raise (ValueError ("Unknown command: " +:+ command_path))
  else Executor._build_command skill cmd_def args.

(** [CommandExecutor.get_command_info] *)
Definition get_command_info (skill : Dict) (command_path : string)
  : pyres Value :=
  State.section_get skill "commands" command_path VNone.

End Build.

End Command.

(** ** The check of internal consistency ([core/loader.py]) *)

Module Consistency.
Import Py State.

(** [v.keys()] *)
Definition keys_of (v : Value) : pyres (list string) :=
  match v with
  | VDict d => Ret (keys d)
  | _ => Raise (AttributeError
                  ("'" +:+ type_name v +:+ "' object has no attribute 'keys'"))
  end.

(** [{x[key] for x in xs}]: a set of names, kept as the list of them. *)
Fixpoint names_of (key : string) (xs : list Value) : pyres (list string) :=
  match xs with
  | [] => Ret []
  | x :: rest =>
      n ← getitem x key;
      s ← as_name n;
      names ← names_of key rest;
      Ret (s :: names)
  end.

(** The loop over [entity.get("created_by", [])], whose body is [pass]. *)
Fixpoint created_by_loop (entities : list Value) : pyres unit :=
  match entities with
  | [] => Ret tt
  | entity :: rest =>
      d ← get_attr_get entity;
      _ ← iter (match dict_get "created_by" d with
                | Some v => v
                | None => VList []
                end);
      created_by_loop rest
  end.

(** [x not in names] for a set of strings. *)
Definition not_in (x : Value) (names : list string) : pyres bool :=
  match x with
  | VStr s => Ret (negb (List.existsb (String.eqb s) names))
  | VList _ | VDict _ =>
      Raise (TypeError ("unhashable type: '" +:+ type_name x +:+ "'"))
  | _ => Ret true
  end.

(** A set of names as a condition. *)
Definition some_names (names : list string) : bool :=
  match names with
  | [] => false
  | _ => true
  end.

Section Check.
Context {FR : FloatRepr}.

(** [f"Command '{cmd_name}' {verb} unknown state entity '{entity}'"] *)
Definition unknown_entity (cmd_name verb : string) (entity : Value)
  : pyres string :=
  written ← str entity;
  Ret ("Command '" +:+ cmd_name +:+ "' " +:+ verb +:+ " unknown state entity '"
         +:+ written +:+ "'").

(** One of the three loops over the entities a command names. *)
Fixpoint references (cmd_name verb : string) (entity_names : list string)
  (entities : list Value) (errors : list string) : pyres (list string) :=
  match entities with
  | [] => Ret errors
  | entity :: rest =>
      unknown ← not_in entity entity_names;
      if (unknown && some_names entity_names)%bool
      then message ← unknown_entity cmd_name verb entity;
           references cmd_name verb entity_names rest (errors ++ [message])%list
      else references cmd_name verb entity_names rest errors
  end.

(** The loop over the commands. *)
Fixpoint commands_loop (items : Dict) (entity_names : list string)
  (errors : list string) : pyres (list string) :=
  match items with
  | [] => Ret errors
  | (cmd_name, cmd) :: rest =>
      requires ← listed cmd "requires";
      errors ← references cmd_name "requires" entity_names requires errors;
      creates ← listed cmd "creates";
      errors ← references cmd_name "creates" entity_names creates errors;
      invalidates ← listed cmd "invalidates";
      errors ← references cmd_name "invalidates" entity_names invalidates errors;
      commands_loop rest entity_names errors
  end.

(** [f"Decision {i} references unknown source '{ref}'"]; [i] counts the
    elements of a list and is within the limit of the conversion. *)
Definition unknown_source (i : nat) (ref : Value) : pyres string :=
  written ← str ref;
  Ret ("Decision " +:+ PyStr.digits (Z.of_nat i)
         +:+ " references unknown source '" +:+ written +:+ "'").

(** The loop over the decisions, counted from [i]. *)
Fixpoint decisions_loop (i : nat) (decisions : list Value)
  (source_ids : list string) (errors : list string) : pyres (list string) :=
  match decisions with
  | [] => Ret errors
  | decision :: rest =>
      d ← get_attr_get decision;
      let ref := match dict_get "ref" d with Some v => v | None => VNone end in
      unknown ← (if (truthy ref && some_names source_ids)%bool
                 then not_in ref source_ids
                 else Ret false);
      if unknown : bool
      then message ← unknown_source i ref;
           decisions_loop (S i) rest source_ids (errors ++ [message])%list
      else decisions_loop (S i) rest source_ids errors
  end.

(** [SkillLoader._check_consistency] *)
Definition _check_consistency (skill_dict : Dict) : pyres (list string) :=
  let commands := match dict_get "commands" skill_dict with
                  | Some v => v
                  | None => VDict []
                  end in
  command_names ← keys_of commands;
  entities ← section_get skill_dict "state" "entities" (VList []);
  entities ← iter entities;
  entity_names ← names_of "name" entities;
  sources ← iter (match dict_get "sources" skill_dict with
                  | Some v => v
                  | None => VList []
                  end);
  source_ids ← names_of "id" sources;
  _ ← created_by_loop entities;
  items ← Version.items_of commands;
  errors ← commands_loop items entity_names [];
  decisions ← iter (match dict_get "decisions" skill_dict with
                    | Some v => v
                    | None => VList []
                    end);
  decisions_loop 0 decisions source_ids errors.

End Check.

End Consistency.

(* ===================================================================== *)
(** * Shapes of documents *)
(* ===================================================================== *)

Module Shape.
Import Py.

Fixpoint distinct (ks : list string) : bool :=
  match ks with
  | [] => true
  | k :: rest => (negb (List.existsb (String.eqb k) rest) && distinct rest)%bool
  end.

(** No mapping of the tree has a key twice: what a Python dict is. *)
Fixpoint well_formed (v : Value) : bool :=
  match v with
  | VList xs => List.forallb well_formed xs
  | VDict kvs =>
      (distinct (keys kvs)
       && List.forallb (fun kv => well_formed (snd kv)) kvs)%bool
  | _ => true
  end.

(** The same content with the items of mappings, at any depth, in another
    order of insertion. *)
#[local] Unset Elimination Schemes.
Inductive reordered : Value -> Value -> Prop :=
| reordered_none : reordered VNone VNone
| reordered_bool b : reordered (VBool b) (VBool b)
| reordered_int z : reordered (VInt z) (VInt z)
| reordered_float f : reordered (VFloat f) (VFloat f)
| reordered_str s : reordered (VStr s) (VStr s)
| reordered_list xs ys :
    Forall2 reordered xs ys -> reordered (VList xs) (VList ys)
| reordered_dict kvs moved kvs' :
    Permutation kvs moved ->
    Forall2 (fun a b => fst a = fst b /\ reordered (snd a) (snd b)) moved kvs' ->
    reordered (VDict kvs) (VDict kvs').
#[local] Set Elimination Schemes.

(** The depth of nesting, for the functions that recurse with fuel. *)
Fixpoint depth (v : Value) : nat :=
  match v with
  | VList xs => S (List.fold_right (fun x n => Nat.max (depth x) n) 0 xs)
  | VDict kvs =>
      S (List.fold_right (fun kv n => Nat.max (depth (snd kv)) n) 0 kvs)
  | _ => 0
  end.

(** Induction over a document: the elements of a sequence and the values
    of a mapping come with the property. *)
Section Induction.
Variable P : Value -> Prop.
Hypothesis HNone : P VNone.
Hypothesis HBool : forall b, P (VBool b).
Hypothesis HInt : forall z, P (VInt z).
Hypothesis HFloat : forall f, P (VFloat f).
Hypothesis HStr : forall s, P (VStr s).
Hypothesis HList : forall xs, Forall P xs -> P (VList xs).
Hypothesis HDict :
  forall kvs, Forall (fun kv => P (snd kv)) kvs -> P (VDict kvs).

Fixpoint Value_ind (v : Value) : P v :=
  match v with
  | VNone => HNone
  | VBool b => HBool b
  | VInt z => HInt z
  | VFloat f => HFloat f
  | VStr s => HStr s
  | VList xs =>
      HList xs
        ((fix go (l : list Value) : Forall P l :=
            match l with
            | [] => List.Forall_nil P
            | x :: l' => @List.Forall_cons _ P x l' (Value_ind x) (go l')
            end) xs)
  | VDict kvs =>
      HDict kvs
        ((fix go (l : Dict) : Forall (fun kv => P (snd kv)) l :=
            match l with
            | [] => List.Forall_nil _
            | kv :: l' =>
                @List.Forall_cons _ (fun kv => P (snd kv)) kv l'
                  (Value_ind (snd kv)) (go l')
            end) kvs)
  end.

End Induction.

End Shape.

(* ===================================================================== *)
(** * Documents in the interpreter's store

    The functions above work on the content of a document. The ones
    below are the same functions as the interpreter runs them: a mapping
    or a sequence is an object at a location of the store, a value refers
    to it, and an assignment to an item changes the object for every
    holder of the reference. This is what the statements about copies
    and about inputs left alone are made of. A new object takes the next
    free location, and it is entered once its items are known (no
    reference to it exists before). *)
(* ===================================================================== *)

Module Store.
Import Py.

(** A value as a variable holds it: a scalar, or a reference. *)
Inductive ref : Type :=
| RNone
| RBool (b : bool)
| RInt (z : Z)
| RFloat (f : float)
| RStr (s : string)
| RObj (l : nat).

Inductive obj : Type :=
| ODict (items : list (string * ref))
| OList (items : list ref).

(** The store: the object at location [l] is [h !! l]. *)
Abbreviation heap := (list obj).

Definition alloc (h : heap) (o : obj) : heap * ref :=
  ((h ++ [o])%list, RObj (List.length h)).

Definition type_name (h : heap) (r : ref) : string :=
  match r with
  | RNone => "NoneType"
  | RBool _ => "bool"
  | RInt _ => "int"
  | RFloat _ => "float"
  | RStr _ => "str"
  | RObj l => match h !! l with
              | Some (OList _) => "list"
              | _ => "dict"
              end
  end.

(** A function of the store over the elements of a list, left to right. *)
Fixpoint thread {A B : Type} (f : heap -> A -> option (heap * B)) (h : heap)
  (l : list A) : option (heap * list B) :=
  match l with
  | [] => Some (h, [])
  | x :: rest =>
      match f h x with
      | Some (h1, y) =>
          match thread f h1 rest with
          | Some (h2, ys) => Some (h2, y :: ys)
          | None => None
          end
      | None => None
      end
  end.

(** The content a reference stands for, read to the depth [fuel];
    [None] when the structure is deeper (or loops). *)
Fixpoint reify (fuel : nat) (h : heap) (r : ref) : option Value :=
  match r with
  | RNone => Some VNone
  | RBool b => Some (VBool b)
  | RInt z => Some (VInt z)
  | RFloat f => Some (VFloat f)
  | RStr s => Some (VStr s)
  | RObj l =>
      match fuel with
      | O => None
      | S n =>
          match h !! l with
          | Some (OList xs) => VList <$> mapM (reify n h) xs
          | Some (ODict items) =>
              VDict <$> mapM (fun kv => pair (fst kv) <$> reify n h (snd kv)) items
          | None => None
          end
      end
  end.

(** [_deep_copy_value]; [fuel] bounds the depth of the recursion. *)
Fixpoint _deep_copy_value (fuel : nat) (h : heap) (value : ref)
  : option (heap * ref) :=
  match value with
  | RObj l =>
      match fuel with
      | O => None
      | S n =>
          match h !! l with
          | Some (ODict items) =>
              match thread (fun h kv =>
                              match _deep_copy_value n h (snd kv) with
                              | Some (h', v') => Some (h', (fst kv, v'))
                              | None => None
                              end) h items with
              | Some (h1, items') => Some (alloc h1 (ODict items'))
              | None => None
              end
          | Some (OList xs) =>
              match thread (_deep_copy_value n) h xs with
              | Some (h1, xs') => Some (alloc h1 (OList xs'))
              | None => None
              end
          | None => None
          end
      end
  | _ => Some (h, value)
  end.

Definition no_attribute (h : heap) (r : ref) (attr : string) : exn :=
  AttributeError ("'" +:+ type_name h r +:+ "' object has no attribute '"
                      +:+ attr +:+ "'").

(** One turn of the loop of [_deep_copy_without_version]: the metadata
    is copied one level deep, every other value all the way down. *)
Definition copy_entry (fuel : nat) (h : heap) (kv : string * ref)
  : option (heap * pyres (string * ref)) :=
  if String.eqb (fst kv) "meta"
  then match snd kv with
       | RObj l =>
           match h !! l with
           | Some (ODict m) =>
               let (h', r) := alloc h (ODict (dict_without "version" m)) in
               Some (h', Ret (fst kv, r))
           | _ => Some (h, Raise (no_attribute h (snd kv) "items"))
           end
       | _ => Some (h, Raise (no_attribute h (snd kv) "items"))
       end
  else match _deep_copy_value fuel h (snd kv) with
       | Some (h', v') => Some (h', Ret (fst kv, v'))
       | None => None
       end.

Fixpoint copy_items (fuel : nat) (h : heap) (items : list (string * ref))
  : option (heap * pyres (list (string * ref))) :=
  match items with
  | [] => Some (h, Ret [])
  | kv :: rest =>
      match copy_entry fuel h kv with
      | Some (h1, Ret kv') =>
          match copy_items fuel h1 rest with
          | Some (h2, Ret rest') => Some (h2, Ret (kv' :: rest'))
          | other => other
          end
      | Some (h1, Raise e) => Some (h1, Raise e)
      | None => None
      end
  end.

Definition _deep_copy_without_version (fuel : nat) (h : heap) (skill_dict : ref)
  : option (heap * pyres ref) :=
  match skill_dict with
  | RObj l =>
      match h !! l with
      | Some (ODict items) =>
          match copy_items fuel h items with
          | Some (h1, Ret items') =>
              let (h2, r) := alloc h1 (ODict items') in Some (h2, Ret r)
          | Some (h1, Raise e) => Some (h1, Raise e)
          | None => None
          end
      | _ => Some (h, Raise (no_attribute h skill_dict "items"))
      end
  | _ => Some (h, Raise (no_attribute h skill_dict "items"))
  end.

Section Hasher.
Context {FR : FloatRepr}.

(** [calculate_version]: the copy is built in the store, serialized and
    hashed. *)
Definition calculate_version (fuel : nat) (h : heap) (skill_dict : ref)
  : option (heap * pyres string) :=
  match _deep_copy_without_version fuel h skill_dict with
  | Some (h1, Ret skill_copy) =>
      match reify fuel h1 skill_copy with
      | Some content =>
          Some (h1, normalized ← Json.dumps content;
                    Ret (Version.first8
                           (Sha256.hexdigest (Sha256.utf8 normalized))))
      | None => None
      end
  | Some (h1, Raise e) => Some (h1, Raise e)
  | None => None
  end.

(** [d.get(key, default)] on the object a reference stands for. *)
Definition get_or (h : heap) (r : ref) (key : string) (default : ref)
  : pyres ref :=
  match r with
  | RObj l =>
      match h !! l with
      | Some (ODict items) =>
          Ret (match dict_get key items with Some v => v | None => default end)
      | _ => Raise (no_attribute h r "get")
      end
  | _ => Raise (no_attribute h r "get")
  end.

(** [verify_version]: the default of the first [get] is a new, empty
    mapping. *)
Definition verify_version (fuel : nat) (h : heap) (skill_dict : ref)
  : option (heap * pyres (bool * ref * string)) :=
  let (h0, empty) := alloc h (ODict []) in
  match (meta ← get_or h0 skill_dict "meta" empty;
         get_or h0 meta "version" (RStr EmptyString)) with
  | Raise e => Some (h0, Raise e)
  | Ret stored =>
      match calculate_version fuel h0 skill_dict with
      | Some (h1, Ret calculated) =>
          Some (h1, Ret (match stored with
                         | RStr s => String.eqb s calculated
                         | _ => false
                         end, stored, calculated))
      | Some (h1, Raise e) => Some (h1, Raise e)
      | None => None
      end
  end.

(** [target[key]] for a string key. *)
Definition getitem (h : heap) (target : ref) (key : string) : pyres ref :=
  match target with
  | RObj l =>
      match h !! l with
      | Some (ODict items) =>
          match dict_get key items with
          | Some v => Ret v
          | None => Raise (KeyError key)
          end
      | _ => Raise (TypeError "list indices must be integers or slices, not str")
      end
  | RStr _ => Raise (TypeError "string indices must be integers, not 'str'")
  | _ => Raise (TypeError ("'" +:+ type_name h target
                               +:+ "' object is not subscriptable"))
  end.

(** [target[key] = v]: the object at the location changes. *)
Definition setitem (h : heap) (target : ref) (key : string) (v : ref)
  : pyres heap :=
  match target with
  | RObj l =>
      match h !! l with
      | Some (ODict items) => Ret (<[l := ODict (dict_set key v items)]> h)
      | _ => Raise (TypeError "list indices must be integers or slices, not str")
      end
  | _ => Raise (TypeError ("'" +:+ type_name h target
                               +:+ "' object does not support item assignment"))
  end.

(** [update_version]: the copy, the fingerprint of the argument, then the
    assignment into the metadata of the copy. *)
Definition update_version (fuel : nat) (h : heap) (skill_dict : ref)
  : option (heap * pyres ref) :=
  match _deep_copy_value fuel h skill_dict with
  | Some (h1, result) =>
      match calculate_version fuel h1 skill_dict with
      | Some (h2, Ret calculated) =>
          match (meta ← getitem h2 result "meta";
                 setitem h2 meta "version" (RStr calculated)) with
          | Ret h3 => Some (h3, Ret result)
          | Raise e => Some (h2, Raise e)
          end
      | Some (h2, Raise e) => Some (h2, Raise e)
      | None => None
      end
  | None => None
  end.

End Hasher.

(** ** The query engine in the store *)

Record QueryResult : Type := mkQueryResult
  { skill : ref;
    path : string;
    found : bool;
    value : ref;
    filters : list (string * string) }.

(** [isinstance(x, dict) and (x.get("name") == segment or
    x.get("id") == segment)] *)
Definition named (h : heap) (segment : string) (x : ref) : bool :=
  match x with
  | RObj l =>
      match h !! l with
      | Some (ODict d) =>
          (match dict_get "name" d with
           | Some (RStr s) => String.eqb s segment
           | _ => false
           end
           || match dict_get "id" d with
              | Some (RStr s) => String.eqb s segment
              | _ => false
              end)%bool
      | _ => false
      end
  | _ => false
  end.

(** One turn of the traversal loop. The comprehension over a sequence
    builds its list of matches whatever their number. *)
Definition step (h : heap) (current : ref) (segment : string)
  : heap * option ref :=
  match current with
  | RObj l =>
      match h !! l with
      | Some (ODict d) => (h, dict_get segment d)
      | Some (OList xs) =>
          let matches := List.filter (named h segment) xs in
          let (h1, all) := alloc h (OList matches) in
          match matches with
          | [m] => (h1, Some m)
          | _ :: _ :: _ => (h1, Some all)
          | [] =>
              match PyStr.to_int segment with
              | Some idx =>
                  if ((0 <=? idx)%Z && (idx <? Z.of_nat (List.length xs))%Z)%bool
                  then (h1, List.nth_error xs (Z.to_nat idx))
                  else (h1, None)
              | None => (h1, None)
              end
          end
      | None => (h, None)
      end
  | _ => (h, None)
  end.

Fixpoint traverse (h : heap) (current : ref) (segments : list string)
  : heap * option ref :=
  match segments with
  | [] => (h, Some current)
  | segment :: rest =>
      match step h current segment with
      | (h1, Some next) => traverse h1 next rest
      | (h1, None) => (h1, None)
      end
  end.

(** One comprehension: it ends at the first element [keep] raises on;
    [None] when [keep] runs out of fuel. *)
Fixpoint keep_all (keep : ref -> option (pyres bool)) (l : list ref)
  : option (pyres (list ref)) :=
  match l with
  | [] => Some (Ret [])
  | x :: rest =>
      match keep x with
      | Some (Ret b) =>
          match keep_all keep rest with
          | Some (Ret kept) => Some (Ret (if b then x :: kept else kept))
          | Some (Raise e) => Some (Raise e)
          | None => None
          end
      | Some (Raise e) => Some (Raise e)
      | None => None
      end
  end.

Section Engine.
Context {FR : FloatRepr}.

(** The text [_matches_pattern] compares: [fuel] bounds the depth [str]
    reads to. *)
Definition text_of (fuel : nat) (h : heap) (value : ref)
  : option (pyres string) :=
  match value with
  | RStr s => Some (Ret s)
  | RNone => Some (Ret EmptyString)
  | _ => str <$> reify fuel h value
  end.

Definition keeps (fuel : nat) (h : heap) (key pattern : string) (item : ref)
  : option (pyres bool) :=
  match item with
  | RObj l =>
      match h !! l with
      | Some (ODict d) =>
          match text_of fuel h (match dict_get key d with
                                | Some v => v
                                | None => RStr EmptyString
                                end) with
          | Some (Ret text) =>
              Some (Ret (Fnmatch.fnmatch (PyStr.lower text)
                           (PyStr.lower pattern)))
          | Some (Raise e) => Some (Raise e)
          | None => None
          end
      | _ => Some (Ret false)
      end
  | _ => Some (Ret false)
  end.

(** [_apply_filters]: every filter builds a new list from the last.
    [result] is a list whenever a filter is met (the argument is one, and
    so is what a comprehension builds). A comprehension that raises
    leaves the store as it found it. *)
Fixpoint _apply_filters (fuel : nat) (h : heap) (result : ref)
  (filters : list (string * string)) : option (heap * pyres ref) :=
  match filters with
  | [] => Some (h, Ret result)
  | kp :: rest =>
      match result with
      | RObj l =>
          match h !! l with
          | Some (OList items) =>
              match keep_all (keeps fuel h (fst kp) (snd kp)) items with
              | Some (Ret kept) =>
                  let (h1, result') := alloc h (OList kept) in
                  _apply_filters fuel h1 result' rest
              | Some (Raise e) => Some (h, Raise e)
              | None => None
              end
          | _ => None
          end
      | _ => None
      end
  end.

(** [QueryEngine.query]; [None] when [fuel] is too small for a value a
    filter has to print. *)
Definition query (fuel : nat) (h : heap) (skill_dict : ref) (path : string)
  (filters : option (list (string * string))) (skill_name : string)
  : option (heap * pyres QueryResult) :=
  let (h0, name) :=
    if String.eqb skill_name EmptyString
    then let (h0, empty) := alloc h (ODict []) in
         (h0, meta ← get_or h0 skill_dict "meta" empty;
              get_or h0 meta "name" (RStr "unknown"))
    else (h, Ret (RStr skill_name)) in
  match name with
  | Raise e => Some (h0, Raise e)
  | Ret name =>
      match traverse h0 skill_dict (Query.segments_of path) with
      | (h1, None) =>
          Some (h1, Ret (mkQueryResult name path false RNone
                           (Query.filters_or_empty filters)))
      | (h1, Some current) =>
          let unfiltered :=
            Some (h1, Ret (mkQueryResult name path true current
                             (Query.filters_or_empty filters))) in
          if Query.filters_given filters
          then match current with
               | RObj l =>
                   match h1 !! l with
                   | Some (OList _) =>
                       match _apply_filters fuel h1 current
                               (Query.filters_or_empty filters) with
                       | Some (h2, Ret kept) =>
                           Some (h2, Ret (mkQueryResult name path true kept
                                            (Query.filters_or_empty filters)))
                       | Some (h2, Raise e) => Some (h2, Raise e)
                       | None => None
                       end
                   | _ => unfiltered
                   end
               | _ => unfiltered
               end
          else unfiltered
      end
  end.

(** [QueryEngine.query_or_raise]: the query, then a look at [found]. *)
Definition query_or_raise (fuel : nat) (h : heap) (skill_dict : ref)
  (path : string) (filters : option (list (string * string)))
  (skill_name : string) : option (heap * pyres ref) :=
  match query fuel h skill_dict path filters skill_name with
  | Some (h', Ret result) =>
      Some (h', if found result then Ret (value result)
                else Raise (PathNotFoundError path
                              (if String.eqb skill_name EmptyString
                               then "unknown" else skill_name)))
  | Some (h', Raise e) => Some (h', Raise e)
  | None => None
  end.

End Engine.

(** ** What a reference stands for

    [rep h r v F]: in the store [h] the reference [r] stands for the
    content [v], and reading it visits the locations [F], each as often
    as it is met. No location is met twice exactly when the structure
    shares nothing. *)
Inductive rep (h : heap) : ref -> Value -> list nat -> Prop :=
| rep_none : rep h RNone VNone []
| rep_bool b : rep h (RBool b) (VBool b) []
| rep_int z : rep h (RInt z) (VInt z) []
| rep_float f : rep h (RFloat f) (VFloat f) []
| rep_str s : rep h (RStr s) (VStr s) []
| rep_list l xs vs F :
    h !! l = Some (OList xs) -> rep_all h xs vs F ->
    rep h (RObj l) (VList vs) (l :: F)
| rep_dict l items kvs F :
    h !! l = Some (ODict items) -> rep_items h items kvs F ->
    rep h (RObj l) (VDict kvs) (l :: F)
with rep_all (h : heap) : list ref -> list Value -> list nat -> Prop :=
| rep_all_nil : rep_all h [] [] []
| rep_all_cons r v rs vs F1 F2 :
    rep h r v F1 -> rep_all h rs vs F2 ->
    rep_all h (r :: rs) (v :: vs) (F1 ++ F2)%list
with rep_items (h : heap) : list (string * ref) -> Dict -> list nat -> Prop :=
| rep_items_nil : rep_items h [] [] []
| rep_items_cons k r v rs kvs F1 F2 :
    rep h r v F1 -> rep_items h rs kvs F2 ->
    rep_items h ((k, r) :: rs) ((k, v) :: kvs) (F1 ++ F2)%list.

Scheme rep_mut := Induction for rep Sort Prop
  with rep_all_mut := Induction for rep_all Sort Prop
  with rep_items_mut := Induction for rep_items Sort Prop.
Combined Scheme rep_mutind from rep_mut, rep_all_mut, rep_items_mut.

(** Every object of [h] is the same in [h']. *)
Definition preserved (h h' : heap) : Prop :=
  forall l o, h !! l = Some o -> h' !! l = Some o.

End Store.

(* ===================================================================== *)
(** * Notions used in the statements *)
(* ===================================================================== *)

Module Notions.
Import Py Shape.

(** ** Fingerprints *)

(** What [_deep_copy_without_version] makes of one entry. *)
Definition strip_entry (kv : string * Value) : string * Value :=
  (fst kv,
   if String.eqb (fst kv) "meta"
   then match snd kv with
        | VDict m => VDict (dict_without "version" m)
        | v => v
        end
   else snd kv).

Definition no_items (v : Value) : exn :=
  AttributeError ("'" +:+ type_name v +:+ "' object has no attribute 'items'").

(** ** Queries *)

(** An element a segment names: a mapping whose [name] or [id] is the
    segment, character for character. *)
Definition Named (segment : string) (x : Value) : Prop :=
  exists d, x = VDict d
            /\ (dict_get "name" d = Some (VStr segment)
                \/ dict_get "id" d = Some (VStr segment)).

(** The name a result carries: the argument, or the one in the metadata. *)
Definition result_name (d : Dict) (skill_name : string) : pyres Value :=
  if String.eqb skill_name EmptyString
  then Version.meta_get d "name" (VStr "unknown")
  else Ret (VStr skill_name).

(** A star before [f]: [f] on some tail of the text. *)
Fixpoint star (f : list ascii -> bool) (s : list ascii) : bool :=
  (f s || match s with [] => false | _ :: s' => star f s' end)%bool.

Fixpoint no_bracket (pat : list ascii) : bool :=
  match pat with
  | [] => true
  | c :: pat' => (negb (Ascii.eqb c "["%char) && no_bracket pat')%bool
  end.

(** One character of a pattern that is no star, before [f]. *)
Definition one_char (c : ascii) (f : list ascii -> bool) (s : list ascii) : bool :=
  match s with
  | [] => false
  | x :: s' => ((Ascii.eqb c "?"%char || Ascii.eqb c x) && f s')%bool
  end.

(** The text of one filter and of all of them. *)
Definition filter_pair (kv : string * string) : string :=
  fst kv +:+ "=" +:+ snd kv.

Definition filter_string (filters : list (string * string)) : string :=
  PyStr.join "&" (List.map filter_pair filters).

(** What can be written as a filter: no [=] and no [&] in the key, no [&]
    in the pattern. *)
Definition writable (kv : string * string) : bool :=
  (negb (PyStr.contains_char "=" (fst kv))
   && negb (PyStr.contains_char "&" (fst kv))
   && negb (PyStr.contains_char "&" (snd kv)))%bool.

(** A key that is one segment of a path. *)
Definition segment_key (k : string) : bool :=
  (negb (PyStr.contains_char "." k) && negb (String.eqb k EmptyString))%bool.

(** Documents that [list_paths] goes through by keys alone: every key is
    one segment, and no sequence begins with a mapping. *)
Fixpoint keyed (v : Value) : bool :=
  match v with
  | VDict items =>
      List.forallb (fun kv => (segment_key (fst kv) && keyed (snd kv))%bool) items
  | VList (VDict _ :: _) => false
  | _ => true
  end.

(** The path that the segments [post] give below [prefix]. *)
Fixpoint extend (prefix : string) (post : list string) : string :=
  match post with
  | [] => prefix
  | k :: post' => extend (Paths.current_path prefix k) post'
  end.

Section Repr.
Context {FR : FloatRepr}.

(** The fingerprint of a content that needs no copy. *)
Definition fingerprint_of (d : Dict) : string :=
  Version.first8 (Sha256.hexdigest (Sha256.utf8 (Json.encode (VDict d)))).

(** The fingerprint of a content, when its integers can be written. *)
Definition hashed (d : Dict) : pyres string :=
  if prints (VDict d) then Ret (fingerprint_of d) else Raise int_limit.

(** The text [_matches_pattern] compares for a value that can be
    written. *)
Definition compared (v : Value) : string :=
  match v with
  | VStr s => s
  | VNone => EmptyString
  | _ => text v
  end.

(** The value a filter on [key] looks at in an element. *)
Definition looked_at (key : string) (item : Value) : Value :=
  match item with
  | VDict d => match dict_get key d with Some v => v | None => VStr EmptyString end
  | _ => VStr EmptyString
  end.

(** What [keeps] answers for an element whose value can be written. *)
Definition holds (key pattern : string) (item : Value) : bool :=
  match item with
  | VDict _ =>
      Fnmatch.fnmatch (PyStr.lower (compared (looked_at key item)))
        (PyStr.lower pattern)
  | _ => false
  end.

(** An element all the filters keep. *)
Definition passes (filters : list (string * string)) (item : Value) : bool :=
  List.forallb (fun kp => holds (fst kp) (snd kp) item) filters.

(** Every value a filter looks at in the elements can be written. *)
Definition legible (filters : list (string * string)) (items : list Value)
  : bool :=
  List.forallb
    (fun item => List.forallb (fun kp => prints (looked_at (fst kp) item)) filters)
    items.

End Repr.

(** ** Entities *)

(** The names of a [requires] list that are not valid, in order. *)
Definition missing_names (ents : gmap string State.StateEntity)
  (names : list string) : list string :=
  List.filter (fun r => negb (State.is_valid ents r)) names.

Definition among (n : string) (names : list string) : bool :=
  List.existsb (String.eqb n) names.

(** The three lists of a command that name entities. *)
Definition verbs : list string := ["requires"; "creates"; "invalidates"].

Definition declared (n : string) (names : list string) : bool :=
  List.existsb (String.eqb n) names.

(** ** The store *)

Definition depths (vs : list Value) : nat :=
  List.fold_right (fun x n => Nat.max (depth x) n) 0 vs.

Definition depths_items (kvs : Dict) : nat :=
  List.fold_right (fun kv n => Nat.max (depth (snd kv)) n) 0 kvs.

(** What a call that only builds new objects leaves: the store it began
    with as a prefix, and new locations [F], none twice. *)
Definition built (h0 h' : Store.heap) (F : list nat) : Prop :=
  h0 `prefix_of` h'
  /\ List.NoDup F
  /\ forall l, List.In l F -> List.length h0 <= l < List.length h'.

(** The copy of one item of a mapping. *)
Definition copy_item (n : nat) (h : Store.heap) (kv : string * Store.ref)
  : option (Store.heap * (string * Store.ref)) :=
  match Store._deep_copy_value n h (snd kv) with
  | Some (h', v') => Some (h', (fst kv, v'))
  | None => None
  end.

(** A reference, if any, stands for the content, if any, and the content
    is no deeper than [bound]. *)
Definition stands (h : Store.heap) (o : option Store.ref) (ov : option Value)
  (bound : nat) : Prop :=
  match o, ov with
  | Some r, Some v => (exists F, Store.rep h r v F) /\ depth v <= bound
  | None, None => True
  | _, _ => False
  end.

(** The answer in the store stands for the answer on the content. *)
Definition answers (h : Store.heap) (res : pyres Store.QueryResult)
  (res' : pyres Query.QueryResult) : Prop :=
  match res, res' with
  | Ret q, Ret q' =>
      Store.path q = Query.path q' /\ Store.found q = Query.found q'
      /\ Store.filters q = Query.filters q'
      /\ (exists G, Store.rep h (Store.skill q) (Query.skill q') G)
      /\ (exists G, Store.rep h (Store.value q) (Query.value q') G)
  | Raise e, Raise e' => e = e'
  | _, _ => False
  end.

End Notions.

(* ===================================================================== *)
(** * Sample documents and collaborators for the examples *)
(* ===================================================================== *)

Module Samples.

(** An external process that always returns zero and prints [out]. *)
Definition process : Executor.Subprocess :=
  fun _ _ _ => Executor.Completed 0 "out" EmptyString.

(** A loader whose schema accepts everything and whose typed model is
    the document itself. *)
Definition collaborators : Loader.Collaborators Dict :=
  {| Loader.schema_errors := fun _ => [];
     Loader.from_dict := fun d => Ret d |}.

Definition doc : Dict :=
  [("meta", VDict [("name", VStr "test"); ("version", VStr "x");
                   ("type", VStr "knowledge")]);
   ("triggers", VDict [("keywords", VList [VStr "a"; VStr "b"])])].

(** A document with an integer of 4301 digits. *)
Definition long_integer : Dict :=
  [("meta", VDict [("name", VStr "t")]); ("n", VInt (10 ^ 4300))].

Definition doc_moved : Dict :=
  [("triggers", VDict [("keywords", VList [VStr "a"; VStr "b"])]);
   ("meta", VDict [("type", VStr "knowledge"); ("name", VStr "test");
                   ("version", VStr "x")])].

Definition decisions : Dict :=
  [("decisions",
    VList [VDict [("when", VStr "condition A"); ("then", VStr "x")];
           VDict [("when", VStr "condition B"); ("then", VStr "y")]])].

(** [doc] in a store: the metadata, the keywords, the triggers and the
    document itself, at the locations 0 to 3. *)
Definition doc_store : Store.heap :=
  [Store.ODict [("name", Store.RStr "test"); ("version", Store.RStr "x");
                ("type", Store.RStr "knowledge")];
   Store.OList [Store.RStr "a"; Store.RStr "b"];
   Store.ODict [("keywords", Store.RObj 1)];
   Store.ODict [("meta", Store.RObj 0); ("triggers", Store.RObj 2)]].

(** [long_integer] in a store: the metadata and the document, at the
    locations 0 and 1. *)
Definition long_integer_store : Store.heap :=
  [Store.ODict [("name", Store.RStr "t")];
   Store.ODict [("meta", Store.RObj 0); ("n", Store.RInt (10 ^ 4300))]].

(** [decisions] in a store: the two decisions, their list and the
    document, at the locations 0 to 3. *)
Definition decisions_store : Store.heap :=
  [Store.ODict [("when", Store.RStr "condition A"); ("then", Store.RStr "x")];
   Store.ODict [("when", Store.RStr "condition B"); ("then", Store.RStr "y")];
   Store.OList [Store.RObj 0; Store.RObj 1];
   Store.ODict [("decisions", Store.RObj 2)]].

(** The command-line skill of the test suite, cut to what the executor
    reads. *)
Definition cli : Dict :=
  [("meta", VDict [("name", VStr "cli-skill")]);
   ("state",
    VDict [("entities",
            VList [VDict [("name", VStr "session")];
                   VDict [("name", VStr "data")]])]);
   ("global_flags",
    VList [VDict [("name", VStr "--verbose"); ("short", VStr "-v");
                  ("type", VStr "bool")];
           VDict [("name", VStr "--config"); ("type", VStr "string")]]);
   ("commands",
    VDict [("init",
            VDict [("syntax", VStr "tool init [--config <path>]");
                   ("creates", VList [VStr "session"])]);
           ("fetch",
            VDict [("syntax", VStr "tool fetch <url>");
                   ("args", VList [VDict [("name", VStr "url");
                                          ("type", VStr "string");
                                          ("required", VBool true)]]);
                   ("requires", VList [VStr "session"]);
                   ("creates", VList [VStr "data"])]);
           ("close",
            VDict [("syntax", VStr "tool close");
                   ("invalidates", VList [VStr "session"; VStr "data"])]);
           ("empty", VDict [])])].

(** The entities of [StateManager(cli)]: both declared, none valid. *)
Definition cli_entities : gmap string State.StateEntity :=
  <["data" := State.mkStateEntity "data" VNone false]>
    (<["session" := State.mkStateEntity "session" VNone false]> ∅).

Definition cli_world : Executor.World := Executor.mkWorld cli_entities [].

End Samples.

(* ===================================================================== *)
(** * Properties *)
(* ===================================================================== *)

#[local] Arguments String.eqb : simpl never.


Lemma bind_Ret {A B : Type} (a : A) (f : A -> pyres B) : (Ret a ≫= f) = f a.
Proof. reflexivity. Qed.

Lemma bind_Raise {A B : Type} (e : exn) (f : A -> pyres B) :
  (Raise e ≫= f) = Raise e.
Proof. reflexivity. Qed.

Module VersionFacts.
Import Py Shape Version.
Import Notions.

(** ** The order of keys *)

Lemma leb_iff (a b : string) :
  String.leb a b = true <-> a = b \/ String_as_OT.lt a b.
Proof.
  unfold String.leb. destruct (String.compare a b) eqn:E.
  - apply String_as_OT.cmp_eq in E. tauto.
  - apply String_as_OT.cmp_lt in E. tauto.
  - split; [discriminate |]. intros [-> | H].
    + assert (String.compare b b = Eq) by (apply String_as_OT.cmp_eq; auto).
      congruence.
    + apply String_as_OT.cmp_lt in H. unfold String_as_OT.cmp in H. congruence.
Qed.

Lemma leb_trans (a b c : string) :
  String.leb a b = true -> String.leb b c = true -> String.leb a c = true.
Proof.
  rewrite !leb_iff. intros [-> | H1] [-> | H2]; auto.
  right. eapply String_as_OT.lt_trans; eauto.
Qed.

Lemma leb_flip (a b : string) : String.leb a b = false -> String.leb b a = true.
Proof. destruct (String.leb_total a b); congruence. Qed.

Ltac order_step :=
  progress (simpl;
            repeat match goal with
                   | H : String.leb _ _ = _ |- _ => rewrite H
                   end).

Lemma insert_item_comm {A : Type} (x y : string * A) (l : list (string * A)) :
  fst x <> fst y ->
  Json.insert_item x (Json.insert_item y l) = Json.insert_item y (Json.insert_item x l).
Proof.
  intros Hxy.
  assert (Hyx : String.leb (fst x) (fst y) = true -> String.leb (fst y) (fst x) = false).
  { intros H. destruct (String.leb (fst y) (fst x)) eqn:E; auto.
    exfalso. apply Hxy. apply String.leb_antisym; auto. }
  induction l as [| z l IH]; simpl.
  - destruct (String.leb (fst x) (fst y)) eqn:E1.
    + rewrite (Hyx eq_refl). reflexivity.
    + rewrite (leb_flip _ _ E1). reflexivity.
  - destruct (String.leb (fst y) (fst z)) eqn:Eyz;
      destruct (String.leb (fst x) (fst z)) eqn:Exz.
    + destruct (String.leb (fst x) (fst y)) eqn:E1.
      * pose proof (Hyx eq_refl) as E2. repeat order_step. reflexivity.
      * pose proof (leb_flip _ _ E1) as E2. repeat order_step. reflexivity.
    + assert (E1 : String.leb (fst x) (fst y) = false).
      { destruct (String.leb (fst x) (fst y)) eqn:E; auto.
        rewrite (leb_trans _ _ _ E Eyz) in Exz. discriminate. }
      repeat order_step. reflexivity.
    + assert (E1 : String.leb (fst y) (fst x) = false).
      { destruct (String.leb (fst y) (fst x)) eqn:E; auto.
        rewrite (leb_trans _ _ _ E Exz) in Eyz. discriminate. }
      repeat order_step. reflexivity.
    + repeat order_step. rewrite IH. reflexivity.
Qed.

Lemma sort_items_perm {A : Type} (l l' : list (string * A)) :
  Permutation l l' -> List.NoDup (List.map fst l) ->
  Json.sort_items l = Json.sort_items l'.
Proof.
  induction 1 as [| x l l' HP IH | x y l | l l' l'' HP1 IH1 HP2 IH2];
    intros ND; simpl in *.
  - reflexivity.
  - inversion ND; subst. rewrite IH; auto.
  - apply insert_item_comm. inversion ND; subst. simpl in *. intros E. apply H1. left. auto.
  - rewrite IH1; auto. apply IH2.
    eapply Permutation_NoDup; [| exact ND]. apply Permutation_map. exact HP1.
Qed.


(** ** Copies *)

Lemma deep_copy_value_id (v : Value) : _deep_copy_value v = v.
Proof.
  induction v as [| | | | | xs IH | kvs IH] using Shape.Value_ind;
    simpl; try reflexivity; f_equal.
  - induction IH as [| x l Hx _ IHl]; simpl; [reflexivity |].
    rewrite Hx, IHl. reflexivity.
  - induction IH as [| [k x] l Hx _ IHl]; simpl; [reflexivity |].
    simpl in Hx. rewrite Hx, IHl. reflexivity.
Qed.

Lemma deep_copy_items_id (d : Dict) :
  List.map (fun kv => (fst kv, _deep_copy_value (snd kv))) d = d.
Proof.
  induction d as [| [k x] d IH]; simpl; [reflexivity |].
  rewrite deep_copy_value_id, IH. reflexivity.
Qed.

(** ** Mappings *)

Lemma dict_get_set_eq {A : Type} (k : string) (v : A) (d : list (string * A)) :
  dict_get k (dict_set k v d) = Some v.
Proof.
  induction d as [| [k' v'] d IH]; simpl.
  - rewrite String.eqb_refl. reflexivity.
  - destruct (String.eqb k k') eqn:E; simpl; rewrite E; auto.
Qed.

Lemma dict_without_set {A : Type} (k : string) (v : A) (d : list (string * A)) :
  dict_without k (dict_set k v d) = dict_without k d.
Proof.
  unfold dict_without.
  induction d as [| [k' v'] d IH]; simpl.
  - rewrite String.eqb_refl. reflexivity.
  - destruct (String.eqb k k') eqn:E; simpl.
    + rewrite String.eqb_sym, E. reflexivity.
    + rewrite String.eqb_sym, E. simpl. rewrite IH. reflexivity.
Qed.

Lemma dict_without_idem {A : Type} (k : string) (d : list (string * A)) :
  dict_without k (dict_without k d) = dict_without k d.
Proof.
  unfold dict_without. induction d as [| [k' v'] d IH]; simpl; [reflexivity |].
  destruct (String.eqb k' k) eqn:E; simpl; rewrite ?E; simpl; rewrite IH; reflexivity.
Qed.

Lemma keys_dict_set_present {A : Type} (k : string) (v w : A) (d : list (string * A)) :
  dict_get k d = Some w -> keys (dict_set k v d) = keys d.
Proof.
  unfold keys. induction d as [| [k' v'] d IH]; simpl; [discriminate |].
  destruct (String.eqb k k') eqn:E; simpl; intros H; [reflexivity |].
  rewrite IH; auto.
Qed.

Lemma distinct_NoDup (ks : list string) :
  distinct ks = true <-> List.NoDup ks.
Proof.
  induction ks as [| k ks IH]; simpl.
  - split; [constructor | reflexivity].
  - rewrite andb_true_iff, negb_true_iff, IH. split.
    + intros [H1 H2]. constructor; auto. intros Hin.
      assert (List.existsb (String.eqb k) ks = true).
      { apply List.existsb_exists. exists k. split; auto. apply String.eqb_refl. }
      congruence.
    + intros H. inversion H as [| ? ? Hn Hd]; subst. split; auto.
      destruct (List.existsb (String.eqb k) ks) eqn:E; auto.
      apply List.existsb_exists in E. destruct E as [k' [Hin Hk]].
      apply String.eqb_eq in Hk. subst. contradiction.
Qed.

Lemma dict_get_In {A : Type} (k : string) (v : A) (d : list (string * A)) :
  dict_get k d = Some v -> List.In (k, v) d.
Proof.
  induction d as [| [k' v'] d IH]; simpl; [discriminate |].
  destruct (String.eqb k k') eqn:E.
  - apply String.eqb_eq in E. subst. intros [= ->]. left. reflexivity.
  - intros H. right. auto.
Qed.

Lemma dict_get_None {A : Type} (k : string) (d : list (string * A)) :
  dict_get k d = None <-> ~ List.In k (keys d).
Proof.
  unfold keys. induction d as [| [k' v'] d IH]; simpl.
  - tauto.
  - destruct (String.eqb k k') eqn:E.
    + apply String.eqb_eq in E. subst. split; [discriminate | tauto].
    + apply String.eqb_neq in E. rewrite IH. split.
      * intros H [H1 | H1]; [congruence | tauto].
      * tauto.
Qed.

Lemma In_dict_get {A : Type} (k : string) (v : A) (d : list (string * A)) :
  List.NoDup (keys d) -> List.In (k, v) d -> dict_get k d = Some v.
Proof.
  unfold keys. induction d as [| [k' v'] d IH]; simpl; [tauto |].
  intros ND [H | H].
  - inversion H; subst. rewrite String.eqb_refl. reflexivity.
  - inversion ND as [| ? ? Hn Hd]; subst.
    destruct (String.eqb k k') eqn:E.
    + apply String.eqb_eq in E. subst. exfalso. apply Hn.
      apply List.in_map_iff. exists (k', v). auto.
    + auto.
Qed.

Lemma dict_get_perm {A : Type} (k : string) (d d' : list (string * A)) :
  List.NoDup (keys d) -> Permutation d d' -> dict_get k d' = dict_get k d.
Proof.
  intros ND HP.
  assert (ND' : List.NoDup (keys d')).
  { eapply Permutation_NoDup; [| exact ND]. apply Permutation_map. exact HP. }
  destruct (dict_get k d) as [v |] eqn:E.
  - apply In_dict_get; auto. eapply Permutation_in; [exact HP |].
    apply dict_get_In. exact E.
  - apply dict_get_None. intros Hin. apply dict_get_None in E. apply E.
    eapply Permutation_in; [| exact Hin]. apply Permutation_sym.
    apply Permutation_map. exact HP.
Qed.


(** ** Serialization is blind to the order of insertion *)

Lemma well_formed_dict (kvs : Dict) :
  well_formed (VDict kvs) = true ->
  List.NoDup (keys kvs) /\ Forall (fun kv => well_formed (snd kv) = true) kvs.
Proof.
  simpl. rewrite andb_true_iff, distinct_NoDup, List.forallb_forall, List.Forall_forall.
  tauto.
Qed.

Lemma well_formed_list (xs : list Value) :
  well_formed (VList xs) = true -> Forall (fun x => well_formed x = true) xs.
Proof. simpl. rewrite List.forallb_forall, List.Forall_forall. tauto. Qed.

Section Order.
Context {FR : FloatRepr}.

Lemma encode_elements (xs ys : list Value) :
  Forall2 reordered xs ys ->
  Forall (fun x => well_formed x = true ->
                   forall v', reordered x v' -> Json.encode x = Json.encode v') xs ->
  Forall (fun x => well_formed x = true) xs ->
  List.map Json.encode xs = List.map Json.encode ys.
Proof.
  induction 1 as [| x y l l' Hxy _ IHl]; intros IH Hwf; simpl; [reflexivity |].
  inversion IH; subst. inversion Hwf; subst. f_equal; auto.
Qed.

Lemma encode_items (moved kvs' : Dict) :
  Forall2 (fun a b => fst a = fst b /\ reordered (snd a) (snd b)) moved kvs' ->
  Forall (fun kv => well_formed (snd kv) = true ->
                    forall v', reordered (snd kv) v' ->
                               Json.encode (snd kv) = Json.encode v') moved ->
  Forall (fun kv => well_formed (snd kv) = true) moved ->
  List.map (fun kv => (fst kv, Json.encode (snd kv))) moved
  = List.map (fun kv => (fst kv, Json.encode (snd kv))) kvs'.
Proof.
  induction 1 as [| a b l l' [Hk Hab] _ IHl]; intros IH Hwf; simpl; [reflexivity |].
  inversion IH; subst. inversion Hwf; subst.
  f_equal; [| auto]. rewrite Hk. f_equal. auto.
Qed.

Lemma encode_reordered (v : Value) :
  well_formed v = true ->
  forall v', reordered v v' -> Json.encode v = Json.encode v'.
Proof.
  induction v as [| | | | | xs IH | kvs IH] using Shape.Value_ind;
    intros Hwf v' Hr; inversion Hr; subst; try reflexivity.
  - apply well_formed_list in Hwf.
    simpl. rewrite (encode_elements xs ys); auto.
  - apply well_formed_dict in Hwf. destruct Hwf as [ND Hwf].
    simpl. rewrite <- (encode_items moved kvs'); auto.
    + rewrite (sort_items_perm _ (List.map (fun kv => (fst kv, Json.encode (snd kv))) moved)).
      * reflexivity.
      * apply Permutation_map. assumption.
      * rewrite List.map_map. simpl. exact ND.
    + eapply Permutation_Forall; eauto.
    + eapply Permutation_Forall; eauto.
Qed.

End Order.

(** ** What can be written *)

Lemma forallb_perm' {A : Type} (f : A -> bool) (l l' : list A) :
  Permutation l l' -> List.forallb f l = List.forallb f l'.
Proof.
  induction 1; simpl; try congruence.
  rewrite !andb_assoc, (andb_comm (f y) (f x)). reflexivity.
Qed.

Lemma prints_reordered (v : Value) :
  forall v', reordered v v' -> prints v = prints v'.
Proof.
  induction v as [| | | | | xs IH | kvs IH] using Shape.Value_ind;
    intros v' Hr; inversion Hr as [| | | | | ? ys HF | ? moved kvs' HP HF];
    subst; try reflexivity.
  - simpl. clear Hr. induction HF as [| x y l l' Hxy _ IHl]; simpl; [reflexivity |].
    inversion IH; subst. f_equal; auto.
  - simpl. rewrite (forallb_perm' _ kvs moved HP).
    assert (IH' : Forall (fun kv => forall v', reordered (snd kv) v' ->
                                               prints (snd kv) = prints v') moved).
    { eapply Permutation_Forall; eauto. }
    clear Hr HP IH. induction HF as [| a b l l' [Hk Hab] _ IHl]; simpl; [reflexivity |].
    inversion IH'; subst. f_equal; auto.
Qed.

Lemma dumps_char {FR : FloatRepr} (v : Value) :
  Json.dumps v = if prints v then Ret (Json.encode v) else Raise int_limit.
Proof. reflexivity. Qed.

Lemma str_char {FR : FloatRepr} (v : Value) :
  str v = if prints v then Ret (text v) else Raise int_limit.
Proof. destruct v; reflexivity. Qed.

(** ** What [_deep_copy_without_version] gives *)

Lemma copy_items_char (d : Dict) :
  List.NoDup (keys d) ->
  copy_items d =
    match dict_get "meta" d with
    | Some (VDict _) | None => Ret (List.map strip_entry d)
    | Some v => Raise (no_items v)
    end.
Proof.
  unfold keys. induction d as [| [k v] d IH]; simpl; intros ND; [reflexivity |].
  inversion ND as [| ? ? Hn Hd]; subst. specialize (IH Hd).
  unfold copy_entry, strip_entry. simpl.
  destruct (String.eqb k "meta") eqn:E.
  - apply String.eqb_eq in E. subst. rewrite String.eqb_refl.
    assert (Hnone : dict_get "meta" d = None) by (apply dict_get_None; exact Hn).
    rewrite Hnone in IH. rewrite IH.
    destruct v; reflexivity.
  - rewrite String.eqb_sym in E. rewrite E.
    rewrite deep_copy_value_id, bind_Ret, IH.
    destruct (dict_get "meta" d) as [[] |]; reflexivity.
Qed.

Lemma keys_strip (d : Dict) : keys (List.map strip_entry d) = keys d.
Proof. unfold keys. rewrite List.map_map. reflexivity. Qed.

Lemma reordered_keys (moved d' : Dict) :
  Forall2 (fun a b => fst a = fst b /\ reordered (snd a) (snd b)) moved d' ->
  keys d' = keys moved.
Proof.
  unfold keys. induction 1 as [| a b l l' [Hk _] _ IH]; simpl; congruence.
Qed.

Lemma reordered_get (k : string) (moved d' : Dict) :
  Forall2 (fun a b => fst a = fst b /\ reordered (snd a) (snd b)) moved d' ->
  match dict_get k moved, dict_get k d' with
  | Some v, Some v' => reordered v v'
  | None, None => True
  | _, _ => False
  end.
Proof.
  induction 1 as [| [ka a] [kb b] l l' [Hk Hab] _ IH]; simpl in *; [exact I |].
  subst. destruct (String.eqb k kb); auto.
Qed.

Lemma filter_perm {A : Type} (p : A -> bool) (l l' : list A) :
  Permutation l l' -> Permutation (List.filter p l) (List.filter p l').
Proof.
  induction 1 as [| x l l' _ IH | x y l | l l' l'' _ IH1 _ IH2]; simpl.
  - constructor.
  - destruct (p x); [constructor |]; exact IH.
  - destruct (p x), (p y); try constructor; apply Permutation_refl.
  - eapply Permutation_trans; eauto.
Qed.

Lemma without_reordered (k : string) (m m' : Dict) :
  reordered (VDict m) (VDict m') ->
  reordered (VDict (dict_without k m)) (VDict (dict_without k m')).
Proof.
  intros Hr. inversion Hr as [| | | | | | ? moved ? HP HF]; subst.
  apply reordered_dict with (moved := dict_without k moved).
  - apply filter_perm. exact HP.
  - unfold dict_without.
    clear HP Hr. induction HF as [| a b l l' [Hk Hab] _ IH]; simpl; [constructor |].
    rewrite Hk. destruct (negb (String.eqb (fst b) k)); [constructor |]; auto.
Qed.

Lemma without_well_formed (k : string) (m : Dict) :
  well_formed (VDict m) = true -> well_formed (VDict (dict_without k m)) = true.
Proof.
  intros H. apply well_formed_dict in H. destruct H as [ND HF].
  simpl. apply andb_true_iff. split.
  - apply distinct_NoDup. unfold keys, dict_without in *.
    clear HF. induction m as [| [k' v] m IH]; simpl in *; [constructor |].
    inversion ND as [| ? ? Hn Hd]; subst.
    destruct (negb (String.eqb k' k)); simpl; auto.
    constructor; auto. intros Hin. apply Hn.
    apply List.in_map_iff in Hin. destruct Hin as [x [Hx Hin]].
    apply List.filter_In in Hin. apply List.in_map_iff. exists x. tauto.
  - apply List.forallb_forall. intros x Hin.
    unfold dict_without in Hin. apply List.filter_In in Hin.
    rewrite List.Forall_forall in HF. apply HF. tauto.
Qed.

Lemma strip_reordered (d d' : Dict) :
  reordered (VDict d) (VDict d') ->
  reordered (VDict (List.map strip_entry d)) (VDict (List.map strip_entry d')).
Proof.
  intros Hr. inversion Hr as [| | | | | | ? moved ? HP HF]; subst.
  apply reordered_dict with (moved := List.map strip_entry moved).
  - apply Permutation_map. exact HP.
  - clear HP Hr. induction HF as [| [ka a] [kb b] l l' [Hk Hab] _ IH];
      simpl in *; constructor; auto.
    subst. unfold strip_entry. simpl. split; [reflexivity |].
    destruct (String.eqb kb "meta"); [| exact Hab].
    inversion Hab; subst; try constructor; auto.
    apply (without_reordered "version"). exact Hab.
Qed.

Lemma strip_well_formed (d : Dict) :
  well_formed (VDict d) = true ->
  well_formed (VDict (List.map strip_entry d)) = true.
Proof.
  intros H. apply well_formed_dict in H. destruct H as [ND HF].
  simpl. apply andb_true_iff. split.
  - apply distinct_NoDup. rewrite keys_strip. exact ND.
  - apply List.forallb_forall. intros x Hin.
    apply List.in_map_iff in Hin. destruct Hin as [[k v] [<- Hin]].
    rewrite List.Forall_forall in HF. specialize (HF _ Hin). simpl in HF.
    unfold strip_entry. simpl. destruct (String.eqb k "meta"); auto.
    destruct v; auto. apply (without_well_formed "version"). exact HF.
Qed.


Lemma strip_set_meta (d : Dict) (m m' : Dict) :
  dict_get "meta" d = Some (VDict m) ->
  dict_without "version" m' = dict_without "version" m ->
  List.map strip_entry (dict_set "meta" (VDict m') d) = List.map strip_entry d.
Proof.
  intros Hget Hm. induction d as [| [k v] d IH]; simpl in *; [discriminate |].
  destruct (String.eqb "meta" k) eqn:E; simpl.
  - apply String.eqb_eq in E. subst. inversion Hget; subst.
    unfold strip_entry. simpl. rewrite ?String.eqb_refl, Hm. reflexivity.
  - rewrite IH; auto.
Qed.

Lemma strip_is_without (d m : Dict) :
  List.NoDup (keys d) ->
  dict_get "meta" d = Some (VDict m) ->
  List.map strip_entry d = without_meta_version d.
Proof.
  unfold without_meta_version. intros ND Hget. rewrite Hget. revert ND Hget.
  unfold keys. induction d as [| [k v] d IH]; simpl; [discriminate |].
  intros ND Hget. inversion ND as [| ? ? Hn Hd]; subst.
  unfold strip_entry at 1. simpl.
  destruct (String.eqb "meta" k) eqn:E.
  - apply String.eqb_eq in E. subst. inversion Hget; subst.
    rewrite ?String.eqb_refl. f_equal.
    clear - Hn. induction d as [| [k v] d IH]; simpl in *; [reflexivity |].
    unfold strip_entry at 1. simpl.
    destruct (String.eqb k "meta") eqn:E.
    + apply String.eqb_eq in E. subst. tauto.
    + rewrite IH; tauto.
  - rewrite String.eqb_sym, E. rewrite IH; auto.
Qed.

(** ** The digits of a fingerprint *)

Lemma hex_digit_lower (n : N) : PyStr.is_lower_hex (PyStr.hex_digit n) = true.
Proof.
  unfold PyStr.hex_digit.
  destruct (N.to_nat n) as [| k]; [reflexivity |].
  do 15 (destruct k as [| k]; [reflexivity |]).
  reflexivity.
Qed.

Lemma first8_prefix (l : list ascii) (rest : string) :
  List.length l = 8 ->
  first8 (string_of_list_ascii l +:+ rest) = string_of_list_ascii l.
Proof.
  intros H.
  do 8 (destruct l as [| ? l]; [discriminate H |]).
  destruct l; [| discriminate H].
  destruct rest; reflexivity.
Qed.

Lemma string_of_map_shape (g : N -> ascii) (p : ascii -> bool) (l : list N) :
  (forall n, p (g n) = true) ->
  String.length (string_of_list_ascii (List.map g l)) = List.length l
  /\ PyStr.forallb_str p (string_of_list_ascii (List.map g l)) = true.
Proof.
  intros Hp. induction l as [| x l [IH1 IH2]]; simpl; [auto |].
  rewrite IH1, IH2, Hp. auto.
Qed.

Lemma first8_hexdigest (msg : list N) :
  String.length (first8 (Sha256.hexdigest msg)) = 8
  /\ PyStr.forallb_str PyStr.is_lower_hex (first8 (Sha256.hexdigest msg)) = true.
Proof.
  unfold Sha256.hexdigest, Sha256.hex8.
  generalize (Sha256.digest msg). intros r.
  rewrite first8_prefix by (rewrite List.length_map; reflexivity).
  apply (string_of_map_shape
           (fun i => PyStr.hex_digit (N.land (N.shiftr (Sha256.ra r) (4 * i)) 15))
           PyStr.is_lower_hex).
  intros n. apply hex_digit_lower.
Qed.

Section Fingerprint.
Context {FR : FloatRepr}.

Lemma strip_no_meta (d : Dict) :
  dict_get "meta" d = None -> List.map strip_entry d = d.
Proof.
  induction d as [| [k v] d IH]; simpl; [reflexivity |].
  unfold strip_entry at 1. simpl.
  destruct (String.eqb "meta" k) eqn:E; [discriminate |].
  rewrite String.eqb_sym, E. intros H. rewrite (IH H). reflexivity.
Qed.

Lemma strip_without (d : Dict) :
  List.NoDup (keys d) -> meta_ok d = true ->
  List.map strip_entry d = without_meta_version d.
Proof.
  intros ND Hm. unfold meta_ok in Hm. unfold without_meta_version.
  destruct (dict_get "meta" d) as [[| | | | | | m] |] eqn:E; try discriminate.
  - rewrite (strip_is_without d m ND E). unfold without_meta_version.
    rewrite E. reflexivity.
  - apply strip_no_meta. exact E.
Qed.

Lemma hashed_char (d : Dict) :
  (normalized ← Json.dumps (VDict d);
   Ret (first8 (Sha256.hexdigest (Sha256.utf8 normalized))))
  = hashed d.
Proof. unfold hashed, Json.dumps. destruct (prints (VDict d)); reflexivity. Qed.

Lemma hashed_shape (d : Dict) (c : string) :
  hashed d = Ret c ->
  c = fingerprint_of d /\ prints (VDict d) = true
  /\ String.length c = 8 /\ PyStr.forallb_str PyStr.is_lower_hex c = true.
Proof.
  unfold hashed. destruct (prints (VDict d)); [| discriminate].
  intros [= <-]. split; [reflexivity | split; [reflexivity |]].
  apply first8_hexdigest.
Qed.

Lemma calculate_char (d : Dict) :
  List.NoDup (keys d) ->
  calculate_version d =
    match dict_get "meta" d with
    | Some (VDict _) | None => hashed (List.map strip_entry d)
    | Some v => Raise (no_items v)
    end.
Proof.
  intros ND. unfold calculate_version, _deep_copy_without_version.
  rewrite (copy_items_char d ND).
  destruct (dict_get "meta" d) as [[] |]; try reflexivity;
    rewrite bind_Ret; apply hashed_char.
Qed.

Lemma hashed_reordered (d d' : Dict) :
  well_formed (VDict d) = true ->
  reordered (VDict d) (VDict d') ->
  hashed d' = hashed d.
Proof.
  intros Hwf Hr. unfold hashed.
  rewrite <- (prints_reordered (VDict d) (VDict d') Hr).
  destruct (prints (VDict d)); [| reflexivity].
  unfold fingerprint_of. do 4 f_equal. symmetry.
  apply encode_reordered; assumption.
Qed.

Lemma calculate_reordered (d d' : Dict) :
  well_formed (VDict d) = true ->
  reordered (VDict d) (VDict d') ->
  calculate_version d' = calculate_version d.
Proof.
  intros Hwf Hr.
  pose proof (well_formed_dict _ Hwf) as [ND _].
  inversion Hr as [| | | | | | ? moved ? HP HF]; subst.
  assert (ND' : List.NoDup (keys d')).
  { rewrite (reordered_keys moved d' HF).
    eapply Permutation_NoDup; [| exact ND]. apply Permutation_map. exact HP. }
  rewrite (calculate_char d ND), (calculate_char d' ND').
  pose proof (reordered_get "meta" moved d' HF) as Hget.
  rewrite (dict_get_perm "meta" d moved ND HP) in Hget.
  assert (E : hashed (List.map strip_entry d') = hashed (List.map strip_entry d)).
  { apply hashed_reordered.
    - apply strip_well_formed. exact Hwf.
    - apply strip_reordered. exact Hr. }
  destruct (dict_get "meta" d) as [v |], (dict_get "meta" d') as [v' |];
    try contradiction; [| rewrite E; reflexivity].
  inversion Hget; subst; try reflexivity. rewrite E. reflexivity.
Qed.

Lemma calculate_set_meta (d m m' : Dict) :
  List.NoDup (keys d) ->
  dict_get "meta" d = Some (VDict m) ->
  dict_without "version" m' = dict_without "version" m ->
  calculate_version (dict_set "meta" (VDict m') d)
  = hashed (without_meta_version d).
Proof.
  intros ND Hget Hm.
  rewrite calculate_char.
  - rewrite dict_get_set_eq, (strip_set_meta d m m'), (strip_is_without d m); auto.
  - rewrite (keys_dict_set_present _ _ (VDict m)); auto.
Qed.

Lemma calculate_meta (d m : Dict) :
  List.NoDup (keys d) ->
  dict_get "meta" d = Some (VDict m) ->
  calculate_version d = hashed (without_meta_version d).
Proof.
  intros ND Hget. rewrite calculate_char, Hget, (strip_is_without d m); auto.
Qed.

Lemma calculate_ok (d : Dict) :
  List.NoDup (keys d) -> meta_ok d = true ->
  calculate_version d = hashed (without_meta_version d).
Proof.
  intros ND Hm. rewrite (calculate_char d ND), (strip_without d ND Hm).
  unfold meta_ok in Hm.
  destruct (dict_get "meta" d) as [[] |]; try discriminate; reflexivity.
Qed.

Lemma set_meta_version_ok (d m : Dict) (v : Value) :
  dict_get "meta" d = Some (VDict m) ->
  set_meta_version d v = Ret (dict_set "meta" (VDict (dict_set "version" v m)) d).
Proof. intros Hget. unfold set_meta_version. simpl. rewrite Hget. reflexivity. Qed.

(** The value-level content of the round trip. *)
Lemma update_verify (d m : Dict) (c : string) :
  well_formed (VDict d) = true ->
  dict_get "meta" d = Some (VDict m) ->
  calculate_version d = Ret c ->
  let d' := dict_set "meta" (VDict (dict_set "version" (VStr c) m)) d in
  update_version d = Ret d'
  /\ calculate_version d' = Ret c
  /\ verify_version d' = Ret (true, VStr c, c).
Proof.
  intros Hwf Hget Hc d'.
  pose proof (well_formed_dict _ Hwf) as [ND _].
  assert (Hc' : calculate_version d' = Ret c).
  { unfold d'. rewrite (calculate_set_meta d m); auto.
    - rewrite <- (calculate_meta d m ND Hget). exact Hc.
    - apply dict_without_set. }
  split; [| split; [exact Hc' |]].
  - unfold update_version. rewrite deep_copy_items_id, Hc, bind_Ret.
    apply set_meta_version_ok. exact Hget.
  - assert (Hm : dict_get "meta" d'
                 = Some (VDict (dict_set "version" (VStr c) m)))
      by apply dict_get_set_eq.
    unfold verify_version, meta_get. rewrite Hm.
    unfold get_attr_get. rewrite bind_Ret, dict_get_set_eq, bind_Ret.
    rewrite Hc', bind_Ret. unfold eq_str. rewrite String.eqb_refl. reflexivity.
Qed.

(** [update_version] returns only after the fingerprint is computed. *)
Lemma update_returns (d d' : Dict) :
  update_version d = Ret d' -> exists c, calculate_version d = Ret c.
Proof.
  unfold update_version. destruct (calculate_version d) as [c | e];
    [eauto | discriminate].
Qed.


(** C1. The fingerprint does not see the stored fingerprint. For a
    document with a metadata mapping, [calculate_version] does the same
    whether [meta.version] is set to one string or another, left as it
    is, or taken out: what it does is serialize and hash the content
    without that field. It returns eight hexadecimal digits when every
    integer of that content can be written, and otherwise raises the
    [ValueError] of the serializer, in all four cases alike. *)
Theorem fingerprint_excludes_version (d m : Dict) (v1 v2 : string) :
  well_formed (VDict d) = true ->
  dict_get "meta" d = Some (VDict m) ->
  exists d1 d2,
    set_meta_version d (VStr v1) = Ret d1
    /\ set_meta_version d (VStr v2) = Ret d2
    /\ calculate_version d1 = calculate_version d2
    /\ calculate_version d1 = calculate_version d
    /\ calculate_version d1 = calculate_version (without_meta_version d)
    /\ calculate_version d1
       = (normalized ← Json.dumps (VDict (without_meta_version d));
          Ret (first8 (Sha256.hexdigest (Sha256.utf8 normalized))))
    /\ (prints (VDict (without_meta_version d)) = true ->
        exists h,
          calculate_version d1 = Ret h
          /\ h = first8 (Sha256.hexdigest (Sha256.utf8
                          (Json.encode (VDict (without_meta_version d)))))
          /\ String.length h = 8)
    /\ (prints (VDict (without_meta_version d)) = false ->
        calculate_version d1 = Raise int_limit).
Proof.
  intros Hwf Hget.
  pose proof (well_formed_dict _ Hwf) as [ND _].
  exists (dict_set "meta" (VDict (dict_set "version" (VStr v1) m)) d),
         (dict_set "meta" (VDict (dict_set "version" (VStr v2) m)) d).
  assert (H1 : calculate_version
                 (dict_set "meta" (VDict (dict_set "version" (VStr v1) m)) d)
               = hashed (without_meta_version d)).
  { apply (calculate_set_meta d m); auto. apply dict_without_set. }
  assert (H2 : calculate_version
                 (dict_set "meta" (VDict (dict_set "version" (VStr v2) m)) d)
               = hashed (without_meta_version d)).
  { apply (calculate_set_meta d m); auto. apply dict_without_set. }
  rewrite H1, H2, (calculate_meta d m ND Hget), hashed_char.
  split; [apply set_meta_version_ok; exact Hget |].
  split; [apply set_meta_version_ok; exact Hget |].
  split; [reflexivity |]. split; [reflexivity |]. split; [| split; [reflexivity |]].
  - unfold without_meta_version at 2. rewrite Hget. symmetry.
    apply (calculate_set_meta d m); auto. apply dict_without_idem.
  - unfold hashed. split; intros ->; [| reflexivity].
    eexists. split; [reflexivity | split; [reflexivity |]].
    apply first8_hexdigest.
Qed.

(** C7, as the code has it. A document that differs from another only
    in the order in which the keys of its mappings were inserted, at any
    depth, is treated like it. When every integer of the content, the
    stored fingerprint aside, can be written, both have the same
    fingerprint of eight lowercase hexadecimal digits; when one cannot,
    [calculate_version] raises [ValueError] on both. *)
Theorem fingerprint_order_independent (d d' : Dict) :
  well_formed (VDict d) = true ->
  meta_ok d = true ->
  reordered (VDict d) (VDict d') ->
  calculate_version d' = calculate_version d
  /\ (prints (VDict (without_meta_version d)) = true ->
      exists h,
        calculate_version d = Ret h
        /\ calculate_version d' = Ret h
        /\ h = first8 (Sha256.hexdigest (Sha256.utf8
                        (Json.encode (VDict (without_meta_version d)))))
        /\ String.length h = 8
        /\ PyStr.forallb_str PyStr.is_lower_hex h = true)
  /\ (prints (VDict (without_meta_version d)) = false ->
      calculate_version d = Raise int_limit
      /\ calculate_version d' = Raise int_limit).
Proof.
  intros Hwf Hmeta Hr.
  pose proof (well_formed_dict _ Hwf) as [ND _].
  rewrite (calculate_reordered d d' Hwf Hr), (calculate_ok d ND Hmeta).
  split; [reflexivity |]. unfold hashed.
  split; intros ->; [| split; reflexivity].
  eexists. split; [reflexivity | split; [reflexivity | split; [reflexivity |]]].
  apply first8_hexdigest.
Qed.

End Fingerprint.

End VersionFacts.

Lemma sample_doc_reordered :
  Shape.reordered (VDict Samples.doc) (VDict Samples.doc_moved).
Proof.
  apply Shape.reordered_dict with
    (moved := [("triggers", VDict [("keywords", VList [VStr "a"; VStr "b"])]);
               ("meta", VDict [("name", VStr "test"); ("version", VStr "x");
                               ("type", VStr "knowledge")])]).
  - apply perm_swap.
  - repeat constructor.
    + apply Shape.reordered_dict with (moved := [("keywords", VList [VStr "a"; VStr "b"])]).
      * apply Permutation_refl.
      * repeat constructor.
    + apply Shape.reordered_dict with
        (moved := [("type", VStr "knowledge"); ("name", VStr "test");
                   ("version", VStr "x")]).
      * apply Permutation_sym. apply perm_trans with
          (l' := [("name", VStr "test"); ("type", VStr "knowledge"); ("version", VStr "x")]).
        -- apply perm_swap.
        -- apply perm_skip. apply perm_swap.
      * repeat constructor.
Defined.

Lemma fingerprint_excludes_version_witness :
  exists d1 d2,
    Version.set_meta_version Samples.doc (VStr "aaaaaaaa") = Ret d1
    /\ Version.set_meta_version Samples.doc (VStr "bbbbbbbb") = Ret d2
    /\ Version.calculate_version (FR := sample_repr) d1
       = Version.calculate_version (FR := sample_repr) d2
    /\ Version.calculate_version (FR := sample_repr) d1 = Ret "879bd259".
Proof.
  destruct (VersionFacts.fingerprint_excludes_version (FR := sample_repr) Samples.doc
              [("name", VStr "test"); ("version", VStr "x"); ("type", VStr "knowledge")]
              "aaaaaaaa" "bbbbbbbb" eq_refl eq_refl)
    as (d1 & d2 & H1 & H2 & H12 & _ & _ & _ & Hret & _).
  exists d1, d2. split; [exact H1 | split; [exact H2 | split; [exact H12 |]]].
  destruct (Hret eq_refl) as (h & Hh & -> & _). exact Hh.
Defined.

Lemma fingerprint_order_independent_witness :
  Version.calculate_version (FR := sample_repr) Samples.doc_moved
  = Version.calculate_version (FR := sample_repr) Samples.doc
  /\ exists h,
       Version.calculate_version (FR := sample_repr) Samples.doc = Ret h
       /\ Version.calculate_version (FR := sample_repr) Samples.doc_moved = Ret h
       /\ String.length h = 8
       /\ PyStr.forallb_str PyStr.is_lower_hex h = true.
Proof.
  destruct (VersionFacts.fingerprint_order_independent (FR := sample_repr)
              Samples.doc Samples.doc_moved eq_refl eq_refl sample_doc_reordered)
    as (Heq & Hret & _).
  split; [exact Heq |].
  destruct (Hret eq_refl) as (h & H1 & H2 & _ & H3 & H4).
  exists h. split; [exact H1 | split; [exact H2 | split; [exact H3 | exact H4]]].
Defined.

(** The claim as the specification words it fails on a document with an
    integer of 4301 digits: no fingerprint comes back. *)
Lemma fingerprint_stops_at_long_integers :
  Shape.well_formed (VDict Samples.long_integer) = true
  /\ Version.meta_ok Samples.long_integer = true
  /\ Version.calculate_version (FR := sample_repr) Samples.long_integer
     = Raise Py.int_limit
  /\ ~ (exists h,
          Version.calculate_version (FR := sample_repr) Samples.long_integer
          = Ret h).
Proof.
  assert (E : Version.calculate_version (FR := sample_repr) Samples.long_integer
              = Raise Py.int_limit) by (vm_compute; reflexivity).
  split; [reflexivity | split; [reflexivity | split; [exact E |]]].
  intros [h H]. rewrite E in H. discriminate H.
Qed.


(* ===================================================================== *)
(** * Facts about the query engine *)
(* ===================================================================== *)


Module QueryFacts.
Import Py Query.
Import Notions.

Lemma eq_str_iff (v : Value) (s : string) : eq_str v s = true <-> v = VStr s.
Proof.
  destruct v; simpl; try (split; [discriminate | intros H; discriminate H]).
  rewrite String.eqb_eq. split; [intros -> | intros [= ->]]; reflexivity.
Qed.

Lemma named_iff (segment : string) (x : Value) :
  named segment x = true <-> Named segment x.
Proof.
  unfold Named. destruct x as [| | | | | | d]; simpl;
    try (split; [discriminate | intros [d' [H _]]; discriminate H]).
  rewrite orb_true_iff. split.
  - intros [H | H]; exists d; split; auto.
    + left. destruct (dict_get "name" d); [| discriminate].
      apply eq_str_iff in H. subst. reflexivity.
    + right. destruct (dict_get "id" d); [| discriminate].
      apply eq_str_iff in H. subst. reflexivity.
  - intros [d' [[= <-] [H | H]]]; rewrite H; [left | right];
      apply eq_str_iff; reflexivity.
Qed.

Lemma filter_none {A : Type} (p : A -> bool) (l : list A) :
  (forall x, List.In x l -> p x = false) -> List.filter p l = [].
Proof.
  induction l as [| a l IH]; simpl; intros H; [reflexivity |].
  rewrite (H a) by auto. apply IH. auto.
Qed.

Lemma filter_one {A : Type} (p : A -> bool) (l1 l2 : list A) (x : A) :
  (forall y, List.In y l1 -> p y = false) -> p x = true ->
  (forall y, List.In y l2 -> p y = false) ->
  List.filter p (l1 ++ x :: l2) = [x].
Proof.
  intros H1 Hx H2. rewrite List.filter_app. simpl.
  rewrite (filter_none p l1 H1), Hx, (filter_none p l2 H2). reflexivity.
Qed.

Lemma filter_two {A : Type} (p : A -> bool) (l1 l2 l3 : list A) (x y : A) :
  p x = true -> p y = true ->
  exists a b rest, List.filter p (l1 ++ x :: l2 ++ y :: l3) = a :: b :: rest.
Proof.
  intros Hx Hy. rewrite List.filter_app. simpl. rewrite Hx.
  rewrite List.filter_app. simpl. rewrite Hy.
  destruct (List.filter p l1) as [| a [| b r]]; simpl.
  - destruct (List.filter p l2) as [| b r]; simpl; eauto.
  - destruct (List.filter p l2) as [| b r]; simpl; eauto.
  - eauto.
Qed.

Lemma traverse_app (v : Value) (pre post : list string) :
  traverse v (pre ++ post)
  = match traverse v pre with
    | Some v' => traverse v' post
    | None => None
    end.
Proof.
  revert v. induction pre as [| s pre IH]; intros v; simpl; [reflexivity |].
  destruct (step v s); auto.
Qed.


Lemma not_named (segment : string) (l : list Value) :
  (forall y, List.In y l -> ~ Named segment y) ->
  forall y, List.In y l -> named segment y = false.
Proof.
  intros H y Hy. destruct (named segment y) eqn:E; [| reflexivity].
  apply named_iff in E. exfalso. exact (H y Hy E).
Qed.

Section Sequence.
Context {FR : FloatRepr}.

Lemma query_not_found (d : Dict) (path : string)
  (filters : option (list (string * string))) (skill_name : string) :
  traverse (VDict d) (segments_of path) = None ->
  query d path filters skill_name
  = (n ← result_name d skill_name;
     Ret (mkQueryResult n path false VNone (filters_or_empty filters))).
Proof. intros H. unfold query, result_name. rewrite H. reflexivity. Qed.

Lemma query_found (d : Dict) (path : string) (skill_name : string) (v : Value) :
  traverse (VDict d) (segments_of path) = Some v ->
  query d path None skill_name
  = (n ← result_name d skill_name;
     Ret (mkQueryResult n path true v [])).
Proof.
  intros H. unfold query, result_name. rewrite H.
  destruct v; reflexivity.
Qed.

Lemma traverse_one (v : Value) (segment : string) :
  traverse v [segment] = step v segment.
Proof. simpl. destruct (step v segment); reflexivity. Qed.

Lemma traverse_cons (v : Value) (segment : string) (rest : list string) :
  traverse v (segment :: rest)
  = match step v segment with
    | Some next => traverse next rest
    | None => None
    end.
Proof. reflexivity. Qed.

(** C2. A segment met at a sequence. With exactly one element named by
    it, the traversal arrives at that element and goes on from there;
    with several, it arrives at the list of all of them, in their order;
    with none, the segment is read as an index: it arrives at the element
    of that index when there is one, and a segment that is no integer, or
    an index outside the sequence, ends the traversal, and the query, as
    not found. A query whose path ends at such a segment reports the
    element found, as its value. *)
Theorem sequence_segment_lookup (xs : list Value) (segment : string)
  (rest : list string) :
  (forall l1 x l2,
      xs = (l1 ++ x :: l2)%list -> Named segment x ->
      (forall y, List.In y l1 -> ~ Named segment y) ->
      (forall y, List.In y l2 -> ~ Named segment y) ->
      step (VList xs) segment = Some x
      /\ traverse (VList xs) [segment] = Some x
      /\ traverse (VList xs) (segment :: rest) = traverse x rest)
  /\ (forall l1 x l2 y l3,
         xs = (l1 ++ x :: l2 ++ y :: l3)%list ->
         Named segment x -> Named segment y ->
         exists matches,
           step (VList xs) segment = Some (VList matches)
           /\ traverse (VList xs) [segment] = Some (VList matches)
           /\ traverse (VList xs) (segment :: rest) = traverse (VList matches) rest
           /\ matches = List.filter (named segment) xs
           /\ sublist matches xs
           /\ 2 <= List.length matches
           /\ forall z, List.In z matches <-> List.In z xs /\ Named segment z)
  /\ ((forall y, List.In y xs -> ~ Named segment y) ->
        (PyStr.to_int segment = None ->
         step (VList xs) segment = None
         /\ traverse (VList xs) (segment :: rest) = None)
        /\ (forall idx, PyStr.to_int segment = Some idx ->
                        (idx < 0 \/ Z.of_nat (List.length xs) <= idx)%Z ->
                        step (VList xs) segment = None
                        /\ traverse (VList xs) (segment :: rest) = None)
        /\ (forall idx, PyStr.to_int segment = Some idx ->
                        (0 <= idx < Z.of_nat (List.length xs))%Z ->
                        exists x,
                          List.nth_error xs (Z.to_nat idx) = Some x
                          /\ step (VList xs) segment = Some x
                          /\ traverse (VList xs) [segment] = Some x
                          /\ traverse (VList xs) (segment :: rest)
                             = traverse x rest))
  /\ (forall d path skill_name pre,
         segments_of path = (pre ++ [segment])%list ->
         traverse (VDict d) pre = Some (VList xs) ->
         forall x,
           step (VList xs) segment = Some x ->
           query d path None skill_name
           = (n ← result_name d skill_name;
              Ret (mkQueryResult n path true x [])))
  /\ (forall d path filters skill_name pre,
         segments_of path = (pre ++ segment :: rest)%list ->
         traverse (VDict d) pre = Some (VList xs) ->
         step (VList xs) segment = None ->
         query d path filters skill_name
         = (n ← result_name d skill_name;
            Ret (mkQueryResult n path false VNone (filters_or_empty filters)))).
Proof.
  assert (Hnone : (forall y, List.In y xs -> ~ Named segment y) ->
                  List.filter (named segment) xs = []).
  { intros H. apply filter_none. apply not_named. exact H. }
  split; [| split; [| split; [| split]]].
  - intros l1 x l2 -> Hx H1 H2.
    assert (Hs : step (VList (l1 ++ x :: l2)) segment = Some x).
    { simpl. rewrite (filter_one (named segment) l1 l2 x).
      + reflexivity.
      + apply not_named. exact H1.
      + apply named_iff. exact Hx.
      + apply not_named. exact H2. }
    rewrite traverse_one, traverse_cons, Hs. auto.
  - intros l1 x l2 y l3 -> Hx Hy.
    exists (List.filter (named segment) (l1 ++ x :: l2 ++ y :: l3)).
    destruct (filter_two (named segment) l1 l2 l3 x y) as [a [b [r E]]].
    { apply named_iff. exact Hx. }
    { apply named_iff. exact Hy. }
    assert (Hs : step (VList (l1 ++ x :: l2 ++ y :: l3)) segment
                 = Some (VList (List.filter (named segment)
                                  (l1 ++ x :: l2 ++ y :: l3)))).
    { simpl. rewrite E. reflexivity. }
    rewrite traverse_one, traverse_cons, Hs.
    split; [reflexivity |]. split; [reflexivity |]. split; [reflexivity |].
    split; [reflexivity |]. split; [| split].
    + generalize (l1 ++ x :: l2 ++ y :: l3)%list. intros l.
      induction l as [| z l IH]; simpl; [constructor |].
      destruct (named segment z); [apply sublist_skip | apply sublist_cons];
        exact IH.
    + rewrite E. simpl. lia.
    + intros z. rewrite List.filter_In, named_iff. tauto.
  - intros H. split; [| split].
    + intros Hp.
      assert (Hs : step (VList xs) segment = None).
      { simpl. rewrite (Hnone H), Hp. reflexivity. }
      rewrite traverse_cons, Hs. auto.
    + intros idx Hp Hout.
      assert (Hs : step (VList xs) segment = None).
      { simpl. rewrite (Hnone H), Hp.
        destruct (0 <=? idx)%Z eqn:E1; simpl; [| reflexivity].
        destruct (idx <? Z.of_nat (List.length xs))%Z eqn:E2; [| reflexivity].
        apply Z.leb_le in E1. apply Z.ltb_lt in E2. lia. }
      rewrite traverse_cons, Hs. auto.
    + intros idx Hp [Hlo Hhi].
      destruct (List.nth_error xs (Z.to_nat idx)) as [x |] eqn:Hnth.
      2:{ apply List.nth_error_None in Hnth. lia. }
      exists x.
      assert (Hs : step (VList xs) segment = Some x).
      { simpl. rewrite (Hnone H), Hp.
        apply Z.leb_le in Hlo. apply Z.ltb_lt in Hhi. rewrite Hlo, Hhi. simpl.
        exact Hnth. }
      rewrite traverse_one, traverse_cons, Hs. auto.
  - intros d path skill_name pre Hpath Hpre x Hs.
    apply query_found. rewrite Hpath, traverse_app, Hpre, traverse_one. exact Hs.
  - intros d path filters skill_name pre Hpath Hpre Hs.
    apply query_not_found. rewrite Hpath, traverse_app, Hpre, traverse_cons, Hs.
    reflexivity.
Qed.

End Sequence.


(** ** Patterns without a bracket *)

Lemma matches_star (ts : list Fnmatch.token) (s : list ascii) :
  Fnmatch.matches (Fnmatch.TStar :: ts) s = star (Fnmatch.matches ts) s.
Proof. induction s as [| c s IH]; simpl in *; [reflexivity |]. rewrite IH. reflexivity. Qed.

Lemma glob_star (pat s : list ascii) :
  glob ("*"%char :: pat) s = star (glob pat) s.
Proof. induction s as [| c s IH]; simpl in *; [reflexivity |]. rewrite IH. reflexivity. Qed.

Lemma star_ext (f g : list ascii -> bool) (s : list ascii) :
  (forall t, f t = g t) -> star f s = star g s.
Proof. intros H. induction s as [| c s IH]; simpl; rewrite H; [| rewrite IH]; reflexivity. Qed.

Lemma star_star (f : list ascii -> bool) (s : list ascii) :
  star (star f) s = star f s.
Proof.
  induction s as [| c s IH]; simpl.
  - destruct (f []); reflexivity.
  - rewrite IH. destruct (f (c :: s)), (star f s); reflexivity.
Qed.

Lemma glob_other (c : ascii) (pat s : list ascii) :
  Ascii.eqb c "*"%char = false ->
  glob (c :: pat) s = one_char c (glob pat) s.
Proof. intros H. simpl. rewrite H. reflexivity. Qed.

Lemma tokens_other (b : bool) (c : ascii) (pat s : list ascii) :
  Ascii.eqb c "*"%char = false -> Ascii.eqb c "["%char = false ->
  Fnmatch.matches (Fnmatch.tokens 0 b (c :: pat)) s
  = one_char c (Fnmatch.matches (Fnmatch.tokens 0 false pat)) s.
Proof.
  intros H1 H2. unfold one_char. simpl. rewrite H1, H2.
  destruct (Ascii.eqb c "?"%char); destruct s; reflexivity.
Qed.

Lemma tokens_star (b : bool) (pat : list ascii) :
  Fnmatch.tokens 0 b ("*"%char :: pat)
  = if b then Fnmatch.tokens 0 true pat
    else Fnmatch.TStar :: Fnmatch.tokens 0 true pat.
Proof. reflexivity. Qed.

Lemma one_char_ext (c : ascii) (f g : list ascii -> bool) (s : list ascii) :
  (forall t, f t = g t) -> one_char c f s = one_char c g s.
Proof. intros H. destruct s; simpl; [| rewrite H]; reflexivity. Qed.

Lemma tokens_plain (pat : list ascii) :
  no_bracket pat = true ->
  (forall s, Fnmatch.matches (Fnmatch.tokens 0 false pat) s = glob pat s)
  /\ (forall s, star (Fnmatch.matches (Fnmatch.tokens 0 true pat)) s
                = star (glob pat) s).
Proof.
  induction pat as [| c pat IH]; intros Hnb.
  - split; intros s; reflexivity.
  - simpl in Hnb. apply andb_true_iff in Hnb. destruct Hnb as [Hc Hnb].
    destruct (IH Hnb) as [IHa IHb]. apply negb_true_iff in Hc.
    destruct (Ascii.eqb c "*"%char) eqn:Estar.
    + apply Ascii.eqb_eq in Estar. subst c. split; intros s.
      * rewrite tokens_star, matches_star, IHb, glob_star. reflexivity.
      * rewrite tokens_star, IHb.
        rewrite (star_ext (glob ("*"%char :: pat)) (star (glob pat)))
          by (intros t; apply glob_star).
        rewrite star_star. reflexivity.
    + assert (Hone : forall s,
                 Fnmatch.matches (Fnmatch.tokens 0 true (c :: pat)) s
                 = glob (c :: pat) s).
      { intros s. rewrite tokens_other, glob_other by assumption.
        apply one_char_ext. exact IHa. }
      split; intros s.
      * rewrite tokens_other, glob_other by assumption.
        apply one_char_ext. exact IHa.
      * apply star_ext. exact Hone.
Qed.

Lemma no_bracket_iff (pat : string) :
  no_bracket (list_ascii_of_string pat) = negb (PyStr.contains_char "["%char pat).
Proof.
  induction pat as [| c pat IH]; simpl; [reflexivity |].
  rewrite IH, negb_orb. rewrite (Ascii.eqb_sym c). reflexivity.
Qed.

(** With no bracket in the pattern, [fnmatch] is the matching of the
    specification. *)
Lemma fnmatch_plain (name pat : string) :
  PyStr.contains_char "["%char pat = false ->
  Fnmatch.fnmatch name pat = glob_match name pat.
Proof.
  intros H. unfold Fnmatch.fnmatch, glob_match.
  apply tokens_plain. rewrite no_bracket_iff, H. reflexivity.
Qed.

Lemma lower_char_bracket (c : ascii) :
  Ascii.eqb "["%char (PyStr.lower_char c) = Ascii.eqb "["%char c.
Proof. destruct c as [[] [] [] [] [] [] [] []]; reflexivity. Qed.

Lemma lower_bracket (pat : string) :
  PyStr.contains_char "["%char (PyStr.lower pat)
  = PyStr.contains_char "["%char pat.
Proof.
  induction pat as [| c pat IH]; [reflexivity |].
  change (PyStr.contains_char "["%char (PyStr.lower (String c pat)))
    with ((Ascii.eqb "["%char (PyStr.lower_char c)
           || PyStr.contains_char "["%char (PyStr.lower pat))%bool).
  rewrite lower_char_bracket, IH. reflexivity.
Qed.

(** ** Filters *)

Section Filters.
Context {FR : FloatRepr}.

Lemma matches_char (value : Value) (pattern : string) :
  _matches_pattern value pattern
  = if prints value
    then Ret (Fnmatch.fnmatch (PyStr.lower (compared value)) (PyStr.lower pattern))
    else Raise int_limit.
Proof.
  unfold _matches_pattern.
  destruct value; try reflexivity; unfold str, repr;
    match goal with |- context [prints ?v] => destruct (prints v) end;
    reflexivity.
Qed.

Lemma keeps_char (key pattern : string) (item : Value) :
  keeps key pattern item
  = if prints (looked_at key item)
    then Ret (holds key pattern item)
    else Raise int_limit.
Proof.
  destruct item as [| | | | | | d]; try reflexivity.
  unfold keeps, holds, looked_at. apply matches_char.
Qed.

Lemma keep_all_char (key pattern : string) (items : list Value) :
  keep_all (keeps key pattern) items
  = if List.forallb (fun item => prints (looked_at key item)) items
    then Ret (List.filter (holds key pattern) items)
    else Raise int_limit.
Proof.
  induction items as [| item items IH]; [reflexivity |].
  cbn [keep_all List.forallb List.filter]. rewrite keeps_char, IH.
  destruct (prints (looked_at key item)); [| reflexivity].
  rewrite bind_Ret.
  destruct (List.forallb (fun item0 => prints (looked_at key item0)) items);
    reflexivity.
Qed.

Lemma filter_filter {A : Type} (p q : A -> bool) (l : list A) :
  List.filter q (List.filter p l) = List.filter (fun x => (p x && q x)%bool) l.
Proof.
  induction l as [| a l IH]; simpl; [reflexivity |].
  destruct (p a); simpl; [destruct (q a) |]; rewrite IH; reflexivity.
Qed.

Lemma filter_all {A : Type} (l : list A) : List.filter (fun _ => true) l = l.
Proof. induction l as [| a l IH]; simpl; [| rewrite IH]; reflexivity. Qed.

Lemma forallb_filter {A : Type} (p q : A -> bool) (l : list A) :
  List.forallb p l = true -> List.forallb p (List.filter q l) = true.
Proof.
  induction l as [| a l IH]; simpl; [reflexivity |].
  intros H. apply andb_true_iff in H. destruct H as [Ha Hl].
  destruct (q a); simpl; [rewrite Ha |]; auto.
Qed.

Lemma legible_cons (kp : string * string) (fs : list (string * string))
  (items : list Value) :
  legible (kp :: fs) items = true
  <-> List.forallb (fun item => prints (looked_at (fst kp) item)) items = true
      /\ legible fs items = true.
Proof.
  unfold legible. induction items as [| item items IH]; simpl; [tauto |].
  rewrite !andb_true_iff, IH. tauto.
Qed.

Lemma legible_filter (fs : list (string * string)) (q : Value -> bool)
  (items : list Value) :
  legible fs items = true -> legible fs (List.filter q items) = true.
Proof. apply forallb_filter. Qed.

(** Where every value looked at can be written, the filters keep the
    elements that pass all of them. *)
Lemma apply_filters_filter (items : list Value) (filters : list (string * string)) :
  legible filters items = true ->
  _apply_filters items filters = Ret (List.filter (passes filters) items).
Proof.
  revert items.
  induction filters as [| [k p] fs IH]; intros items H.
  - simpl. rewrite filter_all. reflexivity.
  - apply legible_cons in H. destruct H as [Hk Hfs].
    cbn [_apply_filters fst snd]. rewrite keep_all_char.
    cbn [fst] in Hk. rewrite Hk, bind_Ret.
    rewrite IH by (apply legible_filter; exact Hfs).
    rewrite filter_filter. reflexivity.
Qed.

(** The one way the filters fail is an integer beyond the limit. *)
Lemma apply_filters_raise (items : list Value) (filters : list (string * string))
  (e : exn) :
  _apply_filters items filters = Raise e -> e = int_limit.
Proof.
  revert items.
  induction filters as [| [k p] fs IH]; intros items H.
  - discriminate H.
  - cbn [_apply_filters fst snd] in H. rewrite keep_all_char in H.
    destruct (List.forallb (fun item => prints (looked_at k item)) items).
    + rewrite bind_Ret in H. eapply IH. exact H.
    + injection H as <-. reflexivity.
Qed.

(** What the filters return is what passes them all. *)
Lemma apply_filters_ret (items : list Value) (filters : list (string * string))
  (kept : list Value) :
  _apply_filters items filters = Ret kept ->
  kept = List.filter (passes filters) items.
Proof.
  revert items.
  induction filters as [| [k p] fs IH]; intros items H.
  - injection H as <-. simpl. rewrite filter_all. reflexivity.
  - cbn [_apply_filters fst snd] in H. rewrite keep_all_char in H.
    destruct (List.forallb (fun item => prints (looked_at k item)) items);
      [| discriminate H].
    rewrite bind_Ret in H. apply IH in H. rewrite filter_filter in H. exact H.
Qed.

(** When the filters return, every value they look at in what they keep
    can be written. *)
Lemma apply_filters_looked (items : list Value) (filters : list (string * string))
  (kept : list Value) :
  _apply_filters items filters = Ret kept -> legible filters kept = true.
Proof.
  revert items.
  induction filters as [| [k p] fs IH]; intros items H.
  - unfold legible. apply List.forallb_forall. intros x _. reflexivity.
  - cbn [_apply_filters fst snd] in H. rewrite keep_all_char in H.
    destruct (List.forallb (fun item => prints (looked_at k item)) items) eqn:Ek;
      [| discriminate H].
    rewrite bind_Ret in H. apply legible_cons. split; [| eapply IH; exact H].
    apply apply_filters_ret in H. subst kept. cbn [fst].
    rewrite filter_filter. apply forallb_filter. exact Ek.
Qed.

Lemma holds_plain (key pattern : string) (item : Value) :
  PyStr.contains_char "["%char pattern = false ->
  looked_at key item <> VNone ->
  holds key pattern item = spec_keeps key pattern item.
Proof.
  intros Hp Hn. destruct item as [| | | | | | d]; try reflexivity.
  unfold holds, spec_keeps, filter_text, looked_at in *.
  rewrite fnmatch_plain by (rewrite lower_bracket; exact Hp).
  destruct (dict_get key d) as [v |]; [| reflexivity].
  destruct v; try reflexivity. contradiction Hn. reflexivity.
Qed.

(** With no bracket in a pattern, no [None] looked at and everything
    looked at writable, the filters are those of the specification. *)
Lemma apply_filters_plain (items : list Value) (filters : list (string * string)) :
  List.forallb (fun kp => negb (PyStr.contains_char "["%char (snd kp))) filters = true ->
  legible filters items = true ->
  (forall item kp, List.In item items -> List.In kp filters ->
                   looked_at (fst kp) item <> VNone) ->
  _apply_filters items filters = Ret (spec_apply_filters items filters).
Proof.
  unfold spec_apply_filters. revert items.
  induction filters as [| [k p] fs IH]; intros items Hb Hl Hn; [reflexivity |].
  simpl in Hb. apply andb_true_iff in Hb. destruct Hb as [Hp Hfs].
  apply negb_true_iff in Hp.
  apply legible_cons in Hl. destruct Hl as [Hk Hl]. cbn [fst] in Hk.
  cbn [_apply_filters fst snd List.fold_left].
  rewrite keep_all_char, Hk, bind_Ret.
  rewrite (List.filter_ext_in (holds k p) (spec_keeps k p)).
  2:{ intros x Hx. apply holds_plain; [exact Hp |].
      apply (Hn x (k, p)); [exact Hx | left; reflexivity]. }
  apply IH.
  - exact Hfs.
  - apply legible_filter. exact Hl.
  - intros item kp Hin Hkp. apply Hn.
    + apply List.filter_In in Hin. tauto.
    + right. exact Hkp.
Qed.

Lemma passes_iff (f : string * string) (fs : list (string * string)) (x : Value) :
  passes (f :: fs) x = true
  <-> exists m, x = VDict m
                /\ forall k p, List.In (k, p) (f :: fs) ->
                               Fnmatch.fnmatch
                                 (PyStr.lower (compared (looked_at k x)))
                                 (PyStr.lower p) = true.
Proof.
  unfold passes. rewrite List.forallb_forall. split.
  - intros H. destruct x as [| | | | | | m];
      try (specialize (H f (or_introl eq_refl)); discriminate H).
    exists m. split; [reflexivity |]. intros k p Hin.
    specialize (H (k, p) Hin). exact H.
  - intros [m [-> H]] [k p] Hin. apply H. exact Hin.
Qed.


End Filters.

End QueryFacts.

Lemma sequence_segment_lookup_witness :
  Query.traverse
    (VList [VDict [("name", VStr "session")]; VDict [("name", VStr "data")]])
    ["session"]
  = Some (VDict [("name", VStr "session")]).
Proof.
  destruct (QueryFacts.sequence_segment_lookup (FR := sample_repr)
              [VDict [("name", VStr "session")]; VDict [("name", VStr "data")]]
              "session" []) as [H _].
  destruct (H [] (VDict [("name", VStr "session")])
              [VDict [("name", VStr "data")]] eq_refl) as [_ [Ht _]].
  - exists [("name", VStr "session")]. split; [reflexivity |].
    left. reflexivity.
  - intros y [].
  - intros y [<- | []] [m [Hm [Hn | Hn]]];
      injection Hm as <-; discriminate Hn.
  - exact Ht.
Defined.





(* ===================================================================== *)
(** * Facts about the state tracker and the command executor *)
(* ===================================================================== *)

Module ExecutorFacts.
Import Py State Executor.
Import Notions.

Lemma section_get_found (skill section : Dict) (name key : string) (default v : Value) :
  dict_get name skill = Some (VDict section) ->
  dict_get key section = Some v ->
  section_get skill name key default = Ret v.
Proof. intros H1 H2. unfold section_get. rewrite H1. simpl. rewrite H2. reflexivity. Qed.

Lemma section_get_absent (skill section : Dict) (name key : string) (default : Value) :
  dict_get name skill = Some (VDict section) ->
  dict_get key section = None ->
  section_get skill name key default = Ret default.
Proof. intros H1 H2. unfold section_get. rewrite H1. simpl. rewrite H2. reflexivity. Qed.

Lemma missing_of_names (ents : gmap string StateEntity) (names : list string) :
  missing_of ents (List.map VStr names) = Ret (missing_names ents names).
Proof.
  induction names as [| r names IH]; simpl; [reflexivity |].
  rewrite IH. simpl. destruct (is_valid ents r); reflexivity.
Qed.

Lemma check_requires_names (skill commands cmd : Dict) (command_path : string)
  (names : list string) (ents : gmap string StateEntity) :
  dict_get "commands" skill = Some (VDict commands) ->
  dict_get command_path commands = Some (VDict cmd) ->
  dict_get "requires" cmd = Some (VList (List.map VStr names)) ->
  check_requires skill ents command_path = Ret (missing_names ents names).
Proof.
  intros H1 H2 H3. unfold check_requires, command_of.
  rewrite (section_get_found skill commands "commands" command_path _ (VDict cmd)) by assumption.
  rewrite bind_Ret. unfold listed. simpl. rewrite H3. simpl.
  apply missing_of_names.
Qed.

Section Execute.
Context {FR : FloatRepr} {SP : Subprocess}.

(** C9. A command whose definition is there but falsy is answered like a
    name that is not there: an unsuccessful result with return code 1 and
    the message of an unknown command, nothing built, nothing run, the
    entities and the record of calls as they were. *)
Theorem falsy_definition_is_unknown (skill commands : Dict)
  (command_path : string) (cmd_def : Value) (args : option Dict)
  (dry_run : bool) (timeout : Value) (w : World) :
  dict_get "commands" skill = Some (VDict commands) ->
  dict_get command_path commands = Some cmd_def ->
  truthy cmd_def = false ->
  execute skill command_path args dry_run timeout w
  = (Ret (mkExecutionResult false EmptyString
            ("Unknown command: " +:+ command_path) 1 EmptyString), w)
  /\ forall skill' commands',
       dict_get "commands" skill' = Some (VDict commands') ->
       dict_get command_path commands' = None ->
       execute skill' command_path args dry_run timeout w
       = execute skill command_path args dry_run timeout w.
Proof.
  intros H1 H2 H3.
  assert (E : execute skill command_path args dry_run timeout w
              = (Ret (mkExecutionResult false EmptyString
                        ("Unknown command: " +:+ command_path) 1 EmptyString), w)).
  { unfold execute.
    rewrite (section_get_found skill commands "commands" command_path _ cmd_def)
      by assumption.
    rewrite H3. reflexivity. }
  split; [exact E |].
  intros skill' commands' H1' H2'. rewrite E. unfold execute.
  rewrite (section_get_absent skill' commands' "commands" command_path) by assumption.
  reflexivity.
Qed.

(** C6. When a name in the [requires] list of a command is not valid,
    [execute] raises [InvalidStateError] with the first such name and the
    list of all of them, in the order of the list; no process is called
    and no entity changes. *)
Theorem unmet_requirements_raise (skill commands cmd : Dict)
  (command_path : string) (names : list string) (args : option Dict)
  (dry_run : bool) (timeout : Value) (w : World) :
  dict_get "commands" skill = Some (VDict commands) ->
  dict_get command_path commands = Some (VDict cmd) ->
  dict_get "requires" cmd = Some (VList (List.map VStr names)) ->
  (exists r, List.In r names /\ is_valid (entities w) r = false) ->
  exists first rest,
    missing_names (entities w) names = first :: rest
    /\ execute skill command_path args dry_run timeout w
       = (Raise (InvalidStateError first (first :: rest)), w).
Proof.
  intros H1 H2 H3 [r [Hin Hr]].
  destruct (missing_names (entities w) names) as [| first rest] eqn:E.
  - exfalso. assert (Hm : List.In r (missing_names (entities w) names)).
    { apply List.filter_In. rewrite Hr. auto. }
    rewrite E in Hm. destruct Hm.
  - exists first, rest. split; [reflexivity |]. unfold execute.
    rewrite (section_get_found skill commands "commands" command_path _ (VDict cmd))
      by assumption.
    assert (Ht : truthy (VDict cmd) = true).
    { destruct cmd; [discriminate H3 | reflexivity]. }
    rewrite Ht. simpl negb. cbv iota.
    rewrite (check_requires_names skill commands cmd command_path names) by assumption.
    rewrite E. reflexivity.
Qed.

(** C3, as the code has it. The requirements are checked before the
    command is built and before the dry run stops: with a requirement
    unmet a dry run raises like any other call; with all of them met and
    the command built, a dry run returns the preview, calls no process
    and leaves every entity as it was. *)
Theorem dry_run_previews (skill : Dict) (command_path : string)
  (cmd_def : Value) (args : option Dict) (timeout : Value) (w : World) :
  section_get skill "commands" command_path VNone = Ret cmd_def ->
  truthy cmd_def = true ->
  (forall first rest,
      check_requires skill (entities w) command_path = Ret (first :: rest) ->
      execute skill command_path args true timeout w
      = (Raise (InvalidStateError first (first :: rest)), w))
  /\ (forall cmd_str,
        check_requires skill (entities w) command_path = Ret [] ->
        _build_command skill cmd_def
          (match args with Some a => a | None => [] end) = Ret cmd_str ->
        execute skill command_path args true timeout w
        = (Ret (mkExecutionResult true
                  ("[DRY RUN] Would execute: " +:+ cmd_str)
                  EmptyString 0 cmd_str), w)).
Proof.
  intros H1 H2. split.
  - intros first rest Hc. unfold execute. rewrite H1, H2, Hc. reflexivity.
  - intros cmd_str Hc Hb. unfold execute. rewrite H1, H2, Hc, Hb. reflexivity.
Qed.

End Execute.

End ExecutorFacts.

(** The claim as the specification words it fails: a dry run of a command
    whose requirement is unmet returns no successful result. *)
Lemma dry_run_checks_requirements :
  ~ (exists r w',
        Executor.execute (FR := sample_repr) (SP := Samples.process)
          Samples.cli "fetch" (Some [("url", VStr "https://example.com")])
          true VNone Samples.cli_world = (Ret r, w')
        /\ Executor.success r = true).
Proof.
  intros [r [w' [H _]]]. vm_compute in H. discriminate H.
Qed.

Lemma falsy_definition_is_unknown_witness :
  Executor.execute (FR := sample_repr) (SP := Samples.process)
    Samples.cli "empty" None false VNone Samples.cli_world
  = (Ret (Executor.mkExecutionResult false EmptyString
            "Unknown command: empty" 1 EmptyString), Samples.cli_world).
Proof.
  refine (proj1 (ExecutorFacts.falsy_definition_is_unknown
                   (FR := sample_repr) (SP := Samples.process)
                   Samples.cli _ "empty" (VDict []) None false VNone
                   Samples.cli_world eq_refl eq_refl eq_refl)).
Defined.

Lemma unmet_requirements_raise_witness :
  exists first rest,
    Notions.missing_names (Executor.entities Samples.cli_world) ["session"]
    = first :: rest
    /\ Executor.execute (FR := sample_repr) (SP := Samples.process)
         Samples.cli "fetch" (Some [("url", VStr "https://example.com")])
         false VNone Samples.cli_world
       = (Raise (InvalidStateError first (first :: rest)), Samples.cli_world).
Proof.
  refine (ExecutorFacts.unmet_requirements_raise
            (FR := sample_repr) (SP := Samples.process)
            Samples.cli _ _ "fetch" ["session"] _ false VNone Samples.cli_world
            eq_refl eq_refl eq_refl _).
  exists "session". split; [left; reflexivity | reflexivity].
Defined.

Lemma dry_run_previews_witness :
  Executor.execute (FR := sample_repr) (SP := Samples.process)
    Samples.cli "init" None true VNone Samples.cli_world
  = (Ret (Executor.mkExecutionResult true
            "[DRY RUN] Would execute: tool init" EmptyString 0 "tool init"),
     Samples.cli_world).
Proof.
  refine (proj2 (ExecutorFacts.dry_run_previews
                   (FR := sample_repr) (SP := Samples.process)
                   Samples.cli "init" _ None VNone Samples.cli_world
                   eq_refl eq_refl) "tool init" eq_refl eq_refl).
Defined.

(* ===================================================================== *)
(** * Facts about the loader *)
(* ===================================================================== *)

Module LoaderFacts.
Import Py Loader.
Import Notions.

Section Load.
Context {FR : FloatRepr} {Skill : Type} {C : Collaborators Skill}.

(** C8. A document the schema accepts whose stored fingerprint is not
    the recomputed one: the default loader goes on to build the typed
    model and only writes the mismatch to the log; the strict loader
    raises [ValueError] with the same message and builds nothing. The
    message writes the stored value; a stored value that cannot be
    written, an integer beyond 4300 digits, ends both loaders with the
    [ValueError] of the conversion. *)
Theorem version_mismatch_soft_or_strict (skill_dict : Dict) (source : string)
  (stored : Value) (calculated : string) :
  schema_errors skill_dict = [] ->
  Version.verify_version skill_dict = Ret (false, stored, calculated) ->
  (prints stored = true ->
   let msg := "Version mismatch in " +:+ source +:+ ": stored="
                +:+ text stored +:+ ", calculated=" +:+ calculated in
   load_dict default_strict_version skill_dict source
   = (from_dict skill_dict, [msg])
   /\ load_dict true skill_dict source = (Raise (ValueError msg), []))
  /\ (prints stored = false ->
      load_dict default_strict_version skill_dict source = (Raise int_limit, [])
      /\ load_dict true skill_dict source = (Raise int_limit, [])).
Proof.
  intros Hs Hv. unfold load_dict, default_strict_version.
  rewrite Hs, Hv, VersionFacts.str_char.
  split; intros Hp; rewrite Hp; split; reflexivity.
Qed.

End Load.

End LoaderFacts.

Lemma version_mismatch_soft_or_strict_witness :
  Loader.load_dict (FR := sample_repr) (C := Samples.collaborators)
    Loader.default_strict_version Samples.doc "<dict>"
  = (Ret Samples.doc,
     ["Version mismatch in <dict>: stored=x, calculated=879bd259"])
  /\ Loader.load_dict (FR := sample_repr) (C := Samples.collaborators)
       true Samples.doc "<dict>"
     = (Raise (ValueError
                 "Version mismatch in <dict>: stored=x, calculated=879bd259"),
        []).
Proof.
  exact (proj1 (LoaderFacts.version_mismatch_soft_or_strict
                  (FR := sample_repr) (C := Samples.collaborators)
                  Samples.doc "<dict>" (VStr "x") "879bd259" eq_refl eq_refl)
           eq_refl).
Defined.


(* ===================================================================== *)
(** * Facts about documents in the store *)
(* ===================================================================== *)


Module StoreFacts.
Import Py Shape Store.
Import Notions.

(** ** Stores that grow *)

Lemma prefix_preserved (h h' : heap) : h `prefix_of` h' -> preserved h h'.
Proof.
  intros [ext ->] l o H. rewrite lookup_app_l; [exact H |].
  eapply lookup_lt_Some. exact H.
Qed.

Lemma prefix_alloc (h : heap) (o : obj) : h `prefix_of` fst (alloc h o).
Proof. exists [o]. reflexivity. Qed.

Lemma alloc_lookup (h : heap) (o : obj) :
  fst (alloc h o) !! List.length h = Some o.
Proof. simpl. apply list_lookup_middle. reflexivity. Qed.

Lemma alloc_length (h : heap) (o : obj) :
  List.length (fst (alloc h o)) = S (List.length h).
Proof. simpl. rewrite length_app. simpl. lia. Qed.

Lemma prefix_len (h h' : heap) : h `prefix_of` h' -> List.length h <= List.length h'.
Proof. intros [ext ->]. rewrite length_app. lia. Qed.

(** ** What a reference stands for does not depend on the rest of the store *)

Lemma rep_frame (h : heap) :
  (forall r v F, rep h r v F ->
     forall h', (forall l, List.In l F -> h' !! l = h !! l) -> rep h' r v F)
  /\ (forall rs vs F, rep_all h rs vs F ->
        forall h', (forall l, List.In l F -> h' !! l = h !! l) -> rep_all h' rs vs F)
  /\ (forall rs kvs F, rep_items h rs kvs F ->
        forall h', (forall l, List.In l F -> h' !! l = h !! l) -> rep_items h' rs kvs F).
Proof.
  apply rep_mutind; intros; try solve [constructor].
  - apply rep_list with (xs := xs).
    + rewrite H0 by (left; reflexivity). assumption.
    + apply H. intros l' Hl. apply H0. right. exact Hl.
  - apply rep_dict with (items := items).
    + rewrite H0 by (left; reflexivity). assumption.
    + apply H. intros l' Hl. apply H0. right. exact Hl.
  - constructor.
    + apply H. intros l' Hl. apply H1. apply List.in_or_app. left. exact Hl.
    + apply H0. intros l' Hl. apply H1. apply List.in_or_app. right. exact Hl.
  - constructor.
    + apply H. intros l' Hl. apply H1. apply List.in_or_app. left. exact Hl.
    + apply H0. intros l' Hl. apply H1. apply List.in_or_app. right. exact Hl.
Qed.

Lemma rep_bound (h : heap) :
  (forall r v F, rep h r v F -> forall l, List.In l F -> l < List.length h)
  /\ (forall rs vs F, rep_all h rs vs F -> forall l, List.In l F -> l < List.length h)
  /\ (forall rs kvs F, rep_items h rs kvs F -> forall l, List.In l F -> l < List.length h).
Proof.
  apply rep_mutind; intros; simpl in *; try contradiction.
  - destruct H0 as [<- | H0]; [eapply lookup_lt_Some; eauto | auto].
  - destruct H0 as [<- | H0]; [eapply lookup_lt_Some; eauto | auto].
  - apply List.in_app_or in H1. destruct H1; auto.
  - apply List.in_app_or in H1. destruct H1; auto.
Qed.

Lemma preserved_agree (h h' : heap) (l : nat) :
  preserved h h' -> l < List.length h -> h' !! l = h !! l.
Proof.
  intros Hp Hl. destruct (h !! l) as [o |] eqn:E.
  - apply Hp. exact E.
  - apply lookup_ge_None in E. lia.
Qed.

Lemma rep_preserved (h h' : heap) (r : ref) (v : Value) (F : list nat) :
  preserved h h' -> rep h r v F -> rep h' r v F.
Proof.
  intros Hp Hr. eapply (proj1 (rep_frame h)); [exact Hr |].
  intros l Hl. apply preserved_agree; [exact Hp |].
  eapply (proj1 (rep_bound h)); eauto.
Qed.

Lemma rep_all_preserved (h h' : heap) rs vs F :
  preserved h h' -> rep_all h rs vs F -> rep_all h' rs vs F.
Proof.
  intros Hp Hr. eapply (proj1 (proj2 (rep_frame h))); [exact Hr |].
  intros l Hl. apply preserved_agree; [exact Hp |].
  eapply (proj1 (proj2 (rep_bound h))); eauto.
Qed.

Lemma rep_items_preserved (h h' : heap) rs kvs F :
  preserved h h' -> rep_items h rs kvs F -> rep_items h' rs kvs F.
Proof.
  intros Hp Hr. eapply (proj2 (proj2 (rep_frame h))); [exact Hr |].
  intros l Hl. apply preserved_agree; [exact Hp |].
  eapply (proj2 (proj2 (rep_bound h))); eauto.
Qed.


(** ** Deep copies *)

Lemma built_nothing (h : heap) : built h h [].
Proof. split; [reflexivity | split; [constructor | intros l []]]. Qed.

Lemma built_alloc (h0 h1 : heap) (F : list nat) (o : obj) :
  built h0 h1 F -> built h0 (fst (alloc h1 o)) (List.length h1 :: F).
Proof.
  intros (Hp & Hn & Hb). split; [| split].
  - etransitivity; [exact Hp | apply prefix_alloc].
  - constructor; [| exact Hn]. intros Hin. apply Hb in Hin. lia.
  - intros l [<- | Hin].
    + rewrite alloc_length. apply prefix_len in Hp. lia.
    + apply Hb in Hin. rewrite alloc_length. lia.
Qed.

Lemma built_app (h0 h1 h2 : heap) (F1 F2 : list nat) :
  built h0 h1 F1 -> built h1 h2 F2 -> built h0 h2 (F1 ++ F2).
Proof.
  intros (Hp1 & Hn1 & Hb1) (Hp2 & Hn2 & Hb2). split; [| split].
  - etransitivity; eauto.
  - apply List.NoDup_app; try assumption.
    intros l H1 H2. apply Hb1 in H1. apply Hb2 in H2. lia.
  - intros l Hin. apply List.in_app_or in Hin.
    apply prefix_len in Hp1. apply prefix_len in Hp2.
    destruct Hin as [Hin | Hin]; [apply Hb1 in Hin | apply Hb2 in Hin]; lia.
Qed.

Lemma deep_copy_list (n : nat) (h : heap) (l : nat) (xs : list ref) :
  h !! l = Some (OList xs) ->
  _deep_copy_value (S n) h (RObj l)
  = match thread (_deep_copy_value n) h xs with
    | Some (h1, xs') => Some (alloc h1 (OList xs'))
    | None => None
    end.
Proof. intros H. simpl. rewrite H. reflexivity. Qed.

Lemma deep_copy_dict (n : nat) (h : heap) (l : nat) (items : list (string * ref)) :
  h !! l = Some (ODict items) ->
  _deep_copy_value (S n) h (RObj l)
  = match thread (copy_item n) h items with
    | Some (h1, items') => Some (alloc h1 (ODict items'))
    | None => None
    end.
Proof. intros H. simpl. rewrite H. reflexivity. Qed.

Lemma thread_cons {A B : Type} (f : heap -> A -> option (heap * B))
  (h : heap) (x : A) (rest : list A) :
  thread f h (x :: rest)
  = match f h x with
    | Some (h1, y) =>
        match thread f h1 rest with
        | Some (h2, ys) => Some (h2, y :: ys)
        | None => None
        end
    | None => None
    end.
Proof. reflexivity. Qed.

Lemma deep_copy_spec (h : heap) :
  (forall r v F, rep h r v F ->
     forall h0 fuel, preserved h h0 -> depth v <= fuel ->
       exists h' r' F', _deep_copy_value fuel h0 r = Some (h', r')
                        /\ rep h' r' v F' /\ built h0 h' F')
  /\ (forall rs vs F, rep_all h rs vs F ->
        forall h0 n, preserved h h0 -> depths vs <= n ->
          exists h' rs' F', thread (_deep_copy_value n) h0 rs = Some (h', rs')
                            /\ rep_all h' rs' vs F' /\ built h0 h' F')
  /\ (forall rs kvs F, rep_items h rs kvs F ->
        forall h0 n, preserved h h0 -> depths_items kvs <= n ->
          exists h' rs' F', thread (copy_item n) h0 rs = Some (h', rs')
                            /\ rep_items h' rs' kvs F' /\ built h0 h' F').
Proof.
  apply rep_mutind.
  - intros h0 fuel _ _. exists h0, RNone, []. split; [try (destruct fuel; reflexivity); reflexivity | split; [constructor | apply built_nothing]].
  - intros b h0 fuel _ _. exists h0, (RBool b), []. split; [try (destruct fuel; reflexivity); reflexivity | split; [constructor | apply built_nothing]].
  - intros z h0 fuel _ _. exists h0, (RInt z), []. split; [try (destruct fuel; reflexivity); reflexivity | split; [constructor | apply built_nothing]].
  - intros f h0 fuel _ _. exists h0, (RFloat f), []. split; [try (destruct fuel; reflexivity); reflexivity | split; [constructor | apply built_nothing]].
  - intros s h0 fuel _ _. exists h0, (RStr s), []. split; [try (destruct fuel; reflexivity); reflexivity | split; [constructor | apply built_nothing]].
  - intros l xs vs F Hl _ IH h0 fuel Hp Hd.
    destruct fuel as [| n]; [simpl in Hd; lia |].
    destruct (IH h0 n Hp) as (h1 & rs' & F1 & Ht & Hrep & Hb).
    { simpl in Hd. unfold depths. lia. }
    rewrite (deep_copy_list n h0 l xs (Hp _ _ Hl)), Ht.
    exists (fst (alloc h1 (OList rs'))), (RObj (List.length h1)), (List.length h1 :: F1).
    split; [reflexivity | split].
    + apply rep_list with (xs := rs'); [apply alloc_lookup |].
      eapply rep_all_preserved; [| exact Hrep].
      apply prefix_preserved, prefix_alloc.
    + apply built_alloc. exact Hb.
  - intros l items kvs F Hl _ IH h0 fuel Hp Hd.
    destruct fuel as [| n]; [simpl in Hd; lia |].
    destruct (IH h0 n Hp) as (h1 & rs' & F1 & Ht & Hrep & Hb).
    { simpl in Hd. unfold depths_items. lia. }
    rewrite (deep_copy_dict n h0 l items (Hp _ _ Hl)), Ht.
    exists (fst (alloc h1 (ODict rs'))), (RObj (List.length h1)), (List.length h1 :: F1).
    split; [reflexivity | split].
    + apply rep_dict with (items := rs'); [apply alloc_lookup |].
      eapply rep_items_preserved; [| exact Hrep].
      apply prefix_preserved, prefix_alloc.
    + apply built_alloc. exact Hb.
  - intros h0 n _ _. exists h0, [], []. split; [try (destruct fuel; reflexivity); reflexivity | split; [constructor | apply built_nothing]].
  - intros r v rs vs F1 F2 _ IH1 _ IH2 h0 n Hp Hd.
    unfold depths in Hd. simpl in Hd. fold (depths vs) in Hd.
    destruct (IH1 h0 n Hp) as (h1 & r' & G1 & Hc & Hrep1 & Hb1); [lia |].
    assert (Hp1 : preserved h h1).
    { intros l o Hl. apply (prefix_preserved h0 h1); [apply Hb1 | apply Hp, Hl]. }
    destruct (IH2 h1 n Hp1) as (h2 & rs' & G2 & Ht & Hrep2 & Hb2); [lia |].
    rewrite thread_cons, Hc, Ht.
    exists h2, (r' :: rs'), (G1 ++ G2)%list. split; [reflexivity | split].
    + constructor; [| exact Hrep2].
      eapply rep_preserved; [| exact Hrep1]. apply prefix_preserved, Hb2.
    + eapply built_app; eauto.
  - intros h0 n _ _. exists h0, [], []. split; [reflexivity | split; [constructor | apply built_nothing]].
  - intros k r v rs kvs F1 F2 _ IH1 _ IH2 h0 n Hp Hd.
    unfold depths_items in Hd. simpl in Hd. fold (depths_items kvs) in Hd.
    destruct (IH1 h0 n Hp) as (h1 & r' & G1 & Hc & Hrep1 & Hb1); [lia |].
    assert (Hp1 : preserved h h1).
    { intros l o Hl. apply (prefix_preserved h0 h1); [apply Hb1 | apply Hp, Hl]. }
    destruct (IH2 h1 n Hp1) as (h2 & rs' & G2 & Ht & Hrep2 & Hb2); [lia |].
    rewrite thread_cons. unfold copy_item at 1. simpl snd. simpl fst. rewrite Hc, Ht.
    exists h2, ((k, r') :: rs'), (G1 ++ G2)%list. split; [reflexivity | split].
    + constructor; [| exact Hrep2].
      eapply rep_preserved; [| exact Hrep1]. apply prefix_preserved, Hb2.
    + eapply built_app; eauto.
Qed.


(** ** Reading the content back *)

Lemma reify_scalar (fuel : nat) (h : heap) (r : ref) :
  (forall l, r <> RObj l) ->
  reify fuel h r = match r with
                   | RNone => Some VNone
                   | RBool b => Some (VBool b)
                   | RInt z => Some (VInt z)
                   | RFloat f => Some (VFloat f)
                   | RStr s => Some (VStr s)
                   | RObj _ => None
                   end.
Proof. intros H. destruct fuel, r; try reflexivity; exfalso; eapply H; reflexivity. Qed.

Lemma reify_spec (h : heap) :
  (forall r v F, rep h r v F ->
     forall fuel, depth v <= fuel -> reify fuel h r = Some v)
  /\ (forall rs vs F, rep_all h rs vs F ->
        forall n, depths vs <= n ->
          Forall2 (fun x y => reify n h x = Some y) rs vs)
  /\ (forall rs kvs F, rep_items h rs kvs F ->
        forall n, depths_items kvs <= n ->
          Forall2 (fun x y => pair (fst x) <$> reify n h (snd x) = Some y) rs kvs).
Proof.
  apply rep_mutind.
  - intros fuel _. destruct fuel; reflexivity.
  - intros b fuel _. destruct fuel; reflexivity.
  - intros z fuel _. destruct fuel; reflexivity.
  - intros f fuel _. destruct fuel; reflexivity.
  - intros s fuel _. destruct fuel; reflexivity.
  - intros l xs vs F Hl _ IH fuel Hd.
    destruct fuel as [| n]; [simpl in Hd; lia |].
    simpl. rewrite Hl.
    rewrite (mapM_Some_2 (reify n h) xs vs); [reflexivity |].
    apply IH. simpl in Hd. unfold depths. lia.
  - intros l items kvs F Hl _ IH fuel Hd.
    destruct fuel as [| n]; [simpl in Hd; lia |].
    simpl. rewrite Hl.
    rewrite (mapM_Some_2 _ items kvs); [reflexivity |].
    apply IH. simpl in Hd. unfold depths_items. lia.
  - intros n _. constructor.
  - intros r v rs vs F1 F2 _ IH1 _ IH2 n Hd.
    unfold depths in Hd. simpl in Hd. fold (depths vs) in Hd.
    constructor; [apply IH1 | apply IH2]; lia.
  - intros n _. constructor.
  - intros k r v rs kvs F1 F2 _ IH1 _ IH2 n Hd.
    unfold depths_items in Hd. simpl in Hd. fold (depths_items kvs) in Hd.
    constructor; [| apply IH2; lia].
    simpl. rewrite IH1 by lia. reflexivity.
Qed.

(** ** Items of mappings, side by side *)

Lemma sublist_In {A : Type} (l1 l2 : list A) (x : A) :
  l1 `sublist_of` l2 -> List.In x l1 -> List.In x l2.
Proof.
  induction 1 as [| a l1 l2 _ IH | a l1 l2 _ IH]; simpl; intros Hin; auto.
  destruct Hin; auto.
Qed.

Lemma sublist_ListNoDup {A : Type} (l1 l2 : list A) :
  l1 `sublist_of` l2 -> List.NoDup l2 -> List.NoDup l1.
Proof.
  intros Hs Hn. apply NoDup_ListNoDup. apply NoDup_ListNoDup in Hn.
  eapply sublist_NoDup; eauto.
Qed.

Lemma rep_items_get (h : heap) (k : string) rs kvs F :
  rep_items h rs kvs F ->
  match dict_get k rs, dict_get k kvs with
  | Some r, Some v => exists F', rep h r v F' /\ F' `sublist_of` F
  | None, None => True
  | _, _ => False
  end.
Proof.
  induction 1 as [| k' r v rs kvs F1 F2 Hr Hrs IH]; simpl; [exact I |].
  destruct (String.eqb k k').
  - exists F1. split; [exact Hr |]. apply sublist_inserts_r. reflexivity.
  - destruct (dict_get k rs), (dict_get k kvs); try exact IH.
    destruct IH as [F' [H1 H2]]. exists F'. split; [exact H1 |].
    apply sublist_inserts_l. exact H2.
Qed.

Lemma rep_items_without (h : heap) (k : string) rs kvs F :
  rep_items h rs kvs F ->
  exists F', rep_items h (dict_without k rs) (dict_without k kvs) F'
             /\ F' `sublist_of` F.
Proof.
  unfold dict_without.
  induction 1 as [| k' r v rs kvs F1 F2 Hr Hrs [F' [IH1 IH2]]]; simpl.
  - exists []. split; constructor.
  - destruct (negb (String.eqb k' k)).
    + exists (F1 ++ F')%list. split; [constructor; assumption |].
      apply sublist_app; [reflexivity | exact IH2].
    + exists F'. split; [exact IH1 |]. apply sublist_inserts_l. exact IH2.
Qed.

Lemma rep_items_set (h : heap) (k : string) (r : ref) (v : Value) rs kvs F :
  rep h r v [] ->
  rep_items h rs kvs F ->
  exists F', rep_items h (dict_set k r rs) (dict_set k v kvs) F'
             /\ F' `sublist_of` F.
Proof.
  intros Hnew.
  induction 1 as [| k' r' v' rs kvs F1 F2 Hr Hrs [F' [IH1 IH2]]]; simpl.
  - exists []. split; [| constructor].
    change (@nil nat) with ([] ++ [] : list nat)%list. constructor; [exact Hnew | constructor].
  - destruct (String.eqb k k').
    + exists F2. split; [| apply sublist_inserts_l; reflexivity].
      change F2 with ([] ++ F2)%list. constructor; assumption.
    + exists (F1 ++ F')%list. split; [constructor; assumption |].
      apply sublist_app; [reflexivity | exact IH2].
Qed.


(** ** The copy without the fingerprint *)

Lemma type_name_rep (h h0 : heap) (r : ref) (v : Value) (F : list nat) :
  rep h r v F -> preserved h h0 -> Store.type_name h0 r = Py.type_name v.
Proof.
  intros Hr Hp. inversion Hr; subst; try reflexivity; simpl.
  - rewrite (Hp _ _ H). reflexivity.
  - rewrite (Hp _ _ H). reflexivity.
Qed.

Lemma depths_items_without (k : string) (m : Dict) :
  depths_items (dict_without k m) <= depths_items m.
Proof.
  unfold depths_items, dict_without.
  induction m as [| [k' v] m IH]; simpl; [lia |].
  destruct (negb (String.eqb k' k)); simpl; lia.
Qed.

Lemma copy_items_depth (d s : Dict) :
  Version.copy_items d = Ret s -> depths_items s <= depths_items d.
Proof.
  revert s. induction d as [| [k v] d IH]; simpl; intros s H.
  - inversion H. reflexivity.
  - destruct (Version.copy_entry k v) as [v' |] eqn:E; [| discriminate H].
    destruct (Version.copy_items d) as [s' |]; [| discriminate H].
    inversion H; subst. specialize (IH s' eq_refl).
    assert (depth v' <= depth v).
    { unfold Version.copy_entry in E. destruct (String.eqb k "meta").
      - destruct v; try discriminate E. inversion E; subst. simpl.
        pose proof (depths_items_without "version" kvs) as Hd.
        unfold depths_items in Hd. lia.
      - inversion E. rewrite VersionFacts.deep_copy_value_id. lia. }
    unfold depths_items in *. simpl. lia.
Qed.

Lemma copy_entry_spec (h h0 : heap) (fuel : nat) (k : string) (r : ref)
  (v : Value) (F : list nat) :
  rep h r v F -> preserved h h0 -> depth v <= fuel ->
  exists h1 res,
    Store.copy_entry fuel h0 (k, r) = Some (h1, res)
    /\ h0 `prefix_of` h1
    /\ match Version.copy_entry k v with
       | Ret v' => exists r' F', res = Ret (k, r') /\ rep h1 r' v' F'
       | Raise e => res = Raise e
       end.
Proof.
  intros Hr Hp Hd.
  unfold Store.copy_entry, Version.copy_entry, no_attribute, Store.type_name.
  simpl fst. simpl snd.
  destruct (String.eqb k "meta").
  - inversion Hr; subst; simpl;
      try (eexists _, _; split; [reflexivity | split; reflexivity]).
    + rewrite (Hp _ _ H). eexists _, _. split; [reflexivity | split; reflexivity].
    + rewrite (Hp _ _ H).
      destruct (rep_items_without h "version" _ _ _ H0) as [F' [Hw _]].
      eexists _, _. split; [reflexivity | split; [apply (prefix_alloc h0) |]].
      exists (RObj (List.length h0)), (List.length h0 :: F'). split; [reflexivity |].
      apply rep_dict with (items := dict_without "version" items).
      * apply alloc_lookup.
      * eapply rep_items_preserved; [| exact Hw].
        intros l' o Hl. apply (prefix_preserved h0); [apply prefix_alloc | apply Hp, Hl].
  - destruct (proj1 (deep_copy_spec h) r v F Hr h0 fuel Hp Hd)
      as (h1 & r' & F' & Hc & Hrep & Hb).
    rewrite Hc. exists h1, (Ret (k, r')). split; [reflexivity | split; [apply Hb |]].
    rewrite VersionFacts.deep_copy_value_id. exists r', F'. split; [reflexivity | exact Hrep].
Qed.

Lemma copy_items_spec (h : heap) (fuel : nat) rs kvs F :
  rep_items h rs kvs F ->
  forall h0, preserved h h0 -> depths_items kvs <= fuel ->
  exists h1 res,
    Store.copy_items fuel h0 rs = Some (h1, res)
    /\ h0 `prefix_of` h1
    /\ match Version.copy_items kvs with
       | Ret s => exists rs' F', res = Ret rs' /\ rep_items h1 rs' s F'
       | Raise e => res = Raise e
       end.
Proof.
  induction 1 as [| k r v rs kvs F1 F2 Hr Hrs IH]; intros h0 Hp Hd.
  - exists h0, (Ret []). split; [reflexivity | split; [reflexivity |]].
    exists [], []. split; [reflexivity | constructor].
  - unfold depths_items in Hd. simpl in Hd. fold (depths_items kvs) in Hd.
    destruct (copy_entry_spec h h0 fuel k r v F1 Hr Hp) as (h1 & res1 & He & Hp1 & Hres1);
      [lia |].
    simpl. rewrite He.
    destruct (Version.copy_entry k v) as [v' | e].
    + destruct Hres1 as (r' & F' & -> & Hrep1).
      assert (Hp' : preserved h h1).
      { intros l o Hl. apply (prefix_preserved h0 h1 Hp1). apply Hp, Hl. }
      destruct (IH h1 Hp') as (h2 & res2 & Hc & Hp2 & Hres2); [lia |].
      rewrite Hc. rewrite bind_Ret.
      destruct (Version.copy_items kvs) as [s | e].
      * destruct Hres2 as (rs' & G & -> & Hrep2).
        exists h2, (Ret ((k, r') :: rs')). split; [reflexivity | split].
        -- etransitivity; eauto.
        -- rewrite bind_Ret. exists ((k, r') :: rs'), (F' ++ G)%list.
           split; [reflexivity |]. constructor; [| exact Hrep2].
           eapply rep_preserved; [| exact Hrep1]. apply prefix_preserved, Hp2.
      * subst res2. exists h2, (Raise e). split; [reflexivity | split].
        -- etransitivity; eauto.
        -- reflexivity.
    + subst res1. exists h1, (Raise e). split; [reflexivity | split; [exact Hp1 | reflexivity]].
Qed.

(** ** An assignment inside a structure that shares nothing *)

Lemma NoDup_app_inv {A : Type} (l k : list A) :
  List.NoDup (l ++ k) ->
  List.NoDup l /\ List.NoDup k /\ forall x, List.In x l -> List.In x k -> False.
Proof.
  intros H. apply NoDup_ListNoDup in H. apply NoDup_app in H.
  destruct H as (H1 & H2 & H3). split; [| split].
  - apply NoDup_ListNoDup. exact H1.
  - apply NoDup_ListNoDup. exact H3.
  - intros x Hl Hk. apply (H2 x); apply list_elem_of_In; assumption.
Qed.

Lemma insert_other (h : heap) (lm l : nat) (o : obj) :
  l <> lm -> <[lm := o]> h !! l = h !! l.
Proof. intros H. apply list_lookup_insert_ne. auto. Qed.

Lemma rep_items_assign (h : heap) (k k2 : string) (c : string) (lm : nat)
  (mitems : list (string * ref)) (M : Dict) rs kvs F :
  rep_items h rs kvs F ->
  List.NoDup F ->
  dict_get k rs = Some (RObj lm) ->
  dict_get k kvs = Some (VDict M) ->
  h !! lm = Some (ODict mitems) ->
  exists F',
    rep_items (<[lm := ODict (dict_set k2 (RStr c) mitems)]> h) rs
      (dict_set k (VDict (dict_set k2 (VStr c) M)) kvs) F'
    /\ F' `sublist_of` F.
Proof.
  intros Hrep. revert lm mitems M.
  induction Hrep as [| k' r v rs kvs F1 F2 Hr Hrs IH];
    intros lm mitems M Hnd Hg1 Hg2 Hlm; simpl in *; [discriminate |].
  apply NoDup_app_inv in Hnd. destruct Hnd as (Hn1 & Hn2 & Hdis).
  set (h3 := <[lm := ODict (dict_set k2 (RStr c) mitems)]> h).
  destruct (String.eqb k k') eqn:E.
  - inversion Hg1; subst r. inversion Hg2; subst v. clear Hg1 Hg2.
    inversion Hr as [| | | | | | l0 items0 kvs0 Fm Hl0 Hitems]; subst.
    rewrite Hlm in Hl0. inversion Hl0; subst items0. clear Hl0.
    inversion Hn1 as [| ? ? Hnotin Hnm]; subst.
    assert (Hm3 : rep_items h3 mitems M Fm).
    { eapply (proj2 (proj2 (rep_frame h))); [exact Hitems |].
      intros l Hl. apply insert_other. intros ->. contradiction. }
    destruct (rep_items_set h3 k2 (RStr c) (VStr c) mitems M Fm (rep_str h3 c) Hm3)
      as (Fm' & Hset & Hsub).
    exists ((lm :: Fm') ++ F2)%list. split.
    + constructor.
      * apply rep_dict with (items := dict_set k2 (RStr c) mitems); [| exact Hset].
        apply list_lookup_insert_eq. eapply lookup_lt_Some. exact Hlm.
      * eapply (proj2 (proj2 (rep_frame h))); [exact Hrs |].
        intros l Hl. apply insert_other. intros ->.
        apply (Hdis lm); [left; reflexivity | exact Hl].
    + apply sublist_app; [| reflexivity]. constructor. exact Hsub.
  - pose proof (rep_items_get h k rs kvs F2 Hrs) as Hget.
    rewrite Hg1, Hg2 in Hget. destruct Hget as (Fg & Hg & Hgsub).
    assert (Hin : List.In lm F2).
    { eapply sublist_In; [exact Hgsub |]. inversion Hg; subst. left. reflexivity. }
    destruct (IH lm mitems M Hn2 Hg1 Hg2 Hlm) as (F' & Hrep' & Hsub').
    exists (F1 ++ F')%list. split.
    + constructor; [| exact Hrep'].
      eapply (proj1 (rep_frame h)); [exact Hr |].
      intros l Hl. apply insert_other. intros ->. apply (Hdis lm); assumption.
    + apply sublist_app; [reflexivity | exact Hsub'].
Qed.

Lemma depths_items_get (k : string) (d : Dict) (v : Value) :
  dict_get k d = Some v -> depth v <= depths_items d.
Proof.
  unfold depths_items. induction d as [| [k' v'] d IH]; simpl; [discriminate |].
  destruct (String.eqb k k').
  - intros [= ->]. lia.
  - intros H. specialize (IH H). lia.
Qed.

Lemma depths_items_set (k : string) (v : Value) (d : Dict) :
  depths_items (dict_set k v d) <= Nat.max (depth v) (depths_items d).
Proof.
  unfold depths_items. induction d as [| [k' v'] d IH]; simpl; [lia |].
  destruct (String.eqb k k'); simpl; lia.
Qed.

Lemma depth_set_version (d m : Dict) (c : string) :
  dict_get "meta" d = Some (VDict m) ->
  depth (VDict (dict_set "meta" (VDict (dict_set "version" (VStr c) m)) d))
  <= depth (VDict d).
Proof.
  intros H. apply depths_items_get in H. simpl in H.
  pose proof (depths_items_set "version" (VStr c) m) as H1.
  pose proof (depths_items_set "meta" (VDict (dict_set "version" (VStr c) m)) d) as H2.
  simpl in *. unfold depths_items in *. lia.
Qed.

Section Hasher.
Context {FR : FloatRepr}.

Lemma calculate_spec (h h0 : heap) (fuel : nat) (d : ref) (D : Dict) (F : list nat) :
  rep h d (VDict D) F -> preserved h h0 -> depth (VDict D) <= fuel ->
  exists h1,
    Store.calculate_version fuel h0 d = Some (h1, Version.calculate_version D)
    /\ h0 `prefix_of` h1.
Proof.
  intros Hr Hp Hd. inversion Hr as [| | | | | | l items kvs F0 Hl Hitems]; subst.
  simpl in Hd.
  destruct (copy_items_spec h fuel items D F0 Hitems h0 Hp) as (h1 & res & Hc & Hp1 & Hres).
  { unfold depths_items. lia. }
  unfold Store.calculate_version, Store._deep_copy_without_version,
    Version.calculate_version, Version._deep_copy_without_version.
  rewrite (Hp _ _ Hl), Hc.
  destruct (Version.copy_items D) as [s | e] eqn:Es.
  - destruct Hres as (rs' & G & -> & Hrep).
    assert (Hnew : rep (fst (alloc h1 (ODict rs'))) (RObj (List.length h1))
                     (VDict s) (List.length h1 :: G)).
    { apply rep_dict with (items := rs'); [apply alloc_lookup |].
      eapply rep_items_preserved; [| exact Hrep].
      apply prefix_preserved, prefix_alloc. }
    change (fst (alloc h1 (ODict rs'))) with (h1 ++ [ODict rs'])%list in Hnew.
    unfold alloc.
    rewrite (proj1 (reify_spec _) _ _ _ Hnew fuel).
    + exists (h1 ++ [ODict rs'])%list. split; [reflexivity |].
      etransitivity; [exact Hp1 | apply (prefix_alloc h1)].
    + pose proof (copy_items_depth D s Es) as Hs. simpl. unfold depths_items in Hs. lia.
  - subst res. exists h1. split; [reflexivity | exact Hp1].
Qed.


(** C5, as the code has it. For a document with a metadata mapping
    whose integers, the stored fingerprint aside, can be written,
    [update_version] returns a document that [verify_version] finds
    valid: its stored fingerprint is the one recomputed from it. The
    result is made of new objects only, none of them shared, and every
    object that was in the store before the call is the same after it,
    so the argument still stands for the content it had. With an integer
    beyond 4300 digits in the content, [update_version] raises the
    [ValueError] of the serializer, the store before the call again
    unchanged. *)
Theorem update_then_verify (h : heap) (d : ref) (D m : Dict) (F : list nat)
  (fuel : nat) :
  rep h d (VDict D) F ->
  well_formed (VDict D) = true ->
  dict_get "meta" D = Some (VDict m) ->
  depth (VDict D) <= fuel ->
  (prints (VDict (Version.without_meta_version D)) = true ->
   exists h' d' D' F' c,
     Store.update_version fuel h d = Some (h', Ret d')
     /\ Version.update_version D = Ret D'
     /\ preserved h h'
     /\ rep h' d (VDict D) F
     /\ rep h' d' (VDict D') F'
     /\ List.NoDup F'
     /\ (forall l, List.In l F' -> List.length h <= l)
     /\ Version.meta_get D' "version" (VStr EmptyString) = Ret (VStr c)
     /\ Version.calculate_version D' = Ret c
     /\ Version.verify_version D' = Ret (true, VStr c, c)
     /\ exists h'', Store.verify_version fuel h' d' = Some (h'', Ret (true, RStr c, c))
                    /\ preserved h' h'')
  /\ (prints (VDict (Version.without_meta_version D)) = false ->
      Version.update_version D = Raise int_limit
      /\ exists h', Store.update_version fuel h d = Some (h', Raise int_limit)
                    /\ preserved h h'
                    /\ rep h' d (VDict D) F).
Proof.
  intros Hrep Hwf Hmeta Hd.
  pose proof (VersionFacts.well_formed_dict _ Hwf) as [ND _].
  assert (Hmo : Version.meta_ok D = true).
  { unfold Version.meta_ok. rewrite Hmeta. reflexivity. }
  pose proof (VersionFacts.calculate_ok D ND Hmo) as Hcalc0.
  unfold Notions.hashed in Hcalc0.
  (* the copy *)
  destruct (proj1 (deep_copy_spec h) d (VDict D) F Hrep h fuel) as
    (h1 & d' & F1 & Hcopy & Hrep1 & Hb1 & Hn1 & Hfresh1); [intros l o Hl; exact Hl | exact Hd |].
  (* the fingerprint of the argument *)
  destruct (calculate_spec h h1 fuel d D F Hrep (prefix_preserved h h1 Hb1) Hd)
    as (h2 & Hcalc & Hp2).
  split; intros Hprints; rewrite Hprints in Hcalc0.
  2:{ split.
      - unfold Version.update_version.
        rewrite VersionFacts.deep_copy_items_id, Hcalc0. reflexivity.
      - exists h2.
        assert (Hp : preserved h h2).
        { intros l o Hl.
          apply (prefix_preserved h1 h2 Hp2), (prefix_preserved h h1 Hb1), Hl. }
        split; [| split; [exact Hp | eapply rep_preserved; eauto]].
        unfold Store.update_version. rewrite Hcopy, Hcalc, Hcalc0. reflexivity. }
  set (c := Notions.fingerprint_of (Version.without_meta_version D)) in *.
  pose proof (VersionFacts.update_verify D m c Hwf Hmeta Hcalc0) as (Hu & Hc' & Hv).
  pose proof Hcalc0 as Hc.
  set (D' := dict_set "meta" (VDict (dict_set "version" (VStr c) m)) D) in *.
  assert (Hrep2 : rep h2 d' (VDict D) F1).
  { eapply rep_preserved; [| exact Hrep1]. apply prefix_preserved, Hp2. }
  (* the assignment *)
  inversion Hrep2 as [| | | | | | lr items kvs Fi Hlr Hitems]; subst.
  inversion Hn1 as [| ? ? Hlr_notin Hni]; subst.
  pose proof (rep_items_get h2 "meta" items D Fi Hitems) as Hget.
  rewrite Hmeta in Hget.
  destruct (dict_get "meta" items) as [rm |] eqn:Egm; [| contradiction].
  destruct Hget as (Fm & Hrm & Hsubm).
  inversion Hrm as [| | | | | | lm mitems ? Fm' Hlm Hmitems]; subst.
  assert (Hlm_in : List.In lm Fi).
  { eapply sublist_In; [exact Hsubm | left; reflexivity]. }
  destruct (rep_items_assign h2 "meta" "version" c lm mitems m items D Fi
              Hitems Hni Egm Hmeta Hlm) as (F3 & Hrep3 & Hsub3).
  set (h3 := <[lm := ODict (dict_set "version" (RStr c) mitems)]> h2) in *.
  assert (Hlen2 : List.length h <= List.length h2).
  { apply prefix_len in Hb1. apply prefix_len in Hp2. lia. }
  assert (Hlm_fresh : List.length h <= lm).
  { apply (Hfresh1 lm). right. exact Hlm_in. }
  assert (Hpres : preserved h h3).
  { intros l o Hl. unfold h3. rewrite insert_other.
    - apply (prefix_preserved h1 h2 Hp2), (prefix_preserved h h1 Hb1), Hl.
    - apply lookup_lt_Some in Hl. lia. }
  assert (Hroot : rep h3 (RObj lr) (VDict D') (lr :: F3)).
  { apply rep_dict with (items := items); [| exact Hrep3].
    unfold h3. rewrite insert_other; [exact Hlr |]. intros ->. contradiction. }
  assert (Hupd : Store.update_version fuel h d = Some (h3, Ret (RObj lr))).
  { unfold Store.update_version. rewrite Hcopy, Hcalc, Hc.
    unfold Store.getitem. rewrite Hlr, Egm, bind_Ret.
    unfold Store.setitem. rewrite Hlm. reflexivity. }
  assert (Hn3 : List.NoDup (lr :: F3)).
  { constructor.
    - intros Hin. apply Hlr_notin. eapply sublist_In; eauto.
    - eapply sublist_ListNoDup; eauto. }
  exists h3, (RObj lr), D', (lr :: F3), c.
  split; [exact Hupd |]. split; [exact Hu |]. split; [exact Hpres |].
  split; [eapply rep_preserved; eauto |]. split; [exact Hroot |].
  split; [exact Hn3 |]. split.
  { intros l [<- | Hin].
    - apply (Hfresh1 lr). left. reflexivity.
    - apply (Hfresh1 l). right. eapply sublist_In; eauto. }
  split.
  { unfold Version.meta_get. unfold D'. rewrite VersionFacts.dict_get_set_eq.
    unfold get_attr_get. rewrite bind_Ret, VersionFacts.dict_get_set_eq. reflexivity. }
  split; [exact Hc' |]. split; [exact Hv |].
  (* the verification of the result *)
  assert (Hp4 : h3 `prefix_of` fst (alloc h3 (ODict []))) by apply prefix_alloc.
  destruct (calculate_spec h3 (fst (alloc h3 (ODict []))) fuel (RObj lr) D' (lr :: F3)
              Hroot (prefix_preserved _ _ Hp4)) as (h5 & Hcalc5 & Hp5).
  { etransitivity; [apply depth_set_version; exact Hmeta | exact Hd]. }
  exists h5. split.
  - unfold Store.verify_version.
    change (alloc h3 (ODict [])) with (fst (alloc h3 (ODict [])), RObj (List.length h3)).
    cbv iota beta.
    unfold Store.get_or at 2.
    rewrite (prefix_preserved _ _ Hp4 lr (ODict items)).
    2:{ unfold h3. rewrite insert_other; [exact Hlr |]. intros ->. contradiction. }
    rewrite Egm, bind_Ret. unfold Store.get_or.
    rewrite (prefix_preserved _ _ Hp4 lm (ODict (dict_set "version" (RStr c) mitems))).
    2:{ unfold h3. apply list_lookup_insert_eq. eapply lookup_lt_Some. exact Hlm. }
    rewrite VersionFacts.dict_get_set_eq, Hcalc5, Hc', String.eqb_refl. reflexivity.
  - intros l o Hl. apply (prefix_preserved _ _ Hp5), (prefix_preserved _ _ Hp4), Hl.
Qed.

End Hasher.

End StoreFacts.

(** The round trip on the sample document in its store. *)
Lemma update_then_verify_witness :
  exists h' d' c h'',
    Store.update_version (FR := sample_repr) 4 Samples.doc_store (Store.RObj 3)
    = Some (h', Ret d')
    /\ Store.preserved Samples.doc_store h'
    /\ Store.verify_version (FR := sample_repr) 4 h' d'
       = Some (h'', Ret (true, Store.RStr c, c)).
Proof.
  eassert (H : Store.rep Samples.doc_store (Store.RObj 3) (VDict Samples.doc) _).
  { repeat econstructor. }
  destruct (proj1 (StoreFacts.update_then_verify (FR := sample_repr)
                     Samples.doc_store (Store.RObj 3) Samples.doc
                     [("name", VStr "test"); ("version", VStr "x");
                      ("type", VStr "knowledge")] _ 4 H eq_refl eq_refl
                     ltac:(simpl; lia)) eq_refl)
    as (h' & d' & D' & F' & c & Hu & _ & Hp & _ & _ & _ & _ & _ & _ & _
        & h'' & Hv & _).
  exists h', d', c, h''. split; [exact Hu | split; [exact Hp | exact Hv]].
Defined.

(** The claim as the specification words it fails on a document with an
    integer of 4301 digits: [update_version] returns no document, on the
    content and in the store alike. *)
Lemma update_stops_at_long_integers :
  Shape.well_formed (VDict Samples.long_integer) = true
  /\ Py.dict_get "meta" Samples.long_integer = Some (VDict [("name", VStr "t")])
  /\ Version.update_version (FR := sample_repr) Samples.long_integer
     = Raise Py.int_limit
  /\ (exists h',
         Store.update_version (FR := sample_repr) 2 Samples.long_integer_store
           (Store.RObj 1)
         = Some (h', Raise Py.int_limit))
  /\ ~ (exists d',
          Version.update_version (FR := sample_repr) Samples.long_integer
          = Ret d').
Proof.
  assert (E : Version.update_version (FR := sample_repr) Samples.long_integer
              = Raise Py.int_limit) by (vm_compute; reflexivity).
  split; [reflexivity | split; [reflexivity | split; [exact E | split]]].
  - eexists. vm_compute. reflexivity.
  - intros [d' H]. rewrite E in H. discriminate H.
Qed.


(* ===================================================================== *)
(** * Facts about queries in the store *)
(* ===================================================================== *)

Module StoreQueryFacts.
Import Py Shape Store StoreFacts.
Import Notions.

(** ** A query only adds to the store *)

Lemma step_prefix (h : heap) (current : ref) (segment : string) :
  h `prefix_of` fst (step h current segment).
Proof.
  unfold step. destruct current; try reflexivity.
  destruct (h !! l) as [[d | xs] |]; try reflexivity.
  pose proof (prefix_alloc h (OList (List.filter (named h segment) xs))) as Hp.
  simpl alloc.
  destruct (List.filter (named h segment) xs) as [| m [| m' rest]]; try exact Hp.
  destruct (PyStr.to_int segment) as [idx |]; [| exact Hp].
  destruct ((0 <=? idx)%Z && (idx <? Z.of_nat (List.length xs))%Z)%bool; exact Hp.
Qed.

Lemma traverse_prefix (segments : list string) (h : heap) (current : ref) :
  h `prefix_of` fst (traverse h current segments).
Proof.
  revert h current. induction segments as [| s rest IH]; intros h current; simpl.
  - reflexivity.
  - pose proof (step_prefix h current s) as Hs.
    destruct (step h current s) as [h1 [next |]]; simpl in *; [| exact Hs].
    etransitivity; [exact Hs | apply IH].
Qed.

Section Engine.
Context {FR : FloatRepr}.

Lemma apply_filters_prefix (fuel : nat) (fl : list (string * string))
  (h : heap) (result : ref) (h2 : heap) (r2 : pyres ref) :
  _apply_filters fuel h result fl = Some (h2, r2) -> h `prefix_of` h2.
Proof.
  revert h result. induction fl as [| kp rest IH]; intros h result; simpl.
  - intros [= <- _]. reflexivity.
  - destruct result; try discriminate.
    destruct (h !! l) as [[d | items] |]; try discriminate.
    destruct (keep_all _ items) as [[kept | e] |]; [| | discriminate].
    + intros H. apply IH in H. etransitivity; [| exact H].
      apply (prefix_alloc h).
    + intros [= <- _]. reflexivity.
Qed.

(** After at least one filter the result is a list built by the call. *)
Lemma apply_filters_new (fuel : nat) (fl : list (string * string))
  (h : heap) (result : ref) (h2 : heap) (r2 : ref) :
  fl <> [] ->
  _apply_filters fuel h result fl = Some (h2, Ret r2) ->
  exists l, r2 = RObj l /\ List.length h <= l.
Proof.
  revert h result. induction fl as [| kp rest IH]; intros h result Hne; [contradiction |].
  simpl. destruct result; try discriminate.
  destruct (h !! l) as [[d | items] |]; try discriminate.
  destruct (keep_all _ items) as [[kept | e] |]; [| discriminate | discriminate].
  destruct rest as [| kp' rest'].
  - simpl. intros [= <- <-]. exists (List.length h). split; [reflexivity | lia].
  - intros H. destruct (IH _ _ ltac:(discriminate) H) as (l' & -> & Hl).
    exists l'. split; [reflexivity |]. rewrite length_app in Hl. simpl in Hl. lia.
Qed.

Lemma query_prefix (fuel : nat) (h : heap) (skill_dict : ref) (path : string)
  (filters : option (list (string * string))) (skill_name : string)
  (h' : heap) (res : pyres QueryResult) :
  query fuel h skill_dict path filters skill_name = Some (h', res) ->
  h `prefix_of` h'.
Proof.
  unfold query.
  set (start := if String.eqb skill_name EmptyString then _ else _).
  assert (Hstart : h `prefix_of` fst start).
  { unfold start. destruct (String.eqb skill_name EmptyString); [| reflexivity].
    apply (prefix_alloc h). }
  destruct start as [h0 name]. simpl in Hstart.
  destruct name as [name | e].
  2:{ intros [= <- _]. exact Hstart. }
  pose proof (traverse_prefix (Query.segments_of path) h0 skill_dict) as Ht.
  destruct (traverse h0 skill_dict (Query.segments_of path)) as [h1 [current |]];
    simpl in Ht.
  2:{ intros [= <- _]. etransitivity; eauto. }
  assert (H01 : h `prefix_of` h1) by (etransitivity; eauto).
  destruct (Query.filters_given filters); [| intros [= <- _]; exact H01].
  destruct current; try (intros [= <- _]; exact H01).
  destruct (h1 !! l) as [[d | items] |]; try (intros [= <- _]; exact H01).
  destruct (_apply_filters fuel h1 (RObj l) (Query.filters_or_empty filters))
    as [[h2 [kept | e]] |] eqn:E; [| | discriminate];
    intros [= <- _]; (etransitivity; [exact H01 |]);
    eapply apply_filters_prefix; exact E.
Qed.

End Engine.


(** ** The query in the store computes the query on the content *)

Lemma str_eq_rep (h : heap) (segment : string) (r : ref) (v : Value) (F : list nat) :
  rep h r v F ->
  match r with RStr s => String.eqb s segment | _ => false end = eq_str v segment.
Proof. intros H. inversion H; reflexivity. Qed.

Lemma get_eq_rep (h : heap) (key segment : string) rs kvs F :
  rep_items h rs kvs F ->
  match dict_get key rs with
  | Some (RStr s) => String.eqb s segment
  | _ => false
  end
  = match dict_get key kvs with
    | Some v => eq_str v segment
    | None => false
    end.
Proof.
  intros H. pose proof (rep_items_get h key rs kvs F H) as Hg.
  destruct (dict_get key rs) as [r |], (dict_get key kvs) as [v |];
    try contradiction; [| reflexivity].
  destruct Hg as (F' & Hr & _).
  rewrite <- (str_eq_rep h segment r v F' Hr). destruct r; reflexivity.
Qed.

Lemma named_rep (h : heap) (segment : string) (x : ref) (v : Value) (F : list nat) :
  rep h x v F -> named h segment x = Query.named segment v.
Proof.
  intros H. inversion H; subst; try reflexivity; simpl.
  - rewrite H0. reflexivity.
  - rewrite H0.
    rewrite (get_eq_rep h "name" segment items kvs F0 H1).
    rewrite (get_eq_rep h "id" segment items kvs F0 H1). reflexivity.
Qed.

Lemma rep_all_filter (h : heap) (p : ref -> bool) (q : Value -> bool) rs vs F :
  rep_all h rs vs F ->
  (forall x v G, rep h x v G -> p x = q v) ->
  exists F', rep_all h (List.filter p rs) (List.filter q vs) F'.
Proof.
  intros H Hpq. induction H as [| r v rs vs F1 F2 Hr Hrs [F' IH]]; simpl.
  - exists []. constructor.
  - rewrite (Hpq r v F1 Hr). destruct (q v).
    + exists (F1 ++ F')%list. constructor; assumption.
    + exists F'. exact IH.
Qed.

Lemma rep_all_length (h : heap) rs vs F :
  rep_all h rs vs F -> List.length rs = List.length vs.
Proof. induction 1; simpl; congruence. Qed.

Lemma rep_all_nth (h : heap) rs vs F (i : nat) :
  rep_all h rs vs F ->
  match List.nth_error rs i, List.nth_error vs i with
  | Some x, Some v => exists G, rep h x v G
  | None, None => True
  | _, _ => False
  end.
Proof.
  intros H. revert i. induction H as [| r v rs vs F1 F2 Hr Hrs IH]; intros i.
  - destruct i; exact I.
  - destruct i as [| i]; simpl; [exists F1; exact Hr | apply IH].
Qed.

Lemma depths_In (vs : list Value) (v : Value) :
  List.In v vs -> depth v <= depths vs.
Proof.
  unfold depths. induction vs as [| a vs IH]; simpl; [tauto |].
  intros [-> | H]; [lia | specialize (IH H); lia].
Qed.

Lemma depths_filter (q : Value -> bool) (vs : list Value) :
  depths (List.filter q vs) <= depths vs.
Proof.
  unfold depths. induction vs as [| a vs IH]; simpl; [lia |].
  destruct (q a); simpl; lia.
Qed.

Lemma step_spec (h : heap) (current : ref) (v : Value) (F : list nat)
  (segment : string) :
  rep h current v F ->
  stands (fst (step h current segment)) (snd (step h current segment))
    (Query.step v segment) (depth v).
Proof.
  intros H. inversion H as [| | | | | l xs vs F0 Hl Hall | l items kvs F0 Hl Hitems];
    subst; try exact I.
  - (* a sequence *)
    unfold step, Query.step. rewrite Hl.
    destruct (rep_all_filter h (named h segment) (Query.named segment) xs vs F0 Hall)
      as (F' & Hf).
    { intros x w G Hx. eapply named_rep. exact Hx. }
    pose proof (depths_filter (Query.named segment) vs) as Hdf.
    assert (Hsub : forall w, List.In w (List.filter (Query.named segment) vs) ->
                             depth w <= depths vs).
    { intros w Hw. apply List.filter_In in Hw. apply depths_In. tauto. }
    set (h1 := (h ++ [OList (List.filter (named h segment) xs)])%list).
    assert (Hp1 : preserved h h1).
    { apply prefix_preserved. exists [OList (List.filter (named h segment) xs)]. reflexivity. }
    assert (Hnew : forall G, rep_all h (List.filter (named h segment) xs)
                               (List.filter (Query.named segment) vs) G ->
                             rep h1 (RObj (List.length h))
                               (VList (List.filter (Query.named segment) vs))
                               (List.length h :: G)).
    { intros G HG. apply rep_list with (xs := List.filter (named h segment) xs).
      - unfold h1. apply list_lookup_middle. reflexivity.
      - eapply rep_all_preserved; eauto. }
    simpl alloc. fold h1.
    remember (List.filter (named h segment) xs) as ms eqn:Ems.
    remember (List.filter (Query.named segment) vs) as mvs eqn:Emvs.
    destruct Hf as [| m mv ms' mvs' G1 G2 Hm Hms].
    + (* no match: the index *)
      destruct (PyStr.to_int segment) as [idx |]; [| exact I].
      rewrite (rep_all_length h xs vs F0 Hall).
      destruct ((0 <=? idx)%Z && (idx <? Z.of_nat (List.length vs))%Z)%bool; [| exact I].
      simpl. pose proof (rep_all_nth h xs vs F0 (Z.to_nat idx) Hall) as Hn.
      destruct (List.nth_error xs (Z.to_nat idx)) as [x |] eqn:Ex,
               (List.nth_error vs (Z.to_nat idx)) as [w |] eqn:Ew;
        try contradiction; [| exact I].
      destruct Hn as [G HG]. split.
      * exists G. eapply rep_preserved; eauto.
      * apply List.nth_error_In in Ew. apply depths_In in Ew. simpl. unfold depths in Ew. lia.
    + destruct Hms as [| m2 mv2 ms2 mvs2 G3 G4 Hm2 Hms2].
      * (* one match *)
        simpl. split.
        -- exists G1. eapply rep_preserved; eauto.
        -- specialize (Hsub mv (or_introl eq_refl)). simpl. unfold depths in Hsub. lia.
      * (* several *)
        simpl. split.
        -- exists (List.length h :: (G1 ++ G3 ++ G4))%list. apply Hnew.
           constructor; [exact Hm |]. constructor; assumption.
        -- change (depth (VList (mv :: mv2 :: mvs2)) <= depth (VList vs)).
           simpl. unfold depths in Hdf. simpl in Hdf. lia.
  - (* a mapping *)
    unfold step, Query.step. rewrite Hl. simpl.
    pose proof (rep_items_get h segment items kvs F0 Hitems) as Hg.
    destruct (dict_get segment items) as [r |] eqn:Er,
             (dict_get segment kvs) as [w |] eqn:Ew; try contradiction; [| exact I].
    destruct Hg as (G & HG & _). split; [exists G; exact HG |].
    apply depths_items_get in Ew. unfold depths_items in Ew. lia.
Qed.

Lemma traverse_spec (segments : list string) (h : heap) (current : ref)
  (v : Value) (F : list nat) :
  rep h current v F ->
  stands (fst (traverse h current segments)) (snd (traverse h current segments))
    (Query.traverse v segments) (depth v).
Proof.
  revert h current v F.
  induction segments as [| s rest IH]; intros h current v F H; simpl.
  - split; [exists F; exact H | lia].
  - pose proof (step_spec h current v F s H) as Hs.
    destruct (step h current s) as [h1 [next |]]; simpl in Hs;
      destruct (Query.step v s) as [w |]; try contradiction; [| exact I].
    destruct Hs as [[G HG] Hd].
    specialize (IH h1 next w G HG).
    destruct (traverse h1 next rest) as [h2 [r |]]; simpl in *;
      destruct (Query.traverse w rest) as [w' |]; try contradiction; [| exact I].
    destruct IH as [Hr Hd']. split; [exact Hr | lia].
Qed.


Section Engine.
Context {FR : FloatRepr}.

Lemma text_of_spec (fuel : nat) (h : heap) (r : ref) (v : Value) (F : list nat) :
  rep h r v F -> depth v <= fuel ->
  text_of fuel h r = Some (match v with
                           | VStr s => Ret s
                           | VNone => Ret EmptyString
                           | _ => str v
                           end).
Proof.
  intros H Hd. pose proof (proj1 (reify_spec h) r v F H fuel Hd) as Hr.
  inversion H; subst; try reflexivity; unfold text_of; rewrite Hr; reflexivity.
Qed.

Lemma keeps_spec (fuel : nat) (h : heap) (key pattern : string)
  (x : ref) (v : Value) (F : list nat) :
  rep h x v F -> depth v <= fuel ->
  keeps fuel h key pattern x = Some (Query.keeps key pattern v).
Proof.
  intros H Hd.
  inversion H as [| | | | | l xs vs F0 Hl Hall | l items kvs F0 Hl Hitems];
    subst; try reflexivity.
  - simpl. rewrite Hl. reflexivity.
  - simpl. rewrite Hl.
    pose proof (rep_items_get h key items kvs F0 Hitems) as Hg.
    unfold Query._matches_pattern.
    destruct (dict_get key items) as [r |] eqn:Er,
             (dict_get key kvs) as [w |] eqn:Ew; try contradiction.
    + destruct Hg as (G & HG & _).
      rewrite (text_of_spec fuel h r w G HG).
      * destruct (match w with
                  | VStr s => Ret s
                  | VNone => Ret EmptyString
                  | _ => str w
                  end); reflexivity.
      * apply depths_items_get in Ew. simpl in Hd. unfold depths_items in Ew. lia.
    + reflexivity.
Qed.

Lemma keep_all_spec (fuel : nat) (h : heap) (key pattern : string) rs vs F :
  rep_all h rs vs F -> depths vs <= fuel ->
  match Query.keep_all (Query.keeps key pattern) vs with
  | Ret kvs =>
      exists kept G,
        keep_all (keeps fuel h key pattern) rs = Some (Ret kept)
        /\ rep_all h kept kvs G /\ depths kvs <= depths vs
  | Raise e => keep_all (keeps fuel h key pattern) rs = Some (Raise e)
  end.
Proof.
  intros H. induction H as [| r v rs vs F1 F2 Hr Hrs IH]; intros Hd.
  - exists [], []. split; [reflexivity | split; [constructor | lia]].
  - unfold depths in Hd. simpl in Hd.
    specialize (IH ltac:(unfold depths; lia)).
    cbn [Query.keep_all keep_all].
    rewrite (keeps_spec fuel h key pattern r v F1 Hr) by lia.
    destruct (Query.keeps key pattern v) as [b | e]; [| reflexivity].
    rewrite bind_Ret.
    destruct (Query.keep_all (Query.keeps key pattern) vs) as [kvs | e];
      [| rewrite IH; reflexivity].
    destruct IH as (kept & G & Hk & Hrep & Hdk).
    rewrite Hk, bind_Ret. unfold depths in *. destruct b.
    + exists (r :: kept), (F1 ++ G)%list. split; [reflexivity |].
      split; [constructor; assumption | simpl; lia].
    + exists kept, G. split; [reflexivity |]. split; [exact Hrep | simpl; lia].
Qed.

Lemma apply_filters_spec (fuel : nat) (fl : list (string * string))
  (h : heap) (l : nat) xs vs F :
  h !! l = Some (OList xs) -> rep_all h xs vs F -> depths vs <= fuel ->
  exists h2 res,
    _apply_filters fuel h (RObj l) fl = Some (h2, res)
    /\ match res, Query._apply_filters vs fl with
       | Ret r2, Ret kvs => exists G, rep h2 r2 (VList kvs) G
       | Raise e, Raise e' => e = e'
       | _, _ => False
       end.
Proof.
  revert h l xs vs F.
  induction fl as [| kp rest IH]; intros h l xs vs F Hl Hall Hd.
  - exists h, (Ret (RObj l)). split; [reflexivity |].
    exists (l :: F). eapply rep_list; eauto.
  - cbn [_apply_filters Query._apply_filters]. rewrite Hl.
    pose proof (keep_all_spec fuel h (fst kp) (snd kp) xs vs F Hall Hd) as Hk.
    destruct (Query.keep_all (Query.keeps (fst kp) (snd kp)) vs) as [kvs | e].
    + destruct Hk as (kept & G & Hk & Hrep & Hdk).
      rewrite Hk, bind_Ret.
      apply (IH (h ++ [OList kept])%list (List.length h) kept kvs G).
      * apply list_lookup_middle. reflexivity.
      * eapply rep_all_preserved; [| exact Hrep].
        apply prefix_preserved. exists [OList kept]. reflexivity.
      * lia.
    + rewrite Hk. exists h, (Raise e). split; reflexivity.
Qed.


End Engine.

Lemma no_attribute_get (h h0 : heap) (r : ref) (v : Value) (F : list nat) :
  rep h r v F -> preserved h h0 ->
  no_attribute h0 r "get"
  = AttributeError ("'" +:+ Py.type_name v +:+ "' object has no attribute 'get'").
Proof.
  intros H Hp. unfold no_attribute.
  rewrite (type_name_rep h h0 r v F H Hp). reflexivity.
Qed.

(** The name of the result: the one given, or the one of the metadata. *)
Lemma name_spec (h : heap) (d : ref) (D : Dict) (F : list nat) :
  rep h d (VDict D) F ->
  let h0 := fst (alloc h (ODict [])) in
  match (meta ← get_or h0 d "meta" (snd (alloc h (ODict [])));
         get_or h0 meta "name" (RStr "unknown")),
        Version.meta_get D "name" (VStr "unknown") with
  | Ret r, Ret v => exists G, rep h0 r v G
  | Raise e, Raise e' => e = e'
  | _, _ => False
  end.
Proof.
  intros H. simpl.
  assert (Hp : preserved h (h ++ [ODict []])%list).
  { apply prefix_preserved. exists [ODict []]. reflexivity. }
  inversion H as [| | | | | | l items kvs F0 Hl Hitems]; subst.
  unfold get_or at 2. rewrite (Hp _ _ Hl). rewrite bind_Ret.
  unfold Version.meta_get.
  pose proof (rep_items_get h "meta" items D F0 Hitems) as Hg.
  destruct (dict_get "meta" items) as [r |] eqn:Er,
           (dict_get "meta" D) as [w |] eqn:Ew; try contradiction.
  - destruct Hg as (G & HG & _).
    pose proof (no_attribute_get h (h ++ [ODict []])%list r w G HG Hp) as Hna.
    inversion HG as [| | | | | lm xs vs Fm Hlm Hall | lm ms mvs Fm Hlm Hms];
      subst; simpl; try exact Hna.
    + rewrite (Hp _ _ Hlm). exact Hna.
    + rewrite (Hp _ _ Hlm).
      pose proof (rep_items_get h "name" ms mvs Fm Hms) as Hn.
      destruct (dict_get "name" ms) as [rn |],
               (dict_get "name" mvs) as [wn |]; try contradiction.
      * destruct Hn as (Gn & HGn & _). exists Gn. eapply rep_preserved; eauto.
      * exists []. constructor.
  - simpl. rewrite list_lookup_middle by reflexivity. simpl.
    exists []. constructor.
Qed.

Section Answer.
Context {FR : FloatRepr}.

(** Given enough fuel for the depth of the document, the query in the
    store returns, and its answer stands for the answer of [Query.query]
    on the content. *)
Lemma query_spec (fuel : nat) (h : heap) (d : ref) (D : Dict) (F : list nat)
  (path : string) (filters : option (list (string * string)))
  (skill_name : string) :
  rep h d (VDict D) F -> depth (VDict D) <= fuel ->
  exists h' res,
    query fuel h d path filters skill_name = Some (h', res)
    /\ answers h' res (Query.query D path filters skill_name).
Proof.
  intros H Hd. unfold query, Query.query.
  set (start := if String.eqb skill_name EmptyString then _ else _).
  set (name' := if String.eqb skill_name EmptyString then _ else _).
  assert (Hstart : h `prefix_of` fst start
                   /\ match snd start, name' with
                      | Ret r, Ret v => exists G, rep (fst start) r v G
                      | Raise e, Raise e' => e = e'
                      | _, _ => False
                      end).
  { unfold start, name'. destruct (String.eqb skill_name EmptyString).
    - split; [apply (prefix_alloc h) |]. exact (name_spec h d D F H).
    - split; [reflexivity |]. exists []. constructor. }
  destruct start as [h0 name]. simpl in Hstart. destruct Hstart as [Hp0 Hname].
  destruct name as [name | e], name' as [namev | e']; try contradiction.
  2:{ subst e'. exists h0, (Raise e). split; reflexivity. }
  rewrite bind_Ret. destruct Hname as [Gn Hn].
  assert (H0 : rep h0 d (VDict D) F).
  { eapply rep_preserved; [apply prefix_preserved; exact Hp0 | exact H]. }
  pose proof (traverse_prefix (Query.segments_of path) h0 d) as Hp1.
  pose proof (traverse_spec (Query.segments_of path) h0 d (VDict D) F H0) as Ht.
  destruct (traverse h0 d (Query.segments_of path)) as [h1 [current |]];
    destruct (Query.traverse (VDict D) (Query.segments_of path)) as [cv |];
    simpl in Hp1, Ht; try contradiction.
  2:{ eexists _, _. split; [reflexivity |]. simpl.
      repeat split; try reflexivity.
      - exists Gn. eapply rep_preserved; [apply prefix_preserved; exact Hp1 | exact Hn].
      - exists []. constructor. }
  destruct Ht as [[G HG] Hdc].
  assert (Hn1 : rep h1 name namev Gn).
  { eapply rep_preserved; [apply prefix_preserved; exact Hp1 | exact Hn]. }
  assert (Hplain :
    answers h1 (Ret (mkQueryResult name path true current
                       (Query.filters_or_empty filters)))
      (Ret (Query.mkQueryResult namev path true cv
              (Query.filters_or_empty filters)))).
  { simpl. repeat split; try reflexivity; eauto. }
  destruct (Query.filters_given filters) eqn:Eg.
  2:{ eexists _, _. split; [reflexivity |]. destruct cv; exact Hplain. }
  inversion HG as [| | | | | l xs vs F0 Hl Hall | l items kvs F0 Hl Hitems];
    subst; try (eexists _, _; split; [reflexivity | exact Hplain]).
  - rewrite Hl.
    destruct (apply_filters_spec fuel (Query.filters_or_empty filters)
                h1 l xs vs F0 Hl Hall) as (h2 & r2 & Ha & Hr2).
    { unfold depths. simpl in Hdc, Hd. lia. }
    rewrite Ha.
    destruct r2 as [r2 | e],
      (Query._apply_filters vs (Query.filters_or_empty filters)) as [kvs | e'];
      try contradiction.
    + destruct Hr2 as [G2 Hr2].
      eexists _, _. split; [reflexivity |]. simpl.
      repeat split; try reflexivity.
      * exists Gn. eapply rep_preserved; [| exact Hn1].
        apply prefix_preserved. eapply apply_filters_prefix. exact Ha.
      * exists G2. exact Hr2.
    + subst e'. eexists _, _. split; reflexivity.
  - rewrite Hl. eexists _, _. split; [reflexivity | exact Hplain].
Qed.

(** A list that comes out of the filters is not one of the store the
    query began with. *)
Lemma query_filtered_new (fuel : nat) (h : heap) (d : ref) (path : string)
  (filters : option (list (string * string))) (skill_name : string)
  (h' : heap) (q : QueryResult) (l : nat) (xs : list ref) :
  query fuel h d path filters skill_name = Some (h', Ret q) ->
  Query.filters_given filters = true ->
  value q = RObj l -> h' !! l = Some (OList xs) ->
  List.length h <= l.
Proof.
  unfold query.
  set (start := if String.eqb skill_name EmptyString then _ else _).
  assert (Hstart : h `prefix_of` fst start).
  { unfold start. destruct (String.eqb skill_name EmptyString); [| reflexivity].
    apply (prefix_alloc h). }
  destruct start as [h0 name]. simpl in Hstart.
  destruct name as [name | e]; [| discriminate].
  pose proof (traverse_prefix (Query.segments_of path) h0 d) as Ht.
  destruct (traverse h0 d (Query.segments_of path)) as [h1 [current |]];
    simpl in Ht.
  2:{ intros [= <- <-] _ Hv. discriminate Hv. }
  intros Hq Hg. rewrite Hg in Hq.
  assert (Hsame : Some (h1, Ret (mkQueryResult name path true current
                                  (Query.filters_or_empty filters)) : pyres QueryResult)
                  = Some (h', Ret q) ->
                  (forall o, h1 !! l = Some o -> current = RObj l ->
                             exists y, o = ODict y) ->
                  value q = RObj l -> h' !! l = Some (OList xs) ->
                  List.length h <= l).
  { intros [= <- <-] Hno Hv Hl. simpl in Hv.
    destruct (Hno _ Hl Hv) as [y Hy]. discriminate Hy. }
  destruct current as [| b | z | f | s | lc];
    try (apply Hsame; [exact Hq | intros o _ Hc; discriminate Hc]).
  destruct (h1 !! lc) as [[y | items] |] eqn:Elc.
  - apply Hsame; [exact Hq |]. intros o Ho [= <-]. rewrite Elc in Ho.
    injection Ho as <-. eauto.
  - destruct (_apply_filters fuel h1 (RObj lc) (Query.filters_or_empty filters))
      as [[h2 [kept | e]] |] eqn:E; [| discriminate | discriminate].
    injection Hq as <- <-. simpl. intros -> _.
    destruct (apply_filters_new fuel (Query.filters_or_empty filters)
                h1 (RObj lc) h2 (RObj l)) as (l' & [= <-] & Hlen).
    + destruct filters as [[| kp fl] |]; discriminate.
    + exact E.
    + apply prefix_len in Hstart. apply prefix_len in Ht. lia.
  - apply Hsame; [exact Hq |]. intros o Ho [= <-]. rewrite Elc in Ho. discriminate Ho.
Qed.

(** C10. [QueryEngine.query] and [query_or_raise] never change the
    document they are given. In a store [h] where [d] stands for the
    document [D], with fuel for its depth, the query returns; every object
    of [h] is the same afterwards, so [d] still stands for [D] with the
    same footprint; the answer stands for the one [Query.query] computes
    from the content; a list that went through the filters sits at a
    location [h] did not have, and so is none of the lists of the
    document; and [query_or_raise] leaves the very same store. *)
Theorem query_leaves_document (fuel : nat) (h : heap) (d : ref) (D : Dict)
  (F : list nat) (path : string) (filters : option (list (string * string)))
  (skill_name : string) :
  rep h d (VDict D) F -> depth (VDict D) <= fuel ->
  exists h' res,
    query fuel h d path filters skill_name = Some (h', res)
    /\ h `prefix_of` h' /\ preserved h h'
    /\ rep h' d (VDict D) F
    /\ (forall r v G, rep h r v G -> rep h' r v G)
    /\ answers h' res (Query.query D path filters skill_name)
    /\ (forall q l xs, res = Ret q -> Query.filters_given filters = true ->
          value q = RObj l -> h' !! l = Some (OList xs) ->
          List.length h <= l /\ ~ List.In l F)
    /\ exists res',
         query_or_raise fuel h d path filters skill_name = Some (h', res').
Proof.
  intros H Hd.
  destruct (query_spec fuel h d D F path filters skill_name H Hd)
    as (h' & res & Hq & Hans).
  pose proof (query_prefix fuel h d path filters skill_name h' res Hq) as Hp.
  pose proof (prefix_preserved h h' Hp) as Hpres.
  exists h', res. repeat split; try assumption.
  - eapply rep_preserved; eauto.
  - intros r v G Hr. eapply rep_preserved; eauto.
  - subst res. eapply query_filtered_new; eauto.
  - subst res. intros Hin.
    pose proof (query_filtered_new fuel h d path filters skill_name h' q l xs
                  Hq H1 H2 H3) as Hlen.
    pose proof (proj1 (rep_bound h) d (VDict D) F H l Hin). lia.
  - unfold query_or_raise. rewrite Hq. destruct res; eauto.
Qed.

End Answer.

End StoreQueryFacts.

(** A filtered query on the sample decisions in their store. *)
Lemma query_leaves_document_witness :
  exists h' res,
    Store.query (FR := sample_repr) 3 Samples.decisions_store (Store.RObj 3)
      "decisions" (Some [("when", "*condition A*")]) EmptyString
    = Some (h', res)
    /\ Store.preserved Samples.decisions_store h'
    /\ Notions.answers h' res
         (Query.query (FR := sample_repr) Samples.decisions "decisions"
            (Some [("when", "*condition A*")]) EmptyString).
Proof.
  eassert (H : Store.rep Samples.decisions_store (Store.RObj 3)
                 (VDict Samples.decisions) _).
  { repeat econstructor. }
  destruct (StoreQueryFacts.query_leaves_document (FR := sample_repr) 3
              Samples.decisions_store (Store.RObj 3) Samples.decisions _
              "decisions" (Some [("when", "*condition A*")]) EmptyString
              H ltac:(simpl; lia))
    as (h' & res & Hq & _ & Hp & _ & _ & Ha & _).
  exists h', res. split; [exact Hq | split; [exact Hp | exact Ha]].
Defined.


(* ===================================================================== *)
(** * Further facts about the version hasher *)
(* ===================================================================== *)

Module HasherFacts.
Import Py Shape Version VersionFacts.
Import Notions.

Lemma dict_set_set {A : Type} (k : string) (v w : A) (d : list (string * A)) :
  dict_set k w (dict_set k v d) = dict_set k w d.
Proof.
  induction d as [| [k' v'] d IH]; simpl.
  - rewrite String.eqb_refl. reflexivity.
  - destruct (String.eqb k k') eqn:E; simpl; rewrite E; [reflexivity |].
    rewrite IH. reflexivity.
Qed.

Lemma dict_get_absent_keys {A : Type} (k : string) (d : list (string * A)) :
  dict_get k d = None -> ~ List.In k (keys d).
Proof.
  unfold keys. induction d as [| [k' v'] d IH]; simpl; [tauto |].
  destruct (String.eqb k k') eqn:E; [discriminate |].
  intros H [Hk | Hin]; [| exact (IH H Hin)].
  subst k'. rewrite String.eqb_refl in E. discriminate.
Qed.

Lemma eq_str_true (v : Value) (s : string) : eq_str v s = true <-> v = VStr s.
Proof.
  destruct v; simpl; try (split; [discriminate | intros [=]]).
  rewrite String.eqb_eq. split; [intros -> | intros [= ->]]; reflexivity.
Qed.

Section Hasher.
Context {FR : FloatRepr}.

(** A fingerprint is eight lowercase hexadecimal digits, whatever the
    document. *)
Theorem fingerprint_shape (d : Dict) (c : string) :
  calculate_version d = Ret c ->
  String.length c = 8 /\ PyStr.forallb_str PyStr.is_lower_hex c = true.
Proof.
  unfold calculate_version.
  destruct (_deep_copy_without_version d) as [s | e]; [| discriminate].
  rewrite bind_Ret.
  destruct (Json.dumps (VDict s)) as [normalized | e]; [| discriminate].
  rewrite bind_Ret. intros [= <-]. apply first8_hexdigest.
Qed.

(** A metadata entry that is no mapping: hashing and updating fail on its
    missing [items], verifying on its missing [get]. *)
Theorem meta_must_be_mapping (d : Dict) (v : Value) :
  List.NoDup (keys d) ->
  dict_get "meta" d = Some v ->
  (forall m, v <> VDict m) ->
  let no attr := AttributeError ("'" +:+ type_name v
                                   +:+ "' object has no attribute '" +:+ attr +:+ "'") in
  calculate_version d = Raise (no "items")
  /\ update_version d = Raise (no "items")
  /\ verify_version d = Raise (no "get").
Proof.
  intros ND Hm Hv no.
  assert (Hc : calculate_version d = Raise (no "items")).
  { rewrite (calculate_char d ND), Hm.
    destruct v; try reflexivity. exfalso. eapply Hv. reflexivity. }
  split; [exact Hc | split].
  - unfold update_version. rewrite Hc. reflexivity.
  - unfold verify_version, meta_get. rewrite Hm.
    destruct v; try reflexivity. exfalso. eapply Hv. reflexivity.
Qed.

(** A document without metadata whose integers can be written has a
    fingerprint, never verifies, and cannot be updated: the assignment
    into [result["meta"]] raises [KeyError]. With an integer beyond
    4300 digits, hashing, verifying and updating all raise the
    [ValueError] of the serializer. *)
Theorem no_meta_no_update (d : Dict) :
  List.NoDup (keys d) ->
  dict_get "meta" d = None ->
  (prints (VDict d) = true ->
   exists c,
     calculate_version d = Ret c
     /\ c = fingerprint_of d
     /\ verify_version d = Ret (false, VStr EmptyString, c)
     /\ update_version d = Raise (KeyError "meta"))
  /\ (prints (VDict d) = false ->
      calculate_version d = Raise int_limit
      /\ verify_version d = Raise int_limit
      /\ update_version d = Raise int_limit).
Proof.
  intros ND Hm.
  pose proof (calculate_char d ND) as Hc.
  rewrite Hm, (strip_no_meta d Hm) in Hc. unfold hashed in Hc.
  split; intros Hp; rewrite Hp in Hc.
  - exists (fingerprint_of d).
    split; [exact Hc | split; [reflexivity | split]].
    + unfold verify_version, meta_get. rewrite Hm, Hc. simpl.
      destruct (fingerprint_shape d _ Hc) as [Hlen _].
      destruct (fingerprint_of d); [discriminate Hlen |].
      reflexivity.
    + unfold update_version. rewrite Hc, bind_Ret.
      unfold set_meta_version. simpl.
      assert (Hg : dict_get "meta"
                     (List.map (fun kv => (fst kv, _deep_copy_value (snd kv))) d) = None).
      { clear -Hm. induction d as [| [k v] d IH]; simpl in *; [reflexivity |].
        destruct (String.eqb "meta" k); [discriminate | auto]. }
      rewrite Hg. reflexivity.
  - split; [exact Hc | split].
    + unfold verify_version, meta_get. rewrite Hm, Hc. reflexivity.
    + unfold update_version. rewrite Hc. reflexivity.
Qed.

(** Updating twice is updating once. *)
Theorem update_idempotent (d m d' : Dict) :
  well_formed (VDict d) = true ->
  dict_get "meta" d = Some (VDict m) ->
  update_version d = Ret d' ->
  update_version d' = Ret d'.
Proof.
  intros Hwf Hm Hu.
  destruct (update_returns d d' Hu) as [c Hc].
  destruct (update_verify d m c Hwf Hm Hc) as (Hu' & Hc' & _).
  rewrite Hu' in Hu. injection Hu as <-.
  set (m' := dict_set "version" (VStr c) m) in *.
  set (d' := dict_set "meta" (VDict m') d) in *.
  destruct (well_formed_dict d Hwf) as [ND Hall].
  assert (Hm' : dict_get "meta" d' = Some (VDict m')) by apply dict_get_set_eq.
  assert (ND' : List.NoDup (keys d')).
  { unfold d'. rewrite (keys_dict_set_present "meta" _ _ d Hm). exact ND. }
  unfold update_version. rewrite Hc', bind_Ret.
  assert (Hcopy : List.map (fun kv => (fst kv, _deep_copy_value (snd kv))) d' = d').
  { clear. induction d' as [| [k v] l IH]; simpl; [reflexivity |].
    rewrite deep_copy_value_id, IH. reflexivity. }
  rewrite Hcopy, (set_meta_version_ok d' m' _ Hm').
  unfold d', m'. rewrite !dict_set_set. reflexivity.
Qed.

(** [verify_version] reports valid exactly when the metadata stores the
    recomputed fingerprint as a string; without a stored fingerprint it
    never does. *)
Theorem verify_reads_stored (d m : Dict) (b : bool) (stored : Value) (c : string) :
  dict_get "meta" d = Some (VDict m) ->
  verify_version d = Ret (b, stored, c) ->
  calculate_version d = Ret c
  /\ (b = true <-> dict_get "version" m = Some (VStr c))
  /\ (dict_get "version" m = None -> b = false /\ stored = VStr EmptyString).
Proof.
  intros Hm. unfold verify_version, meta_get. rewrite Hm. simpl.
  destruct (calculate_version d) as [c' | e] eqn:Hc; [| discriminate].
  simpl. intros [= <- <- <-]. split; [reflexivity |].
  destruct (fingerprint_shape d c' Hc) as [Hlen _].
  destruct (dict_get "version" m) as [v |].
  - rewrite eq_str_true. split; [split; congruence | discriminate].
  - split; [| intros _; split; [| reflexivity]].
    + simpl. split; [| discriminate]. intros H. apply String.eqb_eq in H.
      subst c'. discriminate Hlen.
    + simpl. destruct c'; [discriminate Hlen | reflexivity].
Qed.

End Hasher.

End HasherFacts.

(* ===================================================================== *)
(** * Further facts about copies in the store *)
(* ===================================================================== *)

Module CopyFacts.
Import Py Shape Store StoreFacts.
Import Notions.

(** A deep copy stands for the same content and is made of new objects
    only, none met twice and none of them an object of the original,
    which is left as it was. *)
Theorem deep_copy_shares_nothing (fuel : nat) (h : heap) (r : ref) (v : Value)
  (F : list nat) :
  rep h r v F -> depth v <= fuel ->
  exists h' r' F',
    Store._deep_copy_value fuel h r = Some (h', r')
    /\ rep h' r' v F' /\ rep h' r v F
    /\ List.NoDup F' /\ (forall l, List.In l F' -> ~ List.In l F)
    /\ preserved h h'.
Proof.
  intros Hr Hd.
  destruct (proj1 (deep_copy_spec h) r v F Hr h fuel) as (h' & r' & F' & Hc & Hrep & Hb);
    [intros l o Hl; exact Hl | exact Hd |].
  destruct Hb as (Hp & Hn & Hnew).
  exists h', r', F'. repeat split; try assumption.
  - eapply rep_preserved; [apply prefix_preserved; exact Hp | exact Hr].
  - intros l Hl Hin. apply Hnew in Hl.
    pose proof (proj1 (rep_bound h) r v F Hr l Hin). lia.
  - apply prefix_preserved. exact Hp.
Qed.

Section Hasher.
Context {FR : FloatRepr}.

(** [calculate_version] works on a copy: it returns the fingerprint of
    the content and leaves every object of the store as it was. *)
Theorem calculate_leaves_store (fuel : nat) (h : heap) (d : ref) (D : Dict)
  (F : list nat) :
  rep h d (VDict D) F -> depth (VDict D) <= fuel ->
  exists h',
    Store.calculate_version fuel h d = Some (h', Version.calculate_version D)
    /\ preserved h h' /\ rep h' d (VDict D) F.
Proof.
  intros Hr Hd.
  destruct (calculate_spec h h fuel d D F Hr) as (h' & Hc & Hp);
    [intros l o Hl; exact Hl | exact Hd |].
  exists h'. split; [exact Hc | split].
  - apply prefix_preserved. exact Hp.
  - eapply rep_preserved; [apply prefix_preserved; exact Hp | exact Hr].
Qed.

End Hasher.

End CopyFacts.

(** The facts above on the sample document. *)

Lemma fingerprint_shape_witness :
  String.length "879bd259" = 8
  /\ PyStr.forallb_str PyStr.is_lower_hex "879bd259" = true.
Proof.
  apply (HasherFacts.fingerprint_shape (FR := sample_repr) Samples.doc "879bd259").
  vm_compute. reflexivity.
Defined.

Lemma meta_must_be_mapping_witness :
  Version.calculate_version (FR := sample_repr) [("meta", VStr "x")]
  = Raise (AttributeError "'str' object has no attribute 'items'")
  /\ Version.update_version (FR := sample_repr) [("meta", VStr "x")]
     = Raise (AttributeError "'str' object has no attribute 'items'")
  /\ Version.verify_version (FR := sample_repr) [("meta", VStr "x")]
     = Raise (AttributeError "'str' object has no attribute 'get'").
Proof.
  apply (HasherFacts.meta_must_be_mapping (FR := sample_repr)
           [("meta", VStr "x")] (VStr "x")).
  - constructor; [simpl; tauto | constructor].
  - reflexivity.
  - discriminate.
Defined.

Lemma no_meta_no_update_witness :
  exists c,
    Version.calculate_version (FR := sample_repr) Samples.decisions = Ret c
    /\ c = Notions.fingerprint_of (FR := sample_repr) Samples.decisions
    /\ Version.verify_version (FR := sample_repr) Samples.decisions
       = Ret (false, VStr EmptyString, c)
    /\ Version.update_version (FR := sample_repr) Samples.decisions
       = Raise (KeyError "meta").
Proof.
  apply (HasherFacts.no_meta_no_update (FR := sample_repr) Samples.decisions).
  - constructor; [simpl; tauto | constructor].
  - reflexivity.
  - reflexivity.
Defined.

Lemma update_idempotent_witness :
  Version.update_version (FR := sample_repr)
    [("meta", VDict [("name", VStr "test"); ("version", VStr "879bd259");
                     ("type", VStr "knowledge")]);
     ("triggers", VDict [("keywords", VList [VStr "a"; VStr "b"])])]
  = Ret [("meta", VDict [("name", VStr "test"); ("version", VStr "879bd259");
                         ("type", VStr "knowledge")]);
         ("triggers", VDict [("keywords", VList [VStr "a"; VStr "b"])])].
Proof.
  apply (HasherFacts.update_idempotent (FR := sample_repr) Samples.doc
           [("name", VStr "test"); ("version", VStr "x"); ("type", VStr "knowledge")]).
  - reflexivity.
  - reflexivity.
  - vm_compute. reflexivity.
Defined.

Lemma verify_reads_stored_witness :
  Version.calculate_version (FR := sample_repr) Samples.doc = Ret "879bd259"
  /\ (false = true <->
      Py.dict_get "version"
        [("name", VStr "test"); ("version", VStr "x"); ("type", VStr "knowledge")]
      = Some (VStr "879bd259"))
  /\ (Py.dict_get "version"
        [("name", VStr "test"); ("version", VStr "x"); ("type", VStr "knowledge")]
      = None -> false = false /\ VStr "x" = VStr EmptyString).
Proof.
  apply (HasherFacts.verify_reads_stored (FR := sample_repr) Samples.doc
           [("name", VStr "test"); ("version", VStr "x"); ("type", VStr "knowledge")]
           false (VStr "x") "879bd259").
  - reflexivity.
  - vm_compute. reflexivity.
Defined.

Lemma deep_copy_shares_nothing_witness :
  exists h' r' F',
    Store._deep_copy_value 4 Samples.doc_store (Store.RObj 3) = Some (h', r')
    /\ Store.rep h' r' (VDict Samples.doc) F'
    /\ List.NoDup F'
    /\ Store.preserved Samples.doc_store h'.
Proof.
  eassert (H : Store.rep Samples.doc_store (Store.RObj 3) (VDict Samples.doc) _).
  { repeat econstructor. }
  destruct (CopyFacts.deep_copy_shares_nothing 4 Samples.doc_store (Store.RObj 3)
              (VDict Samples.doc) _ H ltac:(simpl; lia))
    as (h' & r' & F' & Hc & Hr & _ & Hn & _ & Hp).
  exists h', r', F'. split; [exact Hc | split; [exact Hr | split; [exact Hn | exact Hp]]].
Defined.

Lemma calculate_leaves_store_witness :
  exists h',
    Store.calculate_version (FR := sample_repr) 4 Samples.doc_store (Store.RObj 3)
    = Some (h', Version.calculate_version (FR := sample_repr) Samples.doc)
    /\ Store.preserved Samples.doc_store h'.
Proof.
  eassert (H : Store.rep Samples.doc_store (Store.RObj 3) (VDict Samples.doc) _).
  { repeat econstructor. }
  destruct (CopyFacts.calculate_leaves_store (FR := sample_repr) 4 Samples.doc_store
              (Store.RObj 3) Samples.doc _ H ltac:(simpl; lia))
    as (h' & Hc & Hp & _).
  exists h'. split; [exact Hc | exact Hp].
Defined.


(* ===================================================================== *)
(** * Further facts about the query engine *)
(* ===================================================================== *)

Module PathFacts.
Import Py Shape Query Paths.
Import Notions.

(** ** Splitting *)

Lemma contains_app (c : ascii) (a b : string) :
  PyStr.contains_char c (a +:+ b)
  = (PyStr.contains_char c a || PyStr.contains_char c b)%bool.
Proof.
  induction a as [| x a IH]; simpl; [reflexivity |].
  rewrite IH, orb_assoc. reflexivity.
Qed.

Lemma append_empty (s : string) : s +:+ EmptyString = s.
Proof.
  induction s as [| c s IH]; [reflexivity |].
  change (String c (s +:+ EmptyString) = String c s). congruence.
Qed.

Lemma split_once_none (sep : ascii) (s : string) :
  split_once sep s = None <-> PyStr.contains_char sep s = false.
Proof.
  induction s as [| c s IH]; simpl; [tauto |].
  rewrite (Ascii.eqb_sym sep c).
  destruct (Ascii.eqb c sep); simpl; [split; discriminate |].
  rewrite <- IH. destruct (split_once sep s) as [[a b] |]; split; congruence.
Qed.

Lemma split_once_some (sep : ascii) (s a b : string) :
  split_once sep s = Some (a, b) ->
  s = a +:+ String sep b /\ PyStr.contains_char sep a = false.
Proof.
  revert a. induction s as [| c s IH]; simpl; intros a; [discriminate |].
  destruct (Ascii.eqb c sep) eqn:E.
  - intros [= <- <-]. apply Ascii.eqb_eq in E. subst c. split; reflexivity.
  - destruct (split_once sep s) as [[a' b'] |]; [| discriminate].
    intros [= <- <-]. destruct (IH a' eq_refl) as [-> Hn]. split; [reflexivity |].
    simpl. rewrite (Ascii.eqb_sym sep c), E, Hn. reflexivity.
Qed.

Lemma split_once_app (sep : ascii) (a b : string) :
  PyStr.contains_char sep a = false ->
  split_once sep (a +:+ String sep b) = Some (a, b).
Proof.
  induction a as [| c a IH]; simpl.
  - intros _. rewrite Ascii.eqb_refl. reflexivity.
  - rewrite (Ascii.eqb_sym sep c). destruct (Ascii.eqb c sep); [discriminate |].
    simpl. intros H. rewrite (IH H). reflexivity.
Qed.

Lemma split_not_nil (sep : ascii) (s : string) : PyStr.split sep s <> [].
Proof.
  destruct s as [| c s]; simpl; [discriminate |].
  destruct (Ascii.eqb c sep); [discriminate |].
  destruct (PyStr.split sep s); discriminate.
Qed.

Lemma split_plain (sep : ascii) (s : string) :
  PyStr.contains_char sep s = false -> PyStr.split sep s = [s].
Proof.
  induction s as [| c s IH]; simpl; [reflexivity |].
  rewrite (Ascii.eqb_sym sep c). destruct (Ascii.eqb c sep); [discriminate |].
  simpl. intros H. rewrite (IH H). reflexivity.
Qed.

Lemma split_app (sep : ascii) (a b : string) :
  PyStr.split sep (a +:+ String sep b)
  = (PyStr.split sep a ++ PyStr.split sep b)%list.
Proof.
  induction a as [| c a IH]; simpl.
  - rewrite Ascii.eqb_refl. reflexivity.
  - destruct (Ascii.eqb c sep); [rewrite IH; reflexivity |].
    rewrite IH. pose proof (split_not_nil sep a) as Hn.
    destruct (PyStr.split sep a); [contradiction | reflexivity].
Qed.

(** ** Query strings *)

(** A query string without a colon is refused; any other is read. *)
Theorem query_string_needs_colon (query : string) :
  if PyStr.contains_char ":" query
  then exists skill_name path filters,
         parse_query_string query = Ret (skill_name, path, filters)
  else parse_query_string query
       = Raise (ValueError
                  ("Invalid query format, expected 'skill:path': " +:+ query)).
Proof.
  unfold parse_query_string.
  destruct (PyStr.contains_char ":" query) eqn:E.
  - destruct (split_once ":" query) as [[n rest] |] eqn:Es.
    + destruct (split_once "?" rest) as [[p fs] |]; eauto.
    + apply split_once_none in Es. congruence.
  - apply split_once_none in E. rewrite E. reflexivity.
Qed.

(** The name ends at the first colon and the path at the first question
    mark after it; what follows is the text of the filters. *)
Theorem query_string_parts (query skill_name path : string)
  (filters : list (string * string)) :
  parse_query_string query = Ret (skill_name, path, filters) ->
  PyStr.contains_char ":" skill_name = false
  /\ PyStr.contains_char "?" path = false
  /\ ((query = skill_name +:+ ":" +:+ path /\ filters = [])
      \/ exists filter_str,
           query = skill_name +:+ ":" +:+ path +:+ "?" +:+ filter_str
           /\ filters = parse_filters (PyStr.split "&" filter_str) []).
Proof.
  unfold parse_query_string.
  destruct (split_once ":" query) as [[n rest] |] eqn:Es; [| discriminate].
  apply split_once_some in Es. destruct Es as [-> Hn].
  destruct (split_once "?" rest) as [[p fs] |] eqn:Ep.
  - intros [= <- <- <-]. apply split_once_some in Ep. destruct Ep as [-> Hp].
    split; [exact Hn | split; [exact Hp |]]. right. exists fs. split; reflexivity.
  - intros [= <- <- <-]. apply split_once_none in Ep.
    split; [exact Hn | split; [exact Ep |]]. left. split; reflexivity.
Qed.

Lemma split_join (sep : ascii) (parts : list string) :
  parts <> [] ->
  Forall (fun p => PyStr.contains_char sep p = false) parts ->
  PyStr.split sep (PyStr.join (String sep EmptyString) parts) = parts.
Proof.
  induction parts as [| p parts IH]; [congruence |].
  intros _ H. inversion H as [| ? ? Hp Hrest]; subst.
  destruct parts as [| q parts].
  - simpl. apply split_plain. exact Hp.
  - change (PyStr.join (String sep EmptyString) (p :: q :: parts))
      with (p +:+ String sep (PyStr.join (String sep EmptyString) (q :: parts))).
    rewrite split_app, (split_plain sep p Hp), IH by (congruence || assumption).
    reflexivity.
Qed.

Lemma dict_set_new {A : Type} (k : string) (v : A) (d : list (string * A)) :
  ~ List.In k (keys d) -> dict_set k v d = (d ++ [(k, v)])%list.
Proof.
  unfold keys. induction d as [| [k' v'] d IH]; simpl; [reflexivity |].
  intros H. destruct (String.eqb k k') eqn:E.
  - apply String.eqb_eq in E. subst. tauto.
  - rewrite IH by tauto. reflexivity.
Qed.

Lemma parse_filters_written (filters acc : list (string * string)) :
  Forall (fun kv => writable kv = true) filters ->
  List.NoDup (keys acc ++ keys filters) ->
  parse_filters (List.map filter_pair filters) acc = (acc ++ filters)%list.
Proof.
  revert acc. induction filters as [| [k v] filters IH]; intros acc Hw ND.
  - simpl. rewrite List.app_nil_r. reflexivity.
  - inversion Hw as [| ? ? Hkv Hrest]; subst.
    unfold writable in Hkv. simpl in Hkv.
    rewrite !andb_true_iff, !negb_true_iff in Hkv. destruct Hkv as [[Hk _] _].
    change (parse_filters (List.map filter_pair ((k, v) :: filters)) acc)
      with (parse_filters (List.map filter_pair filters)
              match split_once "=" (k +:+ String "=" v) with
              | Some (key, value) => dict_set key value acc
              | None => acc
              end).
    rewrite (split_once_app "=" k v Hk).
    assert (Hnew : ~ List.In k (keys acc)).
    { intros Hin. apply List.NoDup_remove_2 in ND. apply ND.
      apply List.in_or_app. left. exact Hin. }
    rewrite (dict_set_new k v acc Hnew), IH; [| exact Hrest |].
    + rewrite <- List.app_assoc. reflexivity.
    + unfold keys in *. rewrite List.map_app. simpl. rewrite <- List.app_assoc.
      exact ND.
Qed.

(** A query string written from a name, a path and filters is read back
    as the same three. *)
Theorem query_string_round_trip (skill_name path : string)
  (filters : list (string * string)) :
  PyStr.contains_char ":" skill_name = false ->
  PyStr.contains_char "?" path = false ->
  Forall (fun kv => writable kv = true) filters ->
  List.NoDup (keys filters) ->
  parse_query_string
    (skill_name +:+ ":" +:+ path
       +:+ match filters with
           | [] => EmptyString
           | _ => "?" +:+ filter_string filters
           end)
  = Ret (skill_name, path, filters).
Proof.
  intros Hn Hp Hw ND. unfold parse_query_string.
  change (skill_name +:+ ":" +:+ ?x) with (skill_name +:+ String ":" x).
  rewrite (split_once_app ":" skill_name _ Hn).
  destruct filters as [| kv filters].
  - rewrite (proj2 (split_once_none "?" (path +:+ EmptyString))).
    + rewrite append_empty. reflexivity.
    + rewrite contains_app, Hp. reflexivity.
  - change (path +:+ "?" +:+ ?x) with (path +:+ String "?" x).
    rewrite (split_once_app "?" path _ Hp).
    unfold filter_string. rewrite split_join.
    + rewrite (parse_filters_written (kv :: filters) [] Hw ND). reflexivity.
    + discriminate.
    + apply List.Forall_map. eapply List.Forall_impl; [| exact Hw].
      intros [k v] H. unfold writable in H. simpl in H.
      rewrite !andb_true_iff, !negb_true_iff in H. destruct H as [[_ Hk] Hv].
      unfold filter_pair. simpl. rewrite !contains_app, Hk, Hv. reflexivity.
Qed.

(** ** Dotted paths *)

(** The segments of [p.q] are those of [p], then those of [q]. *)
Lemma segments_dot (p q : string) :
  p <> EmptyString -> q <> EmptyString ->
  segments_of (p +:+ "." +:+ q) = (segments_of p ++ segments_of q)%list.
Proof.
  intros Hp Hq. change (p +:+ "." +:+ q) with (p +:+ String "." q).
  unfold segments_of.
  destruct p as [| c p]; [congruence |]. destruct q as [| d q]; [congruence |].
  change (String c p +:+ String "." (String d q))
    with (String c (p +:+ String "." (String d q))).
  apply (split_app "." (String c p) (String d q)).
Qed.

(** Looking up [p.q] is looking up [q] in what [p] leads to. *)
Theorem dotted_path_composes (v : Value) (p q : string) :
  p <> EmptyString -> q <> EmptyString ->
  traverse v (segments_of (p +:+ "." +:+ q))
  = match traverse v (segments_of p) with
    | Some w => traverse w (segments_of q)
    | None => None
    end.
Proof.
  intros Hp Hq. rewrite (segments_dot p q Hp Hq).
  apply QueryFacts.traverse_app.
Qed.

(** ** The paths [list_paths] gives *)

Lemma list_paths_cons (k : string) (v : Value) (rest : Dict) (prefix : string) :
  list_paths (VDict ((k, v) :: rest)) prefix
  = (current_path prefix k
       :: match v with
          | VDict _ => list_paths v (current_path prefix k)
          | VList (first :: _) =>
              match first with
              | VDict _ => list_paths first (current_path prefix k +:+ "[0]")
              | _ => []
              end
          | _ => []
          end
       ++ list_paths (VDict rest) prefix)%list.
Proof. reflexivity. Qed.

Lemma traverse_key (d : Dict) (k : string) (post : list string) :
  traverse (VDict d) (k :: post)
  = match dict_get k d with
    | Some next => traverse next post
    | None => None
    end.
Proof. reflexivity. Qed.

Lemma dict_get_keys {A : Type} (k : string) (d : list (string * A)) (v : A) :
  dict_get k d = Some v -> List.In k (keys d).
Proof.
  unfold keys. induction d as [| [k' v'] d IH]; simpl; [discriminate |].
  destruct (String.eqb k k') eqn:E; [| auto].
  apply String.eqb_eq in E. auto.
Qed.

(** Every listed path is made of keys that lead somewhere. *)
Lemma listed_reach (v : Value) :
  keyed v = true -> well_formed v = true ->
  forall prefix p, List.In p (list_paths v prefix) ->
  exists post w,
    post <> [] /\ Forall (fun k => segment_key k = true) post
    /\ traverse v post = Some w /\ p = extend prefix post.
Proof.
  induction v as [| | | | | xs _ | kvs IH] using Shape.Value_ind;
    try (intros _ _ prefix p []).
  induction kvs as [| [k v] rest IHrest]; [intros _ _ prefix p [] |].
  intros Hk Hwf prefix p Hin.
  inversion IH as [| ? ? IHv IHtail]; subst. simpl in IHv.
  assert (Hparts : segment_key k = true /\ keyed v = true
                   /\ keyed (VDict rest) = true).
  { simpl in Hk. rewrite !andb_true_iff in Hk. tauto. }
  destruct Hparts as (Hkey & Hkv & Hkrest).
  destruct (VersionFacts.well_formed_dict _ Hwf) as [ND Hall].
  assert (Hwv : well_formed v = true /\ well_formed (VDict rest) = true
                /\ ~ List.In k (keys rest)).
  { inversion ND as [| ? ? Hn Hd]; subst.
    inversion Hall as [| ? ? Hv Hr]; subst. simpl in Hv.
    split; [exact Hv | split; [| exact Hn]].
    simpl. rewrite andb_true_iff. split.
    - apply VersionFacts.distinct_NoDup. exact Hd.
    - apply List.forallb_forall. apply List.Forall_forall. exact Hr. }
  destruct Hwv as (Hwfv & Hwfrest & Hnotin).
  rewrite list_paths_cons in Hin. destruct Hin as [<- | Hin].
  - exists [k], v. split; [discriminate | split; [| split]].
    + constructor; [exact Hkey | constructor].
    + rewrite traverse_key. simpl. rewrite String.eqb_refl. reflexivity.
    + reflexivity.
  - apply List.in_app_or in Hin. destruct Hin as [Hin | Hin].
    + assert (Hsub : exists items, v = VDict items
                       /\ List.In p (list_paths v (current_path prefix k))).
      { destruct v as [| | | | | ys | items]; try contradiction.
        - destruct ys as [| first ys]; [contradiction |].
          destruct first; try contradiction. discriminate Hkv.
        - eauto. }
      destruct Hsub as (items & -> & Hin').
      destruct (IHv Hkv Hwfv _ _ Hin') as (post & w & Hne & Hseg & Ht & ->).
      exists (k :: post), w. split; [discriminate | split; [| split]].
      * constructor; assumption.
      * rewrite traverse_key. simpl. rewrite String.eqb_refl. exact Ht.
      * reflexivity.
    + destruct (IHrest IHtail Hkrest Hwfrest prefix p Hin)
        as (post & w & Hne & Hseg & Ht & ->).
      exists post, w. split; [exact Hne | split; [exact Hseg | split; [| reflexivity]]].
      destruct post as [| k' post]; [congruence |].
      rewrite traverse_key in Ht |- *.
      destruct (dict_get k' rest) as [next |] eqn:Eg; [| discriminate].
      simpl. destruct (String.eqb k' k) eqn:E.
      * apply String.eqb_eq in E. subst k'.
        exfalso. apply Hnotin. eapply dict_get_keys. exact Eg.
      * rewrite Eg. exact Ht.
Qed.

Lemma split_extend (post : list string) (prefix : string) :
  prefix <> EmptyString ->
  Forall (fun k => segment_key k = true) post ->
  extend prefix post <> EmptyString
  /\ PyStr.split "." (extend prefix post) = (PyStr.split "." prefix ++ post)%list.
Proof.
  revert prefix. induction post as [| k post IH]; intros prefix Hp Hs; simpl.
  - split; [exact Hp | rewrite List.app_nil_r; reflexivity].
  - inversion Hs as [| ? ? Hk Hrest]; subst.
    unfold segment_key in Hk. rewrite andb_true_iff, !negb_true_iff in Hk.
    destruct Hk as [Hdot Hne].
    destruct prefix as [| c prefix]; [congruence |].
    change (current_path (String c prefix) k) with (String c (prefix +:+ String "." k)).
    destruct (IH (String c (prefix +:+ String "." k))) as [H1 H2];
      [discriminate | exact Hrest |].
    split; [exact H1 |]. rewrite H2.
    change (String c (prefix +:+ String "." k)) with (String c prefix +:+ String "." k).
    rewrite split_app, (split_plain "." k Hdot), <- List.app_assoc. reflexivity.
Qed.

Lemma segments_extend (post : list string) :
  Forall (fun k => segment_key k = true) post ->
  segments_of (extend EmptyString post) = post.
Proof.
  destruct post as [| k post]; [reflexivity |].
  intros Hs. inversion Hs as [| ? ? Hk Hrest]; subst.
  unfold segment_key in Hk. rewrite andb_true_iff, !negb_true_iff in Hk.
  destruct Hk as [Hdot Hne].
  assert (Hk : k <> EmptyString).
  { intros ->. rewrite String.eqb_refl in Hne. discriminate. }
  simpl. destruct (split_extend post k Hk Hrest) as [H1 H2].
  unfold segments_of. destruct (extend k post); [congruence |].
  rewrite H2, (split_plain "." k Hdot). reflexivity.
Qed.

Section Listing.
Context {FR : FloatRepr}.

(** In a document whose keys are single segments and whose sequences do
    not begin with a mapping, every path that [list_paths] gives is one
    that [query] finds. *)
Theorem listed_paths_are_found (d : Dict) (p skill_name : string) :
  keyed (VDict d) = true -> well_formed (VDict d) = true ->
  skill_name <> EmptyString ->
  List.In p (list_paths (VDict d) EmptyString) ->
  exists w,
    traverse (VDict d) (segments_of p) = Some w
    /\ query d p None skill_name
       = Ret (mkQueryResult (VStr skill_name) p true w []).
Proof.
  intros Hk Hwf Hname Hin.
  destruct (listed_reach (VDict d) Hk Hwf EmptyString p Hin)
    as (post & w & Hne & Hseg & Ht & ->).
  exists w. rewrite (segments_extend post Hseg). split; [exact Ht |].
  unfold query. rewrite (segments_extend post Hseg), Ht.
  destruct (String.eqb skill_name EmptyString) eqn:E.
  - apply String.eqb_eq in E. contradiction.
  - rewrite bind_Ret. simpl. destruct w; reflexivity.
Qed.

(** ** Filters *)

Lemma forallb_perm {A : Type} (f : A -> bool) (l l' : list A) :
  Permutation l l' -> List.forallb f l = List.forallb f l'.
Proof.
  induction 1; simpl; try congruence.
  - rewrite !andb_assoc, (andb_comm (f y) (f x)). reflexivity.
Qed.

(** The filters select. When they return, what is kept is kept in its
    order and filtering it again changes nothing; two orders of the same
    filters that both return keep the same; and where every value the
    filters look at can be written, every order returns. *)
Theorem filters_select (items : list Value) (filters filters' : list (string * string)) :
  (forall kept,
      _apply_filters items filters = Ret kept ->
      sublist kept items
      /\ _apply_filters kept filters = Ret kept)
  /\ (Permutation filters filters' ->
      forall kept kept',
        _apply_filters items filters = Ret kept ->
        _apply_filters items filters' = Ret kept' ->
        kept = kept')
  /\ (Permutation filters filters' ->
      legible filters items = true ->
      exists kept,
        _apply_filters items filters = Ret kept
        /\ _apply_filters items filters' = Ret kept).
Proof.
  assert (E : Permutation filters filters' ->
              forall x, Notions.passes filters x = Notions.passes filters' x).
  { intros Hperm x. apply forallb_perm. exact Hperm. }
  split; [| split].
  - intros kept H.
    pose proof (QueryFacts.apply_filters_looked _ _ _ H) as Hl.
    apply QueryFacts.apply_filters_ret in H. subst kept. split.
    + clear. induction items as [| x items IH]; simpl; [constructor |].
      destruct (Notions.passes filters x); [apply sublist_skip | apply sublist_cons];
        exact IH.
    + rewrite (QueryFacts.apply_filters_filter _ _ Hl). f_equal.
      clear. induction items as [| x items IH]; simpl; [reflexivity |].
      destruct (Notions.passes filters x) eqn:E; simpl; rewrite ?E, IH; reflexivity.
  - intros Hperm kept kept' H H'.
    apply QueryFacts.apply_filters_ret in H, H'. subst kept kept'.
    apply List.filter_ext. apply E. exact Hperm.
  - intros Hperm Hl. exists (List.filter (Notions.passes filters) items).
    split; [apply QueryFacts.apply_filters_filter; exact Hl |].
    rewrite (List.filter_ext _ _ (E Hperm)).
    apply QueryFacts.apply_filters_filter.
    unfold legible in *. rewrite <- Hl. clear Hl.
    induction items as [| x items IH]; simpl; [reflexivity |].
    rewrite IH. f_equal. symmetry. apply forallb_perm. exact Hperm.
Qed.

(** A path that leads nowhere: the result of [query] is named after the
    metadata, the error of [query_or_raise] after nothing. *)
Theorem missing_path_raises_unknown (d : Dict) (path : string)
  (filters : option (list (string * string))) (n : Value) :
  traverse (VDict d) (segments_of path) = None ->
  Version.meta_get d "name" (VStr "unknown") = Ret n ->
  query d path filters EmptyString
  = Ret (mkQueryResult n path false VNone (filters_or_empty filters))
  /\ query_or_raise d path filters EmptyString
     = Raise (PathNotFoundError path "unknown").
Proof.
  intros Ht Hn.
  assert (Hq : query d path filters EmptyString
               = Ret (mkQueryResult n path false VNone (filters_or_empty filters))).
  { rewrite (QueryFacts.query_not_found d path filters EmptyString Ht).
    unfold Notions.result_name. rewrite String.eqb_refl, Hn. reflexivity. }
  split; [exact Hq |]. unfold query_or_raise. rewrite Hq. reflexivity.
Qed.

End Listing.

End PathFacts.

(** The facts above on sample query strings and documents. *)

Lemma query_string_parts_witness :
  PyStr.contains_char ":" "stripe" = false
  /\ PyStr.contains_char "?" "decisions" = false.
Proof.
  destruct (PathFacts.query_string_parts "stripe:decisions?when=*Charges*"
              "stripe" "decisions" [("when", "*Charges*")] eq_refl)
    as (H1 & H2 & _).
  split; [exact H1 | exact H2].
Defined.

Lemma query_string_round_trip_witness :
  Paths.parse_query_string "stripe:decisions?when=*Charges*&then=x"
  = Ret ("stripe", "decisions", [("when", "*Charges*"); ("then", "x")]).
Proof.
  apply (PathFacts.query_string_round_trip "stripe" "decisions"
           [("when", "*Charges*"); ("then", "x")]).
  - reflexivity.
  - reflexivity.
  - repeat constructor.
  - repeat constructor; simpl; intuition discriminate.
Defined.

Lemma dotted_path_composes_witness :
  Query.traverse (VDict Samples.doc) (Query.segments_of "triggers.keywords")
  = match Query.traverse (VDict Samples.doc) (Query.segments_of "triggers") with
    | Some w => Query.traverse w (Query.segments_of "keywords")
    | None => None
    end.
Proof.
  apply (PathFacts.dotted_path_composes (VDict Samples.doc) "triggers" "keywords");
    discriminate.
Defined.

Lemma listed_paths_are_found_witness :
  exists w,
    Query.traverse (VDict Samples.doc) (Query.segments_of "triggers.keywords") = Some w
    /\ Query.query (FR := sample_repr) Samples.doc "triggers.keywords" None "sample"
       = Ret (Query.mkQueryResult (VStr "sample") "triggers.keywords" true w []).
Proof.
  apply (PathFacts.listed_paths_are_found (FR := sample_repr) Samples.doc
           "triggers.keywords" "sample").
  - reflexivity.
  - reflexivity.
  - discriminate.
  - simpl. tauto.
Defined.

Lemma filters_select_witness :
  exists kept,
    Query._apply_filters (FR := sample_repr)
      [VDict [("when", VStr "condition A"); ("then", VStr "x")];
       VDict [("when", VStr "condition B"); ("then", VStr "y")]]
      [("when", "*condition*"); ("then", "x")]
    = Ret kept
    /\ Query._apply_filters (FR := sample_repr)
         [VDict [("when", VStr "condition A"); ("then", VStr "x")];
          VDict [("when", VStr "condition B"); ("then", VStr "y")]]
         [("then", "x"); ("when", "*condition*")]
       = Ret kept.
Proof.
  apply (PathFacts.filters_select (FR := sample_repr)
           [VDict [("when", VStr "condition A"); ("then", VStr "x")];
            VDict [("when", VStr "condition B"); ("then", VStr "y")]]
           [("when", "*condition*"); ("then", "x")]
           [("then", "x"); ("when", "*condition*")]).
  - apply perm_swap.
  - reflexivity.
Defined.

Lemma missing_path_raises_unknown_witness :
  Query.query (FR := sample_repr) Samples.doc "nowhere" None EmptyString
  = Ret (Query.mkQueryResult (VStr "test") "nowhere" false VNone [])
  /\ Query.query_or_raise (FR := sample_repr) Samples.doc "nowhere" None EmptyString
     = Raise (PathNotFoundError "nowhere" "unknown").
Proof.
  apply (PathFacts.missing_path_raises_unknown (FR := sample_repr) Samples.doc
           "nowhere" None (VStr "test")); reflexivity.
Defined.


(* ===================================================================== *)
(** * Further facts about the state manager *)
(* ===================================================================== *)

Module ManagerFacts.
Import Py State Manager.
Import Notions.

(** ** One entity *)

(** [create] makes the entity valid with the value given, whether it was
    declared or not, and touches no other entity. *)
Theorem create_makes_valid (n : string) (v : Value) (e : Entities) :
  is_valid (create n v e) n = true
  /\ get_value (create n v e) n = v
  /\ forall m, m <> n -> create n v e !! m = e !! m.
Proof.
  unfold is_valid, get_value, create.
  destruct (e !! n) as [ent |]; rewrite ?lookup_insert_eq; simpl;
    (split; [reflexivity | split; [reflexivity |]]);
    intros m Hm; apply lookup_insert_ne; congruence.
Qed.

(** [invalidate] hides the value without dropping it: the entity is not
    valid and [get_value] gives [None], while the value stays in the
    entity and [get_status] still counts it. An entity that is not known
    is not created, and no other entity is touched. *)
Theorem invalidate_hides_value (n : string) (e : Entities) :
  is_valid (invalidate n e) n = false
  /\ get_value (invalidate n e) n = VNone
  /\ value <$> (invalidate n e !! n) = value <$> (e !! n)
  /\ get_status (invalidate n e) !! n
     = (fun ent => (false, snd (status_of ent))) <$> (e !! n)
  /\ (e !! n = None -> invalidate n e = e)
  /\ forall m, m <> n -> invalidate n e !! m = e !! m.
Proof.
  unfold is_valid, get_value, get_status, invalidate.
  destruct (e !! n) as [ent |] eqn:E.
  - rewrite lookup_fmap, !lookup_insert_eq. simpl.
    repeat split; try reflexivity; try discriminate.
    intros m Hm. apply lookup_insert_ne. congruence.
  - rewrite lookup_fmap, E. simpl. repeat split; reflexivity.
Qed.

(** [reset] leaves the same entities, all of them invalid and without a
    value. *)
Theorem reset_clears (e : Entities) (n : string) :
  is_valid (reset e) n = false
  /\ get_value (reset e) n = VNone
  /\ get_status (reset e) !! n = (fun _ => (false, false)) <$> (e !! n)
  /\ dom (reset e) = dom e.
Proof.
  unfold is_valid, get_value, get_status, reset.
  rewrite !lookup_fmap. destruct (e !! n) as [ent |]; simpl;
    (repeat split; try reflexivity); apply dom_fmap_L.
Qed.

(** What [get_status] says of an entity is what [is_valid] and
    [get_value] answer. *)
Theorem status_agrees (e : Entities) (n : string) (b has_value : bool) :
  get_status e !! n = Some (b, has_value) ->
  is_valid e n = b
  /\ (has_value = false -> get_value e n = VNone)
  /\ (b = true -> has_value = true -> get_value e n <> VNone).
Proof.
  unfold get_status, is_valid, get_value. rewrite lookup_fmap.
  destruct (e !! n) as [ent |]; simpl; [| discriminate].
  unfold status_of. intros [= <- <-]. split; [reflexivity | split].
  - destruct (value ent); try discriminate. destruct (valid ent); reflexivity.
  - intros -> Hv. destruct (value ent); try discriminate; congruence.
Qed.

(** ** The declared entities *)

Lemma eq_str_VStr (s n : string) : eq_str (VStr s) n = String.eqb s n.
Proof. reflexivity. Qed.

Lemma initialize_from_spec (defs : list Value) (acc ents : Entities) :
  initialize_from defs acc = Ret ents ->
  forall n,
    (forall ent, ents !! n = Some ent ->
       acc !! n = Some ent \/ ent = mkStateEntity n VNone false)
    /\ (is_Some (ents !! n) <->
        is_Some (acc !! n)
        \/ exists def, find_definition defs n = Ret (Some def)).
Proof.
  revert acc. induction defs as [| def defs IH]; intros acc; simpl.
  - intros [= <-] n. split; [auto |]. split; [auto |].
    intros [H | [def H]]; [exact H | discriminate].
  - destruct (getitem def "name") as [nv | e]; [| discriminate].
    rewrite !bind_Ret.
    destruct (as_name nv) as [s | e] eqn:Es; [| discriminate].
    rewrite bind_Ret. intros H n. rewrite bind_Ret.
    assert (Hnv : nv = VStr s).
    { destruct nv; simpl in Es; try discriminate. congruence. }
    subst nv. rewrite eq_str_VStr.
    destruct (IH _ H n) as [IH1 IH2]. split.
    + intros ent Hent. destruct (IH1 ent Hent) as [Hacc | ->]; [| auto].
      destruct (String.eqb s n) eqn:E.
      * apply String.eqb_eq in E. subst s.
        rewrite lookup_insert_eq in Hacc. right. congruence.
      * rewrite lookup_insert_ne in Hacc; [auto |].
        intros ->. rewrite String.eqb_refl in E. discriminate.
    + rewrite IH2. destruct (String.eqb s n) eqn:E.
      * apply String.eqb_eq in E. subst s. rewrite lookup_insert_eq.
        split; intros _; [right; eauto | left; eauto].
      * rewrite lookup_insert_ne; [reflexivity |].
        intros ->. rewrite String.eqb_refl in E. discriminate.
Qed.

(** Every entity a new manager holds is invalid and has no value, and the
    entities it holds are those whose definition
    [get_entity_definition] finds. *)
Theorem entities_start_invalid (skill : Dict) (ents : Entities) (n : string) :
  _initialize_entities skill = Ret ents ->
  is_valid ents n = false
  /\ get_value ents n = VNone
  /\ (is_Some (ents !! n) <->
      exists def, get_entity_definition skill n = Ret (Some def)).
Proof.
  unfold _initialize_entities, get_entity_definition.
  destruct (section_get skill "state" "entities" (VList [])) as [defs | e];
    [| discriminate].
  rewrite !bind_Ret. destruct (iter defs) as [xs | e]; [| discriminate].
  rewrite !bind_Ret. intros H.
  destruct (initialize_from_spec xs ∅ ents H n) as [H1 H2].
  assert (Hent : forall ent, ents !! n = Some ent ->
                             ent = mkStateEntity n VNone false).
  { intros ent Hent. destruct (H1 ent Hent) as [Hacc | ->]; [| reflexivity].
    rewrite lookup_empty in Hacc. discriminate. }
  unfold is_valid, get_value. split; [| split].
  - destruct (ents !! n) as [ent |]; [| reflexivity].
    rewrite (Hent ent eq_refl). reflexivity.
  - destruct (ents !! n) as [ent |]; [| reflexivity].
    rewrite (Hent ent eq_refl). reflexivity.
  - rewrite H2. rewrite lookup_empty. split; [| auto].
    intros [[x Hx] | Hd]; [discriminate | exact Hd].
Qed.

(** ** The effects of a command *)

Lemma for_each_names (f : string -> Entities -> Entities) (names : list string)
  (e : Entities) :
  for_each f (List.map VStr names) e
  = (Ret tt, List.fold_left (fun acc s => f s acc) names e).
Proof.
  revert e. induction names as [| s names IH]; intros e; simpl; [reflexivity |].
  apply IH.
Qed.

Lemma created_all (names : list string) (v : Value) (e : Entities) (n : string) :
  let e' := List.fold_left (fun acc s => create s v acc) names e in
  is_valid e' n = (among n names || is_valid e n)%bool
  /\ get_value e' n = if among n names then v else get_value e n.
Proof.
  revert e. induction names as [| s names IH]; intros e; simpl; [split; reflexivity |].
  destruct (IH (create s v e)) as [H1 H2]. simpl in H1, H2. rewrite H1, H2.
  destruct (create_makes_valid s v e) as (Hv & Hg & Ho).
  destruct (String.eqb n s) eqn:E.
  - apply String.eqb_eq in E. subst s. rewrite Hv, Hg, orb_true_r.
    simpl. destruct (among n names); split; reflexivity.
  - assert (Hne : n <> s) by (intros ->; rewrite String.eqb_refl in E; discriminate).
    unfold is_valid, get_value. rewrite (Ho n Hne). split; reflexivity.
Qed.

Lemma invalidated_all (names : list string) (e : Entities) (n : string) :
  let e' := List.fold_left (fun acc s => invalidate s acc) names e in
  is_valid e' n = (negb (among n names) && is_valid e n)%bool
  /\ get_value e' n = if among n names then VNone else get_value e n.
Proof.
  revert e. induction names as [| s names IH]; intros e; simpl; [split; reflexivity |].
  destruct (IH (invalidate s e)) as [H1 H2]. simpl in H1, H2. rewrite H1, H2.
  destruct (invalidate_hides_value s e) as (Hv & Hg & _ & _ & _ & Ho).
  destruct (String.eqb n s) eqn:E.
  - apply String.eqb_eq in E. subst s. rewrite Hv, Hg, andb_false_r.
    simpl. destruct (among n names); split; reflexivity.
  - assert (Hne : n <> s) by (intros ->; rewrite String.eqb_refl in E; discriminate).
    unfold is_valid, get_value. rewrite (Ho n Hne). split; reflexivity.
Qed.

(** After the effects of a command an entity it invalidates is invalid,
    also when the command creates it; any other entity it creates is
    valid and holds the result; the rest is as before. *)
Theorem effects_create_then_invalidate (skill : Dict) (command_name : string)
  (cmd result : Value) (creates invalidates : list string) (e : Entities) :
  command_of skill command_name = Ret cmd ->
  listed cmd "creates" = Ret (List.map VStr creates) ->
  listed cmd "invalidates" = Ret (List.map VStr invalidates) ->
  exists e',
    apply_effects skill command_name result e = (Ret tt, e')
    /\ forall n,
         is_valid e' n
         = (negb (among n invalidates) && (among n creates || is_valid e n))%bool
         /\ get_value e' n
            = if among n invalidates then VNone
              else if among n creates then result else get_value e n.
Proof.
  intros Hc Hcr Hin. unfold apply_effects.
  rewrite Hc, Hcr, for_each_names, Hin, for_each_names.
  eexists. split; [reflexivity |]. intros n.
  destruct (invalidated_all invalidates
              (List.fold_left (fun acc s => create s result acc) creates e) n)
    as [H1 H2].
  destruct (created_all creates result e n) as [H3 H4].
  simpl in *. rewrite H1, H2, H3, H4. split; reflexivity.
Qed.

(** What one command creates and does not invalidate, another may
    require: its requirements are then met. *)
Theorem created_meets_requirements (skill commands required : Dict)
  (first second : string) (cmd result : Value)
  (creates invalidates requires : list string) (e e' : Entities) :
  command_of skill first = Ret cmd ->
  listed cmd "creates" = Ret (List.map VStr creates) ->
  listed cmd "invalidates" = Ret (List.map VStr invalidates) ->
  dict_get "commands" skill = Some (VDict commands) ->
  dict_get second commands = Some (VDict required) ->
  dict_get "requires" required = Some (VList (List.map VStr requires)) ->
  (forall r, List.In r requires ->
             among r creates = true /\ among r invalidates = false) ->
  apply_effects skill first result e = (Ret tt, e') ->
  check_requires skill e' second = Ret [].
Proof.
  intros Hc Hcr Hin Hcs Hs Hr Hall He.
  destruct (effects_create_then_invalidate skill first cmd result creates
              invalidates e Hc Hcr Hin) as (e'' & He'' & Hv).
  rewrite He in He''. injection He'' as <-.
  rewrite (ExecutorFacts.check_requires_names skill commands required second
             requires e' Hcs Hs Hr).
  f_equal. unfold Notions.missing_names.
  clear Hr. induction requires as [| r requires IH]; simpl; [reflexivity |].
  destruct (Hall r (or_introl eq_refl)) as [H1 H2].
  rewrite (proj1 (Hv r)), H1, H2. simpl.
  apply IH. intros r' Hr'. apply Hall. right. exact Hr'.
Qed.

End ManagerFacts.

(** The facts above on the entities of the command-line skill. *)

Lemma create_makes_valid_witness :
  State.is_valid (State.create "session" (VStr "s1") Samples.cli_entities) "session"
  = true
  /\ State.get_value (State.create "session" (VStr "s1") Samples.cli_entities) "session"
     = VStr "s1"
  /\ State.create "session" (VStr "s1") Samples.cli_entities !! "data"
     = Samples.cli_entities !! "data".
Proof.
  destruct (ManagerFacts.create_makes_valid "session" (VStr "s1") Samples.cli_entities)
    as (H1 & H2 & H3).
  split; [exact H1 | split; [exact H2 | apply H3; discriminate]].
Defined.

Lemma invalidate_hides_value_witness :
  State.get_value
    (State.invalidate "session"
       (State.create "session" (VStr "s1") Samples.cli_entities)) "session"
  = VNone
  /\ Manager.get_status
       (State.invalidate "session"
          (State.create "session" (VStr "s1") Samples.cli_entities)) !! "session"
     = Some (false, true)
  /\ State.invalidate "ghost" Samples.cli_entities = Samples.cli_entities.
Proof.
  destruct (ManagerFacts.invalidate_hides_value "session"
              (State.create "session" (VStr "s1") Samples.cli_entities))
    as (_ & H2 & _ & H4 & _).
  destruct (ManagerFacts.invalidate_hides_value "ghost" Samples.cli_entities)
    as (_ & _ & _ & _ & H5 & _).
  split; [exact H2 | split; [exact H4 | apply H5; reflexivity]].
Defined.

Lemma status_agrees_witness :
  State.is_valid Samples.cli_entities "session" = false
  /\ (false = false -> State.get_value Samples.cli_entities "session" = VNone)
  /\ (false = true -> false = true ->
      State.get_value Samples.cli_entities "session" <> VNone).
Proof.
  apply (ManagerFacts.status_agrees Samples.cli_entities "session" false false).
  reflexivity.
Defined.

Lemma entities_start_invalid_witness :
  State.is_valid Samples.cli_entities "session" = false
  /\ State.get_value Samples.cli_entities "session" = VNone
  /\ (is_Some (Samples.cli_entities !! "session") <->
      exists def, Manager.get_entity_definition Samples.cli "session" = Ret (Some def)).
Proof.
  apply (ManagerFacts.entities_start_invalid Samples.cli Samples.cli_entities "session").
  reflexivity.
Defined.

Lemma effects_create_then_invalidate_witness :
  exists e',
    State.apply_effects Samples.cli "close" VNone
      (State.create "session" (VStr "s1") Samples.cli_entities) = (Ret tt, e')
    /\ State.is_valid e' "session" = false.
Proof.
  destruct (ManagerFacts.effects_create_then_invalidate Samples.cli "close"
              (VDict [("syntax", VStr "tool close");
                      ("invalidates", VList [VStr "session"; VStr "data"])])
              VNone [] ["session"; "data"]
              (State.create "session" (VStr "s1") Samples.cli_entities)
              eq_refl eq_refl eq_refl) as (e' & He & Hv).
  exists e'. split; [exact He |]. rewrite (proj1 (Hv "session")). reflexivity.
Defined.

Lemma created_meets_requirements_witness :
  State.check_requires Samples.cli
    (snd (State.apply_effects Samples.cli "init" (VStr "s1") Samples.cli_entities))
    "fetch"
  = Ret [].
Proof.
  eapply (ManagerFacts.created_meets_requirements Samples.cli _ _ "init" "fetch"
            _ (VStr "s1") ["session"] [] ["session"] Samples.cli_entities).
  - reflexivity.
  - reflexivity.
  - reflexivity.
  - reflexivity.
  - reflexivity.
  - reflexivity.
  - intros r [<- | []]. split; reflexivity.
  - reflexivity.
Defined.


(* ===================================================================== *)
(** * Further facts about the executor *)
(* ===================================================================== *)

Module RunFacts.
Import Py State Executor Command ManagerFacts.
Import Notions.

Section Execute.
Context {FR : FloatRepr} {SP : Subprocess}.

(** What a successful dry run comes from. *)
Lemma preview_inv (skill : Dict) (command_path : string) (args : option Dict)
  (timeout : Value) (w w1 : World) (r : ExecutionResult) :
  execute skill command_path args true timeout w = (Ret r, w1) ->
  success r = true ->
  exists cmd_def,
    section_get skill "commands" command_path VNone = Ret cmd_def
    /\ truthy cmd_def = true
    /\ check_requires skill (entities w) command_path = Ret []
    /\ _build_command skill cmd_def (match args with Some a => a | None => [] end)
       = Ret (command r)
    /\ w1 = w.
Proof.
  unfold execute. cbv zeta.
  destruct (section_get skill "commands" command_path VNone) as [cmd_def | e];
    [| discriminate].
  destruct (truthy cmd_def) eqn:Et; simpl.
  2:{ intros [= <- <-]. discriminate. }
  destruct (check_requires skill (entities w) command_path) as [[| first rest] | e];
    try discriminate.
  destruct (_build_command skill cmd_def _) as [cmd_str | e] eqn:Eb; [| discriminate].
  intros [= <- <-] _. exists cmd_def. repeat split; try reflexivity; assumption.
Qed.

(** [execute] calls the process at most once, and never for a dry run;
    the entities change only after a call that returned zero. *)
Theorem run_at_most_once (skill : Dict) (command_path : string)
  (args : option Dict) (dry_run : bool) (timeout : Value) (w w' : World)
  (res : pyres ExecutionResult) :
  execute skill command_path args dry_run timeout w = (res, w') ->
  w' = w
  \/ (dry_run = false
      /\ exists cmd_str,
           calls w' = (calls w ++ [(cmd_str, timeout)])%list
           /\ (entities w' = entities w
               \/ exists out err,
                    subprocess_run (calls w) cmd_str timeout = Completed 0 out err)).
Proof.
  unfold execute. cbv zeta.
  destruct (section_get skill "commands" command_path VNone) as [cmd_def | e];
    [| intros [= _ <-]; auto].
  destruct (negb (truthy cmd_def)); [intros [= _ <-]; auto |].
  destruct (check_requires skill (entities w) command_path) as [[| first rest] | e];
    try (intros [= _ <-]; auto).
  destruct (_build_command skill cmd_def _) as [cmd_str | e];
    [| intros [= _ <-]; auto].
  destruct dry_run; [intros [= _ <-]; auto |].
  intros H. right. split; [reflexivity |]. exists cmd_str.
  unfold run in H.
  destruct (subprocess_run (calls w) cmd_str timeout) as [rc out err | out | m] eqn:Es;
    [| destruct (str timeout); injection H as _ <-; simpl; auto
     | injection H as _ <-; simpl; auto].
  destruct (Z.eqb rc 0) eqn:Erc; [| injection H as _ <-; simpl; auto].
  apply Z.eqb_eq in Erc. subst rc.
  assert (Hc : calls w' = (calls w ++ [(cmd_str, timeout)])%list).
  { simpl in H.
    destruct (apply_effects skill command_path (VStr out) (entities w)) as [[u | e] ents];
      [| destruct e]; injection H as _ <-; reflexivity. }
  split; [exact Hc | right; eauto].
Qed.

(** The command a dry run shows is the command a run passes to the
    process; when the process does not return zero, times out or cannot
    be started, the result says so and the entities are as before. The
    message of a timeout writes the timeout, and fails where it cannot
    be written. *)
Theorem preview_is_what_runs (skill : Dict) (command_path : string)
  (args : option Dict) (timeout : Value) (w w1 : World) (r : ExecutionResult) :
  execute skill command_path args true timeout w = (Ret r, w1) ->
  success r = true ->
  exists res w',
    execute skill command_path args false timeout w = (res, w')
    /\ calls w' = (calls w ++ [(command r, timeout)])%list
    /\ (forall rc out err,
          subprocess_run (calls w) (command r) timeout = Completed rc out err ->
          rc <> 0%Z ->
          res = Ret (mkExecutionResult false out err rc (command r))
          /\ entities w' = entities w)
    /\ (forall out,
          subprocess_run (calls w) (command r) timeout = TimeoutExpired out ->
          res = (seconds ← str timeout;
                 Ret (mkExecutionResult false
                        (match out with Some o => o | None => EmptyString end)
                        ("Command timed out after " +:+ seconds +:+ "s")
                        (-1) (command r)))
          /\ entities w' = entities w)
    /\ (forall message,
          subprocess_run (calls w) (command r) timeout = Failed message ->
          res = Ret (mkExecutionResult false EmptyString message (-1) (command r))
          /\ entities w' = entities w).
Proof.
  intros Hdry Hs.
  destruct (preview_inv skill command_path args timeout w w1 r Hdry Hs)
    as (cmd_def & Hdef & Ht & Hreq & Hb & _).
  unfold execute. rewrite Hdef, Ht, Hreq, Hb. simpl negb. cbv iota.
  unfold run.
  destruct (subprocess_run (calls w) (command r) timeout) as [rc out err | out | m].
  - destruct (Z.eqb rc 0) eqn:Erc.
    + apply Z.eqb_eq in Erc. subst rc. simpl.
      destruct (apply_effects skill command_path (VStr out) (entities w))
        as [[u | e] ents]; [| destruct e];
        (eexists _, _; split; [reflexivity |]; split; [reflexivity |];
         split; [| split]; [intros ? ? ? [= <- _ _] Hne; congruence
                           | intros ? [=] | intros ? [=]]).
    + eexists _, _. split; [reflexivity |]. split; [reflexivity |].
      split; [| split]; [| intros ? [=] | intros ? [=]].
      intros ? ? ? [= <- <- <-] _. split; reflexivity.
  - destruct (str timeout) as [seconds | e];
      (eexists _, _; split; [reflexivity |]; split; [reflexivity |];
       split; [| split]; [intros ? ? ? [=] | | intros ? [=]];
       intros ? [= <-]; split; reflexivity).
  - eexists _, _. split; [reflexivity |]. split; [reflexivity |].
    split; [| split]; [intros ? ? ? [=] | intros ? [=] |].
    intros ? [= <-]. split; reflexivity.
Qed.

(** After a run that returned zero, the entities the command creates hold
    what the process printed, those it invalidates are invalid, and the
    others are as before. *)
Theorem successful_run_applies_effects (skill : Dict) (command_path : string)
  (args : option Dict) (timeout : Value) (w w1 : World) (r : ExecutionResult)
  (cmd : Value) (creates invalidates : list string) (out err : string) :
  execute skill command_path args true timeout w = (Ret r, w1) ->
  success r = true ->
  subprocess_run (calls w) (command r) timeout = Completed 0 out err ->
  command_of skill command_path = Ret cmd ->
  listed cmd "creates" = Ret (List.map VStr creates) ->
  listed cmd "invalidates" = Ret (List.map VStr invalidates) ->
  exists w',
    execute skill command_path args false timeout w
    = (Ret (mkExecutionResult true out err 0 (command r)), w')
    /\ calls w' = (calls w ++ [(command r, timeout)])%list
    /\ forall n,
         is_valid (entities w') n
         = (negb (among n invalidates)
            && (among n creates || is_valid (entities w) n))%bool
         /\ get_value (entities w') n
            = if among n invalidates then VNone
              else if among n creates then VStr out
                   else get_value (entities w) n.
Proof.
  intros Hdry Hs Hrun Hc Hcr Hin.
  destruct (preview_inv skill command_path args timeout w w1 r Hdry Hs)
    as (cmd_def & Hdef & Ht & Hreq & Hb & _).
  destruct (effects_create_then_invalidate skill command_path cmd (VStr out)
              creates invalidates (entities w) Hc Hcr Hin) as (e' & He & Hv).
  unfold execute. rewrite Hdef, Ht, Hreq, Hb. simpl negb. cbv iota.
  unfold run. rewrite Hrun. simpl. rewrite He.
  eexists. split; [reflexivity |]. split; [reflexivity |]. exact Hv.
Qed.

(** [build_command] gives the command of the dry run, and gives it
    without a look at the requirements. *)
Theorem build_command_is_preview (skill : Dict) (command_path : string)
  (args : option Dict) (timeout : Value) (w : World) :
  (forall r w1,
      execute skill command_path args true timeout w = (Ret r, w1) ->
      success r = true ->
      build_command skill command_path args = Ret (command r))
  /\ (forall cmd_str,
        build_command skill command_path args = Ret cmd_str ->
        match check_requires skill (entities w) command_path with
        | Ret [] =>
            execute skill command_path args true timeout w
            = (Ret (mkExecutionResult true
                      ("[DRY RUN] Would execute: " +:+ cmd_str)
                      EmptyString 0 cmd_str), w)
        | Ret (first :: rest) =>
            execute skill command_path args true timeout w
            = (Raise (InvalidStateError first (first :: rest)), w)
        | Raise e =>
            execute skill command_path args true timeout w = (Raise e, w)
        end).
Proof.
  split.
  - intros r w1 Hdry Hs.
    destruct (preview_inv skill command_path args timeout w w1 r Hdry Hs)
      as (cmd_def & Hdef & Ht & _ & Hb & _).
    unfold build_command. cbv zeta. rewrite Hdef, bind_Ret, Ht. exact Hb.
  - intros cmd_str. unfold build_command, execute. cbv zeta.
    destruct (section_get skill "commands" command_path VNone) as [cmd_def | e];
      [| discriminate].
    rewrite bind_Ret. destruct (negb (truthy cmd_def)); [discriminate |].
    intros Hb. rewrite Hb.
    destruct (check_requires skill (entities w) command_path) as [[| first rest] | e];
      reflexivity.
Qed.

End Execute.

End RunFacts.

(* ===================================================================== *)
(** * Further facts about the loader *)
(* ===================================================================== *)

Module LoadFacts.
Import Py Shape Loader.
Import Notions.

Section Load.
Context {FR : FloatRepr} {Skill : Type} {C : Collaborators Skill}.

(** A document that went through [update_version] and that the schema
    accepts is loaded without a warning, strictly or not. *)
Theorem updated_document_loads_clean (d m d' : Dict) (strict_version : bool)
  (source : string) :
  well_formed (VDict d) = true ->
  dict_get "meta" d = Some (VDict m) ->
  Version.update_version d = Ret d' ->
  schema_errors d' = [] ->
  load_dict strict_version d' source = (from_dict d', []).
Proof.
  intros Hwf Hm Hu Hs.
  destruct (VersionFacts.update_returns d d' Hu) as [c Hc].
  destruct (VersionFacts.update_verify d m c Hwf Hm Hc) as (Hu' & _ & Hv).
  rewrite Hu' in Hu. injection Hu as <-.
  unfold load_dict. rewrite Hs, Hv. reflexivity.
Qed.

(** What the strict loader loads, the default loader loads without a
    warning; and what the default loader answers without a warning is the
    answer of the strict loader. *)
Theorem strict_and_default_agree (d : Dict) (source : string) :
  (forall s warnings,
      load_dict true d source = (Ret s, warnings) ->
      warnings = [] /\ load_dict default_strict_version d source = (Ret s, []))
  /\ (forall res,
        load_dict default_strict_version d source = (res, []) ->
        load_dict true d source = (res, [])).
Proof.
  unfold load_dict, default_strict_version.
  destruct (schema_errors d) as [| error errors].
  - destruct (Version.verify_version d) as [[[valid stored] calculated] | e].
    + destruct valid.
      * split; [intros s ws [= <- <-]; auto | auto].
      * destruct (str stored) as [written | e].
        -- split; [intros s ws [=] | intros res [=]].
        -- split; [intros s ws [=] | auto].
    + split; [intros s ws [=] | auto].
  - split; [intros s ws [=] | auto].
Qed.

End Load.

End LoadFacts.

(** The facts above on the command-line skill and the sample document. *)

Lemma run_at_most_once_witness :
  Samples.cli_world = Samples.cli_world
  \/ (true = false
      /\ exists cmd_str,
           Executor.calls Samples.cli_world
           = (Executor.calls Samples.cli_world ++ [(cmd_str, VNone)])%list
           /\ (Executor.entities Samples.cli_world
               = Executor.entities Samples.cli_world
               \/ exists out err,
                    Executor.subprocess_run (Subprocess := Samples.process)
                      (Executor.calls Samples.cli_world) cmd_str VNone
                    = Executor.Completed 0 out err)).
Proof.
  apply (RunFacts.run_at_most_once (FR := sample_repr) (SP := Samples.process)
           Samples.cli "init" None true VNone Samples.cli_world Samples.cli_world
           (Ret (Executor.mkExecutionResult true
                   "[DRY RUN] Would execute: tool init" EmptyString 0 "tool init"))).
  reflexivity.
Defined.

Lemma preview_is_what_runs_witness :
  exists res w',
    Executor.execute (FR := sample_repr) (SP := Samples.process)
      Samples.cli "init" None false VNone Samples.cli_world = (res, w')
    /\ Executor.calls w' = [("tool init", VNone)].
Proof.
  destruct (RunFacts.preview_is_what_runs (FR := sample_repr) (SP := Samples.process)
              Samples.cli "init" None VNone Samples.cli_world Samples.cli_world
              (Executor.mkExecutionResult true
                 "[DRY RUN] Would execute: tool init" EmptyString 0 "tool init")
              eq_refl eq_refl) as (res & w' & H1 & H2 & _).
  exists res, w'. split; [exact H1 | exact H2].
Defined.

Lemma successful_run_applies_effects_witness :
  exists w',
    Executor.execute (FR := sample_repr) (SP := Samples.process)
      Samples.cli "init" None false VNone Samples.cli_world
    = (Ret (Executor.mkExecutionResult true "out" EmptyString 0 "tool init"), w')
    /\ State.is_valid (Executor.entities w') "session" = true
    /\ State.get_value (Executor.entities w') "session" = VStr "out".
Proof.
  destruct (RunFacts.successful_run_applies_effects
              (FR := sample_repr) (SP := Samples.process)
              Samples.cli "init" None VNone Samples.cli_world Samples.cli_world
              (Executor.mkExecutionResult true
                 "[DRY RUN] Would execute: tool init" EmptyString 0 "tool init")
              (VDict [("syntax", VStr "tool init [--config <path>]");
                      ("creates", VList [VStr "session"])])
              ["session"] [] "out" EmptyString
              eq_refl eq_refl eq_refl eq_refl eq_refl eq_refl)
    as (w' & H1 & _ & Hv).
  exists w'. split; [exact H1 |].
  destruct (Hv "session") as [Hvalid Hvalue].
  split; [rewrite Hvalid | rewrite Hvalue]; reflexivity.
Defined.

Lemma build_command_is_preview_witness :
  Command.build_command (FR := sample_repr) Samples.cli "init" None = Ret "tool init".
Proof.
  apply (proj1 (RunFacts.build_command_is_preview
                  (FR := sample_repr) (SP := Samples.process)
                  Samples.cli "init" None VNone Samples.cli_world)
           (Executor.mkExecutionResult true
              "[DRY RUN] Would execute: tool init" EmptyString 0 "tool init")
           Samples.cli_world); reflexivity.
Defined.

Lemma updated_document_loads_clean_witness :
  Loader.load_dict (FR := sample_repr) (C := Samples.collaborators) true
    [("meta", VDict [("name", VStr "test"); ("version", VStr "879bd259");
                     ("type", VStr "knowledge")]);
     ("triggers", VDict [("keywords", VList [VStr "a"; VStr "b"])])] "<dict>"
  = (Ret [("meta", VDict [("name", VStr "test"); ("version", VStr "879bd259");
                          ("type", VStr "knowledge")]);
          ("triggers", VDict [("keywords", VList [VStr "a"; VStr "b"])])], []).
Proof.
  apply (LoadFacts.updated_document_loads_clean
           (FR := sample_repr) (C := Samples.collaborators) Samples.doc
           [("name", VStr "test"); ("version", VStr "x"); ("type", VStr "knowledge")]).
  - reflexivity.
  - reflexivity.
  - vm_compute. reflexivity.
  - reflexivity.
Defined.

Lemma strict_and_default_agree_witness :
  Loader.load_dict (FR := sample_repr) (C := Samples.collaborators)
    Loader.default_strict_version
    [("meta", VDict [("name", VStr "test"); ("version", VStr "f5a6551d");
                     ("type", VStr "knowledge")])] "<dict>"
  = (Ret [("meta", VDict [("name", VStr "test"); ("version", VStr "f5a6551d");
                          ("type", VStr "knowledge")])], []).
Proof.
  apply (proj1 (LoadFacts.strict_and_default_agree
                  (FR := sample_repr) (C := Samples.collaborators)
                  [("meta", VDict [("name", VStr "test"); ("version", VStr "f5a6551d");
                                   ("type", VStr "knowledge")])] "<dict>")
           [("meta", VDict [("name", VStr "test"); ("version", VStr "f5a6551d");
                            ("type", VStr "knowledge")])] []).
  vm_compute. reflexivity.
Defined.


(* ===================================================================== *)
(** * Facts about the check of internal consistency *)
(* ===================================================================== *)

Module ConsistencyFacts.
Import Py State Consistency.
Import Notions.

Lemma listed_names (cmd : Dict) (verb : string) (rs : list string) :
  dict_get verb cmd = Some (VList (List.map VStr rs)) ->
  listed (VDict cmd) verb = Ret (List.map VStr rs).
Proof. intros H. unfold listed. simpl. rewrite H. reflexivity. Qed.

(** The names the check collects are the names a new manager holds. *)
Lemma names_of_initialize (xs : list Value) (names : list string)
  (acc ents : Entities) :
  names_of "name" xs = Ret names ->
  initialize_from xs acc = Ret ents ->
  forall n, is_Some (ents !! n) <-> is_Some (acc !! n) \/ declared n names = true.
Proof.
  revert names acc. induction xs as [| x xs IH]; intros names acc; simpl.
  - intros [= <-] [= <-] n. simpl. intuition discriminate.
  - destruct (getitem x "name") as [nv | e]; [| discriminate].
    rewrite !bind_Ret. destruct (as_name nv) as [s | e]; [| discriminate].
    rewrite !bind_Ret.
    destruct (names_of "name" xs) as [rest | e] eqn:En; [| discriminate].
    rewrite bind_Ret. intros [= <-] Hi n.
    rewrite (IH rest _ eq_refl Hi n). unfold declared. simpl.
    destruct (String.eqb n s) eqn:E.
    + apply String.eqb_eq in E. subst s. rewrite lookup_insert_eq.
      split; intros _; [right; reflexivity | left; eauto].
    + rewrite lookup_insert_ne; [reflexivity |].
      intros ->. rewrite String.eqb_refl in E. discriminate.
Qed.

Section Check.
Context {FR : FloatRepr}.

Lemma references_grow (cmd_name verb : string) (names : list string)
  (ents : list Value) (errs errs' : list string) :
  references cmd_name verb names ents errs = Ret errs' ->
  exists added,
    errs' = (errs ++ added)%list
    /\ (some_names names = false -> added = [])
    /\ forall r, List.In (VStr r) ents -> some_names names = true ->
         (declared r names = false ->
          List.In ("Command '" +:+ cmd_name +:+ "' " +:+ verb
                     +:+ " unknown state entity '" +:+ r +:+ "'") added)
         /\ (added = [] -> declared r names = true).
Proof.
  revert errs. induction ents as [| entity rest IH]; intros errs; simpl.
  - intros [= <-]. exists []. rewrite List.app_nil_r.
    split; [reflexivity | split; [reflexivity | intros r []]].
  - destruct (not_in entity names) as [unknown | e] eqn:En; [| discriminate].
    rewrite bind_Ret.
    destruct (unknown && some_names names)%bool eqn:Ec.
    + destruct (unknown_entity cmd_name verb entity) as [message | e] eqn:Em;
        [| discriminate].
      rewrite bind_Ret. intros H.
      destruct (IH _ H) as (added & -> & Hnone & Hall).
      exists (message :: added).
      rewrite <- List.app_assoc. split; [reflexivity | split].
      * intros Hs. rewrite Hs, andb_false_r in Ec. discriminate.
      * intros r [-> | Hin] Hs.
        -- injection Em as <-.
           split; [intros _; left; reflexivity | discriminate].
        -- destruct (Hall r Hin Hs) as [H1 _].
           split; [intros Hd; right; exact (H1 Hd) | discriminate].
    + intros H. destruct (IH _ H) as (added & -> & Hnone & Hall).
      exists added. split; [reflexivity | split; [exact Hnone |]].
      intros r [-> | Hin] Hs; [| exact (Hall r Hin Hs)].
      simpl in En. injection En as <-. rewrite Hs, andb_true_r in Ec.
      apply negb_false_iff in Ec. unfold declared. rewrite Ec.
      split; [discriminate | reflexivity].
Qed.

Lemma commands_grow (items : Dict) (names : list string)
  (errs errs' : list string) :
  commands_loop items names errs = Ret errs' ->
  exists added,
    errs' = (errs ++ added)%list
    /\ (some_names names = false -> added = [])
    /\ forall c cmd verb rs r,
         List.In (c, VDict cmd) items -> List.In verb verbs ->
         dict_get verb cmd = Some (VList (List.map VStr rs)) ->
         List.In r rs -> some_names names = true ->
         (declared r names = false ->
          List.In ("Command '" +:+ c +:+ "' " +:+ verb
                     +:+ " unknown state entity '" +:+ r +:+ "'") added)
         /\ (added = [] -> declared r names = true).
Proof.
  revert errs. induction items as [| [cmd_name cmd] rest IH]; intros errs; simpl.
  - intros [= <-]. exists []. rewrite List.app_nil_r.
    split; [reflexivity | split; [reflexivity |]].
    intros c cmd verb rs r [].
  - destruct (listed cmd "requires") as [requires | e] eqn:E1; [| discriminate].
    rewrite bind_Ret.
    destruct (references cmd_name "requires" names requires errs)
      as [errs1 | e] eqn:R1; [| discriminate].
    rewrite bind_Ret.
    destruct (listed cmd "creates") as [creates | e] eqn:E2; [| discriminate].
    rewrite bind_Ret.
    destruct (references cmd_name "creates" names creates errs1)
      as [errs2 | e] eqn:R2; [| discriminate].
    rewrite bind_Ret.
    destruct (listed cmd "invalidates") as [invalidates | e] eqn:E3; [| discriminate].
    rewrite bind_Ret.
    destruct (references cmd_name "invalidates" names invalidates errs2)
      as [errs3 | e] eqn:R3; [| discriminate].
    rewrite bind_Ret. intros H.
    destruct (references_grow _ _ _ _ _ _ R1) as (a1 & -> & N1 & A1).
    destruct (references_grow _ _ _ _ _ _ R2) as (a2 & -> & N2 & A2).
    destruct (references_grow _ _ _ _ _ _ R3) as (a3 & -> & N3 & A3).
    destruct (IH _ H) as (a4 & -> & N4 & A4).
    exists (a1 ++ a2 ++ a3 ++ a4)%list.
    split; [rewrite <- !List.app_assoc; reflexivity | split].
    + intros Hs. rewrite (N1 Hs), (N2 Hs), (N3 Hs), (N4 Hs). reflexivity.
    + intros c cmd' verb rs r Hin Hverb Hget Hr Hs.
      assert (Hempty : (a1 ++ a2 ++ a3 ++ a4)%list = [] ->
                       a1 = [] /\ a2 = [] /\ a3 = [] /\ a4 = []).
      { intros Hnil. apply List.app_eq_nil in Hnil. destruct Hnil as [-> Hnil].
        apply List.app_eq_nil in Hnil. destruct Hnil as [-> Hnil].
        apply List.app_eq_nil in Hnil. destruct Hnil as [-> ->]. auto. }
      destruct Hin as [[= -> ->] | Hin].
      * pose proof (listed_names cmd' verb rs Hget) as Hl.
        assert (Hv : List.In (VStr r) (List.map VStr rs)) by (apply List.in_map; exact Hr).
        destruct Hverb as [<- | [<- | [<- | []]]].
        -- rewrite Hl in E1. injection E1 as <-.
           destruct (A1 r Hv Hs) as [P1 P2]. split.
           ++ intros Hd. apply List.in_or_app. left. exact (P1 Hd).
           ++ intros Hnil. apply P2. apply Hempty in Hnil. tauto.
        -- rewrite Hl in E2. injection E2 as <-.
           destruct (A2 r Hv Hs) as [P1 P2]. split.
           ++ intros Hd. apply List.in_or_app. right. apply List.in_or_app. left.
              exact (P1 Hd).
           ++ intros Hnil. apply P2. apply Hempty in Hnil. tauto.
        -- rewrite Hl in E3. injection E3 as <-.
           destruct (A3 r Hv Hs) as [P1 P2]. split.
           ++ intros Hd. apply List.in_or_app. right. apply List.in_or_app. right.
              apply List.in_or_app. left. exact (P1 Hd).
           ++ intros Hnil. apply P2. apply Hempty in Hnil. tauto.
      * destruct (A4 c cmd' verb rs r Hin Hverb Hget Hr Hs) as [P1 P2]. split.
        -- intros Hd. apply List.in_or_app. right. apply List.in_or_app. right.
           apply List.in_or_app. right. exact (P1 Hd).
        -- intros Hnil. apply P2. apply Hempty in Hnil. tauto.
Qed.

Lemma decisions_grow (decisions : list Value) (i : nat) (ids : list string)
  (errs errs' : list string) :
  decisions_loop i decisions ids errs = Ret errs' ->
  exists added,
    errs' = (errs ++ added)%list /\ (some_names ids = false -> added = []).
Proof.
  revert i errs. induction decisions as [| decision rest IH]; intros i errs; simpl.
  - intros [= <-]. exists []. rewrite List.app_nil_r. split; reflexivity.
  - destruct (get_attr_get decision) as [d | e]; [| discriminate].
    rewrite bind_Ret.
    set (ref := match dict_get "ref" d with Some v => v | None => VNone end).
    destruct (truthy ref && some_names ids)%bool eqn:Ec.
    + destruct (not_in ref ids) as [unknown | e]; [| discriminate].
      rewrite bind_Ret.
      apply andb_true_iff in Ec. destruct Ec as [_ Hs].
      destruct unknown.
      * destruct (unknown_source i ref) as [message | e]; [| discriminate].
        rewrite bind_Ret. intros H. destruct (IH _ _ H) as (added & -> & Hn).
        exists (message :: added). rewrite <- List.app_assoc.
        split; [reflexivity | congruence].
      * intros H. destruct (IH _ _ H) as (added & -> & Hn).
        exists added. split; [reflexivity | exact Hn].
    + rewrite bind_Ret. intros H. destruct (IH _ _ H) as (added & -> & Hn).
      exists added. split; [reflexivity | exact Hn].
Qed.

(** What [_check_consistency] goes through when it returns. *)
Lemma check_inv (skill : Dict) (errs : list string) :
  _check_consistency skill = Ret errs ->
  exists items xs names sources ids from_commands from_decisions,
    Version.items_of (match dict_get "commands" skill with
                      | Some v => v
                      | None => VDict []
                      end) = Ret items
    /\ (section_get skill "state" "entities" (VList []) ≫= iter) = Ret xs
    /\ names_of "name" xs = Ret names
    /\ iter (match dict_get "sources" skill with
             | Some v => v
             | None => VList []
             end) = Ret sources
    /\ names_of "id" sources = Ret ids
    /\ commands_loop items names [] = Ret from_commands
    /\ errs = (from_commands ++ from_decisions)%list
    /\ (some_names ids = false -> from_decisions = []).
Proof.
  unfold _check_consistency. cbv zeta.
  destruct (keys_of _) as [command_names | e]; [| discriminate].
  rewrite bind_Ret.
  destruct (section_get skill "state" "entities" (VList [])) as [entities | e];
    [| discriminate].
  rewrite !bind_Ret.
  destruct (iter entities) as [xs | e]; [| discriminate].
  rewrite bind_Ret.
  destruct (names_of "name" xs) as [names | e] eqn:En; [| discriminate].
  rewrite bind_Ret.
  destruct (iter (match dict_get "sources" skill with
                  | Some v => v
                  | None => VList []
                  end)) as [sources | e] eqn:Es; [| discriminate].
  rewrite bind_Ret.
  destruct (names_of "id" sources) as [ids | e] eqn:Ei; [| discriminate].
  rewrite bind_Ret.
  destruct (created_by_loop xs) as [u | e]; [| discriminate].
  rewrite bind_Ret.
  destruct (Version.items_of _) as [items | e] eqn:Eit; [| discriminate].
  rewrite bind_Ret.
  destruct (commands_loop items names []) as [from_commands | e] eqn:Ec;
    [| discriminate].
  rewrite bind_Ret.
  destruct (iter (match dict_get "decisions" skill with
                  | Some v => v
                  | None => VList []
                  end)) as [decisions | e]; [| discriminate].
  rewrite bind_Ret. intros H.
  destruct (decisions_grow _ _ _ _ _ H) as (added & -> & Hn).
  exists items, xs, names, sources, ids, from_commands, added.
  repeat split; try reflexivity; assumption.
Qed.

(** Without declared entities and without sources the check has nothing
    to compare with: whatever the commands and the decisions name, it
    reports nothing. *)
Theorem nothing_declared_nothing_reported (skill : Dict) (errs : list string) :
  (section_get skill "state" "entities" (VList []) ≫= iter) = Ret [] ->
  iter (match dict_get "sources" skill with
        | Some v => v
        | None => VList []
        end) = Ret [] ->
  _check_consistency skill = Ret errs ->
  errs = [].
Proof.
  intros He Hs H.
  destruct (check_inv skill errs H)
    as (items & xs & names & sources & ids & fc & fd
        & _ & Hxs & Hn & Hso & Hi & Hc & -> & Hd).
  rewrite He in Hxs. injection Hxs as <-.
  rewrite Hs in Hso. injection Hso as <-.
  simpl in Hn, Hi. injection Hn as <-. injection Hi as <-.
  destruct (commands_grow items [] [] fc Hc) as (added & -> & Hnone & _).
  rewrite (Hnone eq_refl), (Hd eq_refl). reflexivity.
Qed.

(** When the check reports nothing and some entity is declared, every
    entity a command requires, creates or invalidates is one that a new
    state manager holds. *)
Theorem consistent_references_are_declared (skill commands cmd : Dict)
  (ents : Entities) (c verb : string) (rs : list string) (r : string) :
  _check_consistency skill = Ret [] ->
  _initialize_entities skill = Ret ents ->
  (exists n, is_Some (ents !! n)) ->
  dict_get "commands" skill = Some (VDict commands) ->
  dict_get c commands = Some (VDict cmd) ->
  List.In verb verbs ->
  dict_get verb cmd = Some (VList (List.map VStr rs)) ->
  List.In r rs ->
  is_Some (ents !! r).
Proof.
  intros H Hinit [n Hn] Hcs Hc Hverb Hget Hr.
  destruct (check_inv skill [] H)
    as (items & xs & names & sources & ids & fc & fd
        & Hit & Hxs & Hnames & _ & _ & Hloop & Hnil & _).
  rewrite Hcs in Hit. simpl in Hit. injection Hit as <-.
  symmetry in Hnil. apply List.app_eq_nil in Hnil. destruct Hnil as [-> _].
  unfold _initialize_entities in Hinit.
  destruct (section_get skill "state" "entities" (VList [])) as [entities | e];
    [| discriminate].
  rewrite bind_Ret in Hinit. rewrite bind_Ret in Hxs. rewrite Hxs, bind_Ret in Hinit.
  pose proof (names_of_initialize xs names ∅ ents Hnames Hinit) as Hdecl.
  assert (Hsome : some_names names = true).
  { apply Hdecl in Hn. destruct Hn as [[x Hx] | Hd].
    - rewrite lookup_empty in Hx. discriminate.
    - destruct names; [discriminate Hd | reflexivity]. }
  destruct (commands_grow commands names [] [] Hloop) as (added & Ha & _ & Hall).
  simpl in Ha. subst added.
  apply Hdecl. right.
  apply (Hall c cmd verb rs r); auto.
  apply VersionFacts.dict_get_In. exact Hc.
Qed.

(** When some entity is declared, every name in the lists of a command
    that is not declared is reported, in the words of the message. *)
Theorem undeclared_reference_is_reported (skill commands cmd : Dict)
  (ents : Entities) (errs : list string) (c verb : string) (rs : list string)
  (r : string) :
  _check_consistency skill = Ret errs ->
  _initialize_entities skill = Ret ents ->
  (exists n, is_Some (ents !! n)) ->
  dict_get "commands" skill = Some (VDict commands) ->
  dict_get c commands = Some (VDict cmd) ->
  List.In verb verbs ->
  dict_get verb cmd = Some (VList (List.map VStr rs)) ->
  List.In r rs ->
  ents !! r = None ->
  List.In ("Command '" +:+ c +:+ "' " +:+ verb +:+ " unknown state entity '"
             +:+ r +:+ "'") errs.
Proof.
  intros H Hinit [n Hn] Hcs Hc Hverb Hget Hr Hnone.
  destruct (check_inv skill errs H)
    as (items & xs & names & sources & ids & fc & fd
        & Hit & Hxs & Hnames & _ & _ & Hloop & -> & _).
  rewrite Hcs in Hit. simpl in Hit. injection Hit as <-.
  unfold _initialize_entities in Hinit.
  destruct (section_get skill "state" "entities" (VList [])) as [entities | e];
    [| discriminate].
  rewrite bind_Ret in Hinit. rewrite bind_Ret in Hxs. rewrite Hxs, bind_Ret in Hinit.
  pose proof (names_of_initialize xs names ∅ ents Hnames Hinit) as Hdecl.
  assert (Hsome : some_names names = true).
  { apply Hdecl in Hn. destruct Hn as [[x Hx] | Hd].
    - rewrite lookup_empty in Hx. discriminate.
    - destruct names; [discriminate Hd | reflexivity]. }
  assert (Hundecl : declared r names = false).
  { destruct (declared r names) eqn:E; [| reflexivity].
    assert (Hs : is_Some (ents !! r)) by (apply Hdecl; right; exact E).
    rewrite Hnone in Hs. destruct Hs as [x Hx]. discriminate. }
  destruct (commands_grow commands names [] fc Hloop) as (added & -> & _ & Hall).
  apply List.in_or_app. left. simpl.
  apply (Hall c cmd verb rs r); auto.
  apply VersionFacts.dict_get_In. exact Hc.
Qed.

End Check.

End ConsistencyFacts.

(** The facts above on the command-line skill. *)

Lemma nothing_declared_nothing_reported_witness :
  Consistency._check_consistency (FR := sample_repr)
    [("commands", VDict [("go", VDict [("requires", VList [VStr "session"])])])]
  = Ret []
  /\ ([] : list string) = [].
Proof.
  split; [reflexivity |].
  apply (ConsistencyFacts.nothing_declared_nothing_reported (FR := sample_repr)
           [("commands", VDict [("go", VDict [("requires", VList [VStr "session"])])])]
           []); reflexivity.
Defined.

Lemma consistent_references_are_declared_witness :
  is_Some (Samples.cli_entities !! "session").
Proof.
  eapply (ConsistencyFacts.consistent_references_are_declared (FR := sample_repr)
            Samples.cli _ _ Samples.cli_entities "fetch" "requires" ["session"] "session").
  - reflexivity.
  - reflexivity.
  - exists "data". eexists. reflexivity.
  - reflexivity.
  - reflexivity.
  - simpl. tauto.
  - reflexivity.
  - simpl. tauto.
Defined.

Lemma undeclared_reference_is_reported_witness :
  List.In "Command 'go' creates unknown state entity 'token'"
    ["Command 'go' creates unknown state entity 'token'"].
Proof.
  eapply (ConsistencyFacts.undeclared_reference_is_reported (FR := sample_repr)
            [("state", VDict [("entities", VList [VDict [("name", VStr "session")]])]);
             ("commands", VDict [("go", VDict [("creates", VList [VStr "token"])])])]
            _ _ (<["session" := State.mkStateEntity "session" VNone false]> ∅)
            _ "go" "creates" ["token"] "token").
  - reflexivity.
  - reflexivity.
  - exists "session". eexists. reflexivity.
  - reflexivity.
  - reflexivity.
  - simpl. tauto.
  - reflexivity.
  - simpl. tauto.
  - reflexivity.
Defined.
